(** * Ghostfolio portfolio analysis agent: a shallow embedding

    The agent orchestrator (agent.service.ts), its tools
    (get-portfolio-snapshot.tool.ts, get-performance.tool.ts,
    simulate-allocation-change.tool.ts, tool-registry.ts), the response
    verifier (agent.verifier.ts), the SSE proxy of the API
    (endpoints/agent/agent.service.ts) and the WebSocket gateway
    (agent-websocket.ts) are embedded as Rocq functions.

    Modelling conventions.
    - A JavaScript [number] is the rational ([Q]) that its decimal text
      denotes, which is what [new Big(number)] reads; [null]/[undefined] is
      [None]. NaN and the infinities are outside the model. Where the code
      computes on doubles (the rounding of a percent to two decimals), the
      conversion [toNumber] and the product round to the nearest double
      ([Double.nearest], the range of the exponent taken as unbounded). The
      amounts that the tools report with [toNumber] are taken to be the
      decimals they convert.
    - A big.js [Big] is a rational as well: [plus], [minus] and [times] are
      exact in big.js, [div] rounds to 20 decimal places, half away from zero.
    - A JavaScript [string] is the [string] of the bytes of its UTF-8
      encoding; the operations that depend on the code points ([trim],
      [toLowerCase]) read the encoding.
    - A JavaScript [Map] is an association list in insertion order.
    - Effects (the clock, the LLM provider, tool executors, the socket) are
      threaded explicitly through a world or an action log. *)

From Stdlib Require Import ZArith QArith Qround Qabs Qpower.
From Stdlib Require Import List String Ascii Bool.
From Stdlib Require Import Lia Lqa DecimalString.
From Stdlib Require Import Sorted Permutation.
From Equations Require Import Equations.
From Equations.Prop Require Import Logic.
Import ListNotations.

Open Scope string_scope.
Open Scope list_scope.

(* ===================================================================== *)
(** * Part I: definitions                                                  *)
(* ===================================================================== *)

(** ** JavaScript strings *)

Module JsString.

(** [s.startsWith(p)] *)
Fixpoint startsWith (p s : string) : bool :=
  match p, s with
  | EmptyString, _ => true
  | String a p', String b s' => Ascii.eqb a b && startsWith p' s'
  | String _ _, EmptyString => false
  end.

(** [s.indexOf(sep)] for a non-empty [sep]: position of the leftmost
    occurrence, [None] for JavaScript's -1. *)
Fixpoint indexOf (sep s : string) : option nat :=
  if startsWith sep s then Some 0%nat
  else match s with
       | EmptyString => None
       | String _ s' => option_map S (indexOf sep s')
       end.

(** [s.includes(sub)] *)
Definition includes (sub s : string) : bool :=
  match indexOf sub s with Some _ => true | None => false end.

(** [s.slice(0, n)] *)
Fixpoint slice_to (n : nat) (s : string) : string :=
  match n, s with
  | S n', String c s' => String c (slice_to n' s')
  | _, _ => EmptyString
  end.

(** [s.slice(n)] *)
Fixpoint slice_from (n : nat) (s : string) : string :=
  match n, s with
  | S n', String _ s' => slice_from n' s'
  | _, _ => s
  end.

(** [s.split(c)] for a one-character separator: always at least one piece. *)
Fixpoint split_char (c : ascii) (s : string) : list string :=
  match s with
  | EmptyString => [EmptyString]
  | String a s' =>
      if Ascii.eqb a c then EmptyString :: split_char c s'
      else match split_char c s' with
           | [] => [String a EmptyString]
           | piece :: rest => String a piece :: rest
           end
  end.

(** [pieces.join(sep)] *)
Fixpoint join (sep : string) (pieces : list string) : string :=
  match pieces with
  | [] => EmptyString
  | [p] => p
  | p :: rest => (p ++ sep ++ join sep rest)%string
  end.

(** The UTF-8 encoding of a sequence of bytes given by their numbers. *)
Definition bytes (ns : list nat) : string :=
  fold_right (fun n s => String (ascii_of_nat n) s) EmptyString ns.

(** What [trim] removes, in UTF-8: the white space and the line
    terminators of ECMAScript (tab, line feed, vertical tab, form feed,
    carriage return, space, U+00A0, U+1680, U+2000 to U+200A, U+2028,
    U+2029, U+202F, U+205F, U+3000 and U+FEFF). None of them starts with a
    continuation byte. *)
Definition WHITE_SPACE : list string :=
  [ bytes [9]; bytes [10]; bytes [11]; bytes [12]; bytes [13]; bytes [32];
    bytes [194; 160];
    bytes [225; 154; 128];
    bytes [226; 128; 128]; bytes [226; 128; 129]; bytes [226; 128; 130];
    bytes [226; 128; 131]; bytes [226; 128; 132]; bytes [226; 128; 133];
    bytes [226; 128; 134]; bytes [226; 128; 135]; bytes [226; 128; 136];
    bytes [226; 128; 137]; bytes [226; 128; 138];
    bytes [226; 128; 168]; bytes [226; 128; 169]; bytes [226; 128; 175];
    bytes [226; 129; 159];
    bytes [227; 128; 128];
    bytes [239; 187; 191] ]%nat.

Definition is_space (w : string) : bool := existsb (String.eqb w) WHITE_SPACE.

Fixpoint trimStart (s : string) : string :=
  match s with
  | EmptyString => EmptyString
  | String a s1 =>
      if is_space (String a EmptyString) then trimStart s1
      else
        match s1 with
        | EmptyString => s
        | String b s2 =>
            if is_space (String a (String b EmptyString)) then trimStart s2
            else
              match s2 with
              | EmptyString => s
              | String c s3 =>
                  if is_space (String a (String b (String c EmptyString)))
                  then trimStart s3
                  else s
              end
        end
  end.

(** A text of white space only. *)
Definition blank (s : string) : bool :=
  match trimStart s with EmptyString => true | _ => false end.

Fixpoint trimEnd (s : string) : string :=
  match s with
  | EmptyString => EmptyString
  | String c s' => if blank s then EmptyString else String c (trimEnd s')
  end.

(** [s.trim()] *)
Definition trim (s : string) : string := trimEnd (trimStart s).

Definition lower_ascii (c : ascii) : ascii :=
  let n := nat_of_ascii c in
  if ((65 <=? n) && (n <=? 90))%nat then ascii_of_nat (n + 32) else c.

(** The text with its ASCII capitals in lower case, every other byte
    kept: what a regular expression with the [i] flag (and without [u])
    compares. *)
Fixpoint foldAscii (s : string) : string :=
  match s with
  | EmptyString => EmptyString
  | String c s' => String (lower_ascii c) (foldAscii s')
  end.

(** The second byte of a capital of the Latin-1 supplement (U+00C0 to
    U+00DE without the multiplication sign U+00D7), whose first byte is
    195. *)
Definition latin1_capital (b : ascii) : bool :=
  let n := nat_of_ascii b in
  ((128 <=? n) && (n <=? 158) && negb (n =? 151))%nat.

(** [s.toLowerCase()] on the UTF-8 encoding: the ASCII capitals, the
    capitals of the Latin-1 supplement, and the two code points outside
    ASCII whose lower case contains an ASCII letter: U+212A (Kelvin sign,
    to k) and U+0130 (dotted capital I, to i followed by U+0307). The other
    capitals of Unicode keep their encoding: their lower case is no more
    ASCII than they are, and the verifier searches the lowered text for
    ASCII keywords only. *)
Fixpoint toLowerCase (s : string) : string :=
  match s with
  | EmptyString => EmptyString
  | String a s1 =>
      match s1 with
      | EmptyString => String (lower_ascii a) EmptyString
      | String b s2 =>
          if (nat_of_ascii a =? 195)%nat && latin1_capital b
          then String a (String (ascii_of_nat (nat_of_ascii b + 32))
                           (toLowerCase s2))
          else if ((nat_of_ascii a =? 196) && (nat_of_ascii b =? 176))%nat
          then (String "i" (bytes [204; 135]%nat) ++ toLowerCase s2)%string
          else
            match s2 with
            | EmptyString => String (lower_ascii a) (toLowerCase s1)
            | String c s3 =>
                if ((nat_of_ascii a =? 226) && (nat_of_ascii b =? 132)
                    && (nat_of_ascii c =? 170))%nat
                then String "k" (toLowerCase s3)
                else String (lower_ascii a) (toLowerCase s1)
            end
      end
  end.

(** A JavaScript string is falsy exactly when it is empty. *)
Definition truthy (s : string) : bool :=
  match s with EmptyString => false | _ => true end.

(** A text without the character [c]. *)
Fixpoint lacks (c : ascii) (s : string) : Prop :=
  match s with
  | EmptyString => True
  | String a s' => Ascii.eqb a c = false /\ lacks c s'
  end.

Definition LF : string := String (ascii_of_nat 10) EmptyString.
Definition LFLF : string := (LF ++ LF)%string.

End JsString.

(** ** JavaScript [Map] with string keys: insertion-ordered *)

Module JsMap.

Definition t (V : Type) : Type := list (string * V).

Definition empty {V : Type} : t V := [].

(** [m.get(k)] *)
Fixpoint get {V : Type} (k : string) (m : t V) : option V :=
  match m with
  | [] => None
  | (k', v) :: m' => if String.eqb k k' then Some v else get k m'
  end.

(** [m.set(k, v)]: an existing key keeps its position, a new key goes last. *)
Fixpoint set {V : Type} (k : string) (v : V) (m : t V) : t V :=
  match m with
  | [] => [(k, v)]
  | (k', v') :: m' =>
      if String.eqb k k' then (k', v) :: m' else (k', v') :: set k v m'
  end.

(** [m.values()], [m.keys()] *)
Definition values {V : Type} (m : t V) : list V := map snd m.
Definition keys {V : Type} (m : t V) : list string := map fst m.

End JsMap.

(** ** Numbers *)

(** [Math.round(x)]: the nearest integer, a tie going up. *)
Definition Math_round (x : Q) : Z := Qfloor (x + (1 # 2))%Q.

(** Binary64 numbers as the rationals they are. *)
Module Double.


(** The nearest integer, a tie going to the even one. *)
Definition roundEven (m : Q) : Z :=
  let k := Qfloor m in
  match (m - inject_Z k ?= 1 # 2)%Q with
  | Lt => k
  | Gt => (k + 1)%Z
  | Eq => if Z.even k then k else (k + 1)%Z
  end.

(** The exponent [e] of the last place of a positive rational:
    [2^52 <= a / 2^e < 2^53]. *)
Definition exponent (a : Q) : Z :=
  let e0 := (Z.log2 (Qnum a) - Z.log2 (Zpos (Qden a)) - 52)%Z in
  if Qle_bool (2 ^ 52) (a * 2 ^ (- e0)) then e0 else (e0 - 1)%Z.

(** The double nearest to a rational (round to nearest, ties to even),
    the range of the exponent taken as unbounded. *)
Definition nearest (q : Q) : Q :=
  if Qeq_bool q 0 then 0%Q
  else
    let a := Qabs q in
    let e := exponent a in
    let m := inject_Z (roundEven (a * 2 ^ (- e))) * 2 ^ e in
    if Qle_bool 0 q then m else (- m)%Q.

End Double.

(** [Math.max(0, x)] *)
Definition Math_max0 (x : Q) : Q := if Qle_bool 0 x then x else 0%Q.

Module Big.

Definition DP : Z := 20.
Definition scale : Q := inject_Z (10 ^ DP).

(** Rounding of a rational to [DP] decimal places, half away from zero
    (big.js [RM = 1]). *)
Definition round_dp (q : Q) : Q :=
  if Qle_bool 0 q
  then (inject_Z (Qfloor (q * scale + (1 # 2))) / scale)%Q
  else (- (inject_Z (Qfloor (- q * scale + (1 # 2))) / scale))%Q.

Definition plus (x y : Q) : Q := (x + y)%Q.
Definition minus (x y : Q) : Q := (x - y)%Q.
Definition times (x y : Q) : Q := (x * y)%Q.
Definition div (x y : Q) : Q := round_dp (x / y)%Q.
Definition gt (x y : Q) : bool := negb (Qle_bool x y).
Definition lt (x y : Q) : bool := negb (Qle_bool y x).

End Big.

(** ** Results of calls that may throw *)

(** What a [catch (error)] clause receives: an [Error] object with its
    [message]; [null]; [undefined]; or any other thrown value, with its
    [String(error)] and, when it has a [message] property, the text of
    that property. *)
Inductive Thrown : Type :=
| ErrorObject (message : string)
| ThrownNull
| ThrownUndefined
| OtherValue (shown : string) (message : option string).

(** [error instanceof Error ? error.message : String(error)] *)
Definition error_text (e : Thrown) : string :=
  match e with
  | ErrorObject m => m
  | ThrownNull => "null"
  | ThrownUndefined => "undefined"
  | OtherValue s _ => s
  end.

(** The [TypeError] of reading a property of [null] or [undefined], in
    the words of Node. *)
Definition cannotRead (value property : string) : Thrown :=
  ErrorObject ("Cannot read properties of " ++ value ++ " (reading '"
               ++ property ++ "')").

(** [`${error.message}`]: the message of an [Error], the [message]
    property of another object (a value without one reads [undefined]);
    reading it from [null] or [undefined] throws. *)
Definition message_of (e : Thrown) : Thrown + string :=
  match e with
  | ErrorObject m => inr m
  | ThrownNull => inl (cannotRead "null" "message")
  | ThrownUndefined => inl (cannotRead "undefined" "message")
  | OtherValue _ (Some m) => inr m
  | OtherValue _ None => inr "undefined"
  end.

Inductive Outcome (A : Type) : Type :=
| Returned (a : A)
| Threw (e : Thrown).
Arguments Returned {A} a.
Arguments Threw {A} e.

(** ** agent.types.ts *)

Definition IsoDate := string.

Record Timeframe := { tf_start : IsoDate; tf_end : IsoDate }.

Inductive ValuationMethod := market | cost_basis.

Definition ValuationMethod_eqb (a b : ValuationMethod) : bool :=
  match a, b with
  | market, market | cost_basis, cost_basis => true
  | _, _ => false
  end.

Record Money := { currency : string; amount : Q }.

Record HoldingRow := {
  hr_symbol : string;
  hr_name : option string;
  hr_quantity : Q;
  hr_costBasis : option Money;
  hr_price : option Money;
  hr_value : option Money;
  hr_assetClass : option string
}.

Record AllocationRow := { key : string; value : Money; percent : Q }.

Record PortfolioSnapshotResult := {
  accountId : string;
  timeframe : Timeframe;
  valuationMethod : ValuationMethod;
  asOf : option IsoDate;
  totalValue : Money;
  allocationBySymbol : list AllocationRow;
  allocationByAssetClass : list AllocationRow;
  holdings : list HoldingRow;
  isPriceDataMissing : bool
}.

Record PerformancePoint := {
  pp_date : IsoDate;
  pp_value : Money;
  pp_returnPercent : option Q
}.

Record PerformanceResult := {
  pr_accountId : string;
  pr_timeframe : Timeframe;
  pr_valuationMethod : ValuationMethod;
  pr_asOf : option IsoDate;
  pr_totalReturnPercent : option Q;
  pr_timeSeries : list PerformancePoint;
  pr_reasonIfUnavailable : option string
}.

(** [type] is compared with ['buy'] and ['sell'] at run time. *)
Record AllocationChange := {
  ch_type : string;
  ch_symbol : string;
  ch_amount : Money
}.

Record SimulateAllocationResult := {
  sr_accountId : string;
  sr_timeframe : Timeframe;
  sr_valuationMethod : ValuationMethod;
  sr_asOf : option IsoDate;
  originalTotalValue : Money;
  newTotalValue : Money;
  newAllocationBySymbol : list AllocationRow;
  notes : list string
}.

Record ToolTraceRow := {
  tool : string;
  ok : bool;
  ms : Z;
  error : option string
}.

Record ResponseData := {
  d_valuationMethod : ValuationMethod;
  d_asOf : option IsoDate;
  d_totalValue : option Money;
  d_allocationBySymbol : option (list AllocationRow);
  d_allocationByAssetClass : option (list AllocationRow)
}.

Record AgentChatResponse := {
  answer : string;
  data : ResponseData;
  toolTrace : list ToolTraceRow;
  confidence : Q;
  warnings : list string
}.

Record HistoryMessage := { hm_role : string; hm_content : string }.

Record AgentChatRequest := {
  message : string;
  conversationHistory : option (list HistoryMessage)
}.

(** ** The portfolio-data provider (PortfolioService), as far as the tools
    read it *)

Record PortfolioPosition := {
  pos_symbol : string;
  pos_name : option string;
  pos_quantity : Q;
  pos_currency : string;
  pos_marketPrice : option Q;
  pos_investment : option Q;
  pos_valueInBaseCurrency : option Q;
  pos_assetClass : option string
}.

(** [details.holdings] is kept as [Object.values(details.holdings)]. *)
Record PortfolioDetails := {
  details_holdings : list PortfolioPosition;
  details_hasErrors : bool
}.

(** The first field is the identity of the JavaScript object: [===] on two
    items compares it. *)
Record HistoricalDataItem := {
  hd_ref : nat;
  hd_date : IsoDate;
  hd_netWorth : option Q;
  hd_netPerformanceInPercentage : option Q
}.

Record PortfolioPerformanceResponse := {
  perf_chart : option (list HistoricalDataItem);
  perf_netPerformancePercentage : option Q;
  perf_hasErrors : bool
}.

(** ** tools/tool-registry.ts *)

Record ToolContext := {
  userId : string;
  baseCurrency : string;
  impersonationId : option string
}.

Record AgentToolDefinition := {
  name : string;
  description : string;
  input_schema : string
}.

Section Registry.

(** [Executor] is the type of the [execute] capability. *)
Variable Executor : Type.

Record RegisteredTool := {
  definition : AgentToolDefinition;
  executor : Executor;
  enabled : bool
}.

Definition ToolRegistry := JsMap.t RegisteredTool.

Definition register (tool : RegisteredTool) (tools : ToolRegistry)
  : ToolRegistry :=
  JsMap.set (name (definition tool)) tool tools.

Definition getDefinitions (tools : ToolRegistry) : list AgentToolDefinition :=
  map definition (filter enabled (JsMap.values tools)).

Definition getExecutor (nm : string) (tools : ToolRegistry)
  : option Executor :=
  match JsMap.get nm tools with
  | Some tool => if negb (enabled tool) then None else Some (executor tool)
  | None => None
  end.

Definition isEnabled (nm : string) (tools : ToolRegistry) : bool :=
  match JsMap.get nm tools with
  | Some tool => enabled tool
  | None => false
  end.

Definition getToolNames (tools : ToolRegistry) : list string :=
  map (fun t => name (definition t)) (filter enabled (JsMap.values tools)).

End Registry.

Arguments definition {Executor} _.
Arguments executor {Executor} _.
Arguments enabled {Executor} _.
Arguments register {Executor} _ _.
Arguments getDefinitions {Executor} _.
Arguments getExecutor {Executor} _ _.
Arguments isEnabled {Executor} _ _.
Arguments getToolNames {Executor} _.

(** ** JavaScript tests on numbers *)

(** [x > 0] *)
Definition gt0 (x : Q) : bool := negb (Qle_bool x 0).

(** [x ?? 0] *)
Definition or0 (x : option Q) : Q :=
  match x with Some q => q | None => 0%Q end.

(** [x === 0 || x == null] *)
Definition zero_or_null (x : option Q) : bool :=
  match x with Some q => Qeq_bool q 0 | None => true end.

(** The value of [x ? f(x) : null] for a nullable number: zero is falsy. *)
Definition if_truthy {A : Type} (x : option Q) (f : Q -> A) : option A :=
  match x with
  | Some q => if Qeq_bool q 0 then None else Some (f q)
  | None => None
  end.

(** [Math.round(x.toNumber() * 100) / 100] for a big.js decimal [x]: the
    decimal becomes the nearest double, the product with 100 is rounded
    to a double again, [Math.round] takes the nearest integer [k] (a tie
    going up), and the quotient of [k] by 100 is the double that reads as
    the decimal [k / 100]. *)
Definition round2 (x : Q) : Q :=
  (inject_Z (Math_round (Double.nearest (Double.nearest x * 100))) / 100)%Q.

(** ** tools/get-portfolio-snapshot.tool.ts *)

Module GetPortfolioSnapshotTool.

(** The filter of [mapToSnapshot]: a position is kept when
    [pos.quantity > 0 || (pos.valueInBaseCurrency ?? 0) > 0]. *)
Definition retained (pos : PortfolioPosition) : bool :=
  gt0 (pos_quantity pos) || gt0 (or0 (pos_valueInBaseCurrency pos)).

Definition hasMissingPrice (pos : PortfolioPosition) : bool :=
  zero_or_null (pos_marketPrice pos)
  || zero_or_null (pos_valueInBaseCurrency pos).

Definition toHoldingRow (baseCurrency : string) (pos : PortfolioPosition)
  : HoldingRow :=
  {| hr_symbol := pos_symbol pos;
     hr_name := pos_name pos;
     hr_quantity := pos_quantity pos;
     hr_costBasis :=
       if_truthy (pos_investment pos)
         (fun q => {| currency := baseCurrency; amount := q |});
     hr_price :=
       if_truthy (pos_marketPrice pos)
         (fun q => {| currency := pos_currency pos; amount := q |});
     hr_value :=
       if_truthy (pos_valueInBaseCurrency pos)
         (fun q => {| currency := baseCurrency; amount := q |});
     hr_assetClass := pos_assetClass pos |}.

(** One call of the [.map] callback: it returns the row and may set the
    captured variable [isPriceDataMissing]. *)
Definition map_callback (baseCurrency : string)
  (st : list HoldingRow * bool) (pos : PortfolioPosition)
  : list HoldingRow * bool :=
  let '(rows, isPriceDataMissing) := st in
  (rows ++ [toHoldingRow baseCurrency pos],
   if hasMissingPrice pos then true else isPriceDataMissing).

(** [h.value?.amount ?? h.costBasis?.amount ?? 0] *)
Definition holdingValue (h : HoldingRow) : Q :=
  match hr_value h with
  | Some m => amount m
  | None => match hr_costBasis h with
            | Some m => amount m
            | None => 0%Q
            end
  end.

Definition computeTotalValue (hs : list HoldingRow) : Q :=
  fold_left (fun sum h => Big.plus sum (holdingValue h)) hs 0%Q.

Definition symbolRow (baseCurrency : string) (total : Q) (h : HoldingRow)
  : AllocationRow :=
  let hv := holdingValue h in
  let pct := if Big.gt total 0 then Big.times (Big.div hv total) 100
             else 0%Q in
  {| key := hr_symbol h;
     value := {| currency := baseCurrency; amount := hv |};
     percent := round2 pct |}.

Definition assetClassStep (m : JsMap.t Q) (h : HoldingRow) : JsMap.t Q :=
  let cls := match hr_assetClass h with Some c => c | None => "UNKNOWN" end in
  let val := holdingValue h in
  JsMap.set cls (Big.plus (or0 (JsMap.get cls m)) val) m.

Definition assetClassRow (baseCurrency : string) (total : Q)
  (entry : string * Q) : AllocationRow :=
  let '(k, val) := entry in
  {| key := k;
     value := {| currency := baseCurrency; amount := val |};
     percent := if Big.gt total 0
                then round2 (Big.times (Big.div val total) 100)
                else 0%Q |}.

(** [now] is [new Date().toISOString().split('T')[0]]. *)
Definition mapToSnapshot (now : IsoDate) (details : PortfolioDetails)
  (baseCurrency : string) : PortfolioSnapshotResult :=
  let positions := details_holdings details in
  let '(hs, missing) :=
    fold_left (map_callback baseCurrency) (filter retained positions)
      ([], false) in
  let total := computeTotalValue hs in
  let bySymbol := map (symbolRow baseCurrency total) hs in
  let assetClassMap := fold_left assetClassStep hs JsMap.empty in
  let byAssetClass := map (assetClassRow baseCurrency total) assetClassMap in
  let method := if missing then cost_basis else market in
  {| accountId := "default";
     timeframe := {| tf_start := ""; tf_end := now |};
     valuationMethod := method;
     asOf := if ValuationMethod_eqb method market then Some now else None;
     totalValue := {| currency := baseCurrency; amount := total |};
     allocationBySymbol := bySymbol;
     allocationByAssetClass := byAssetClass;
     holdings := hs;
     isPriceDataMissing := missing |}.

Section Execute.

(** The world the provider reads; [getDetails] may throw. *)
Variable W : Type.
Variable getDetails :
  string -> option string -> string -> W -> Outcome PortfolioDetails * W.
Variable today : W -> IsoDate.

(** [execute(input, context)]: [dateRange] is [input.dateRange ?? 'max']. *)
Definition execute (dateRange : option string) (context : ToolContext)
  (w : W) : Outcome PortfolioSnapshotResult * W :=
  let range := match dateRange with Some r => r | None => "max" end in
  match getDetails range (impersonationId context) (userId context) w with
  | (Returned details, w') =>
      (Returned (mapToSnapshot (today w') details (baseCurrency context)), w')
  | (Threw e, w') => (Threw e, w')
  end.

End Execute.

End GetPortfolioSnapshotTool.

(** ** tools/get-performance.tool.ts *)

Module GetPerformanceTool.

Definition MAX_CHART_POINTS : nat := 20.

Section SampleChart.

(** [sampleChart] reads nothing of an item but its identity. *)
Variable A : Type.
Variable same : A -> A -> bool.

(** [Math.ceil(n / m)] on lengths *)
Definition ceil_div (n m : nat) : nat := ((n + m - 1) / m)%nat.

(** [chart.filter((_, i) => i % step === 0)], from index [i] on *)
Fixpoint filter_stride (step i : nat) (chart : list A) : list A :=
  match chart with
  | [] => []
  | x :: rest =>
      if (i mod step =? 0)%nat then x :: filter_stride step (S i) rest
      else filter_stride step (S i) rest
  end.

(** [xs[xs.length - 1]]: [undefined] on the empty array *)
Definition last_item (xs : list A) : option A :=
  match xs with [] => None | x :: rest => Some (last rest x) end.

(** [a !== b] on two array reads *)
Definition differ (a b : option A) : bool :=
  match a, b with
  | Some x, Some y => negb (same x y)
  | None, None => false
  | _, _ => true
  end.

Definition sampleChart (chart : list A) (maxPoints : nat) : list A :=
  if (List.length chart <=? maxPoints)%nat then chart
  else
    let step := ceil_div (List.length chart) maxPoints in
    let sampled := filter_stride step 0 chart in
    if (0 <? List.length chart)%nat && differ (last_item sampled) (last_item chart)
    then match last_item chart with
         | Some x => sampled ++ [x]
         | None => sampled
         end
    else sampled.

End SampleChart.

Arguments sampleChart {A} same chart maxPoints.

Section Execute.

Variable W : Type.
Variable getPerformance :
  string -> option string -> string -> W
  -> Outcome PortfolioPerformanceResponse * W.
Variable today : W -> IsoDate.

Definition same_item (a b : HistoricalDataItem) : bool :=
  (hd_ref a =? hd_ref b)%nat.

Definition toPoint (baseCurrency : string) (item : HistoricalDataItem)
  : PerformancePoint :=
  {| pp_date := hd_date item;
     pp_value := {| currency := baseCurrency;
                    amount := or0 (hd_netWorth item) |};
     pp_returnPercent := hd_netPerformanceInPercentage item |}.

(** [execute] catches a failure of the provider and returns a degraded
    result with [error.message] in its reason; reading that message
    fails, and [execute] with it, when the provider threw [null] or
    [undefined]. *)
Definition execute (dateRange : option string) (context : ToolContext)
  (w : W) : Outcome PerformanceResult * W :=
  let range := match dateRange with Some r => r | None => "max" end in
  match getPerformance range (impersonationId context) (userId context) w with
  | (Returned result, w') =>
      let chart := match perf_chart result with Some c => c | None => [] end in
      let sampledChart := sampleChart same_item chart MAX_CHART_POINTS in
      let now := today w' in
      (Returned
         {| pr_accountId := "default";
            pr_timeframe := {| tf_start := ""; tf_end := now |};
            pr_valuationMethod :=
              if perf_hasErrors result then cost_basis else market;
            pr_asOf := Some now;
            pr_totalReturnPercent := perf_netPerformancePercentage result;
            pr_timeSeries := map (toPoint (baseCurrency context)) sampledChart;
            pr_reasonIfUnavailable :=
              if perf_hasErrors result
              then Some "Some data may be incomplete or contain errors."
              else None |}, w')
  | (Threw e, w') =>
      let now := today w' in
      match message_of e with
      | inl typeError => (Threw typeError, w')
      | inr msg =>
          (Returned
             {| pr_accountId := "default";
                pr_timeframe := {| tf_start := ""; tf_end := now |};
                pr_valuationMethod := cost_basis;
                pr_asOf := None;
                pr_totalReturnPercent := None;
                pr_timeSeries := [];
                pr_reasonIfUnavailable :=
                  Some ("Performance data is not available: " ++ msg)%string |},
           w')
      end
  end.

End Execute.

End GetPerformanceTool.

(** ** tools/simulate-allocation-change.tool.ts *)

Module SimulateAllocationChangeTool.

Section Simulate.

(** The two conversions of a number to text that the notes use: template
    interpolation of a [number], and [Big.toFixed(2)]. *)
Variable show_number : Q -> string.
Variable toFixed2 : Q -> string.

Definition retained (pos : PortfolioPosition) : bool :=
  gt0 (pos_quantity pos) || gt0 (or0 (pos_valueInBaseCurrency pos)).

(** [pos.valueInBaseCurrency ?? pos.investment ?? 0] *)
Definition trackedValue (pos : PortfolioPosition) : Q :=
  match pos_valueInBaseCurrency pos with
  | Some v => v
  | None => or0 (pos_investment pos)
  end.

(** The loop that builds the map of current values by symbol. *)
Definition buildValueMap (positions : list PortfolioPosition) : JsMap.t Q :=
  fold_left
    (fun m pos =>
       if retained pos then JsMap.set (pos_symbol pos) (trackedValue pos) m
       else m)
    positions JsMap.empty.

Definition sumValues (m : JsMap.t Q) : Q :=
  fold_left (fun total val => Big.plus total val) (JsMap.values m) 0%Q.

(** The variables the change loop updates. *)
Record LoopState := {
  valueMap : JsMap.t Q;
  newTotal : Q;
  loopNotes : list string
}.

(** [valueMap.get(change.symbol) ?? new Big(0)] *)
Definition currentValueOf (symbol : string) (st : LoopState) : Q :=
  or0 (JsMap.get symbol (valueMap st)).

Definition buyNote (change : AllocationChange) : string :=
  ("Simulated buying " ++ currency (ch_amount change) ++ " "
   ++ show_number (amount (ch_amount change)) ++ " of "
   ++ ch_symbol change)%string.

Definition clampNote (change : AllocationChange) (currentValue : Q) : string :=
  ("Warning: Selling " ++ currency (ch_amount change) ++ " "
   ++ show_number (amount (ch_amount change)) ++ " of " ++ ch_symbol change
   ++ " exceeds current value (" ++ toFixed2 currentValue
   ++ "). Clamped to 0.")%string.

(** One iteration of [for (const change of changes)]. *)
Definition applyChange (st : LoopState) (change : AllocationChange)
  : LoopState :=
  let changeAmount := amount (ch_amount change) in
  let currentValue := currentValueOf (ch_symbol change) st in
  if String.eqb (ch_type change) "buy" then
    {| valueMap :=
         JsMap.set (ch_symbol change) (Big.plus currentValue changeAmount)
           (valueMap st);
       newTotal := Big.plus (newTotal st) changeAmount;
       loopNotes := loopNotes st ++ [buyNote change] |}
  else if String.eqb (ch_type change) "sell" then
    let newValue := Big.minus currentValue changeAmount in
    if Big.lt newValue 0 then
      {| valueMap := JsMap.set (ch_symbol change) 0%Q (valueMap st);
         newTotal := Big.minus (newTotal st) currentValue;
         loopNotes := loopNotes st ++ [clampNote change currentValue] |}
    else
      {| valueMap := JsMap.set (ch_symbol change) newValue (valueMap st);
         newTotal := Big.minus (newTotal st) changeAmount;
         loopNotes := loopNotes st |}
  else st.

Definition applyChanges (st : LoopState) (changes : list AllocationChange)
  : LoopState :=
  fold_left applyChange changes st.

Definition initialState (positions : list PortfolioPosition) : LoopState :=
  let m := buildValueMap positions in
  {| valueMap := m; newTotal := sumValues m; loopNotes := [] |}.

(** The body of [for (const [symbol, value] of valueMap.entries())]. *)
Definition allocationRows (baseCurrency : string) (total : Q)
  (m : JsMap.t Q) : list AllocationRow :=
  flat_map
    (fun entry : string * Q =>
       let '(symbol, val) := entry in
       if Big.gt val 0 then
         [{| key := symbol;
             value := {| currency := baseCurrency; amount := val |};
             percent :=
               if Big.gt total 0
               then round2 (Big.times (Big.div val total) 100)
               else 0%Q |}]
       else [])
    m.

(** [rows.sort((a, b) => b.percent - a.percent)]: a stable sort, so rows of
    equal percent keep their order. *)
Fixpoint insertDesc (x : AllocationRow) (rows : list AllocationRow)
  : list AllocationRow :=
  match rows with
  | [] => [x]
  | y :: rest =>
      if Qle_bool (percent y) (percent x) then x :: rows
      else y :: insertDesc x rest
  end.

Definition sortDesc (rows : list AllocationRow) : list AllocationRow :=
  fold_right insertDesc [] rows.

(** [execute] after [getDetails] has returned [positions]. *)
Definition simulate (now : IsoDate) (baseCurrency : string)
  (positions : list PortfolioPosition) (changes : list AllocationChange)
  : SimulateAllocationResult :=
  let st0 := initialState positions in
  let originalTotal := newTotal st0 in
  let st := applyChanges st0 changes in
  let rows := sortDesc (allocationRows baseCurrency (newTotal st) (valueMap st)) in
  let isPriceDataMissing :=
    existsb (fun pos => zero_or_null (pos_marketPrice pos)) positions in
  let method := if isPriceDataMissing then cost_basis else market in
  {| sr_accountId := "default";
     sr_timeframe := {| tf_start := ""; tf_end := now |};
     sr_valuationMethod := method;
     sr_asOf := if ValuationMethod_eqb method market then Some now else None;
     originalTotalValue := {| currency := baseCurrency;
                              amount := originalTotal |};
     newTotalValue := {| currency := baseCurrency; amount := newTotal st |};
     newAllocationBySymbol := rows;
     notes := loopNotes st |}.

Variable W : Type.
Variable getDetails :
  option string -> string -> W -> Outcome PortfolioDetails * W.
Variable today : W -> IsoDate.

Definition execute (changes : list AllocationChange) (context : ToolContext)
  (w : W) : Outcome SimulateAllocationResult * W :=
  match getDetails (impersonationId context) (userId context) w with
  | (Returned details, w') =>
      (Returned (simulate (today w') (baseCurrency context)
                   (details_holdings details) changes), w')
  | (Threw e, w') => (Threw e, w')
  end.

End Simulate.

End SimulateAllocationChangeTool.

(** ** Regular expressions, as far as the verifier's patterns need them *)

Module Regex.

(** Literal text, sequence, alternation [a|b] and the optional [a?]; every
    pattern of the verifier carries the flag [i]. *)
Inductive regex : Type :=
| Lit (text : string)
| Seq (a b : regex)
| Alt (a b : regex)
| Opt (a : regex).

(** Consumes [text] at the start of [s], letters compared without case. *)
Fixpoint eat (text s : string) : option string :=
  match text, s with
  | EmptyString, _ => Some s
  | String c text', String d s' =>
      if Ascii.eqb (JsString.lower_ascii c) (JsString.lower_ascii d)
      then eat text' s' else None
  | String _ _, EmptyString => None
  end.

(** Backtracking match of [r] at the start of [s]; [k] receives what is
    left. *)
Fixpoint matchAt (r : regex) (s : string) (k : string -> bool) : bool :=
  match r with
  | Lit text => match eat text s with Some rest => k rest | None => false end
  | Seq a b => matchAt a s (fun rest => matchAt b rest k)
  | Alt a b => matchAt a s k || matchAt b s k
  | Opt a => matchAt a s k || k s
  end.

(** [pattern.test(s)]: the pattern is not anchored, so every start position
    is tried. *)
Fixpoint test (r : regex) (s : string) : bool :=
  matchAt r s (fun _ => true)
  || match s with
     | EmptyString => false
     | String _ s' => test r s'
     end.

Fixpoint oneOf (texts : list string) : regex :=
  match texts with
  | [] => Lit EmptyString
  | [t] => Lit t
  | t :: rest => Alt (Lit t) (oneOf rest)
  end.

End Regex.

(** ** What a tool returns ([unknown] in [Map<string, unknown>])

    The results of the three portfolio tools, any other value that JSON
    can encode (given by its JSON text), and a value that [JSON.stringify]
    rejects (one that holds a [BigInt] or refers to itself), given by the
    message of the [TypeError] it raises. *)

Inductive ToolResult : Type :=
| SnapshotResult (r : PortfolioSnapshotResult)
| PerformanceOutput (r : PerformanceResult)
| SimulateOutput (r : SimulateAllocationResult)
| OtherResult (json : string)
| Unencodable (why : string).

(** Reads of the fields of [toolResults.get('getPortfolioSnapshot')] through
    the cast to [PortfolioSnapshotResult]: a field the object lacks reads
    [undefined]. *)
Module Cast.

Definition allocationBySymbol (r : ToolResult) : option (list AllocationRow) :=
  match r with SnapshotResult s => Some (allocationBySymbol s) | _ => None end.

Definition allocationByAssetClass (r : ToolResult)
  : option (list AllocationRow) :=
  match r with
  | SnapshotResult s => Some (allocationByAssetClass s)
  | _ => None
  end.

Definition isPriceDataMissing (r : ToolResult) : option bool :=
  match r with SnapshotResult s => Some (isPriceDataMissing s) | _ => None end.

Definition holdingsLength (r : ToolResult) : option nat :=
  match r with
  | SnapshotResult s => Some (List.length (holdings s))
  | _ => None
  end.

Definition totalValue (r : ToolResult) : option Money :=
  match r with SnapshotResult s => Some (totalValue s) | _ => None end.

Definition valuationMethod (r : ToolResult) : option ValuationMethod :=
  match r with
  | SnapshotResult s => Some (valuationMethod s)
  | PerformanceOutput p => Some (pr_valuationMethod p)
  | SimulateOutput s => Some (sr_valuationMethod s)
  | OtherResult _ | Unencodable _ => None
  end.

Definition asOf (r : ToolResult) : option IsoDate :=
  match r with
  | SnapshotResult s => asOf s
  | PerformanceOutput p => pr_asOf p
  | SimulateOutput s => sr_asOf s
  | OtherResult _ | Unencodable _ => None
  end.

End Cast.

(** ** agent.verifier.ts *)

Module Verifier.

Import Regex.

Definition ALLOCATION_SUM_TOLERANCE : Q := 1.

Definition FORBIDDEN_ADVICE_PATTERNS : list regex :=
  [ Seq (Lit "you should ") (oneOf ["buy"; "sell"; "invest in"; "divest from"]);
    Seq (Lit "I recommend ")
        (oneOf ["buying"; "selling"; "investing"; "purchasing"]);
    Seq (Lit "you must ") (oneOf ["buy"; "sell"; "invest"]);
    Seq (Lit "guaranteed ")
        (Alt (Seq (Lit "return") (Opt (Lit "s")))
             (Alt (Seq (Lit "profit") (Opt (Lit "s")))
                  (Seq (Lit "gain") (Opt (Lit "s")))));
    Seq (Lit "I ")
        (Seq (oneOf ["advise"; "suggest"])
             (Seq (Lit " ")
                  (Seq (Opt (Lit "you ")) (oneOf ["buy"; "sell"; "purchase"]))));
    Lit "allocate exactly" ].

(** The answer matches one of the advice-boundary patterns. *)
Definition matchesAdvice (text : string) : bool :=
  existsb (fun pattern => test pattern text) FORBIDDEN_ADVICE_PATTERNS.

Definition VALUATION_KEYWORDS : list string :=
  [ "cost basis"; "cost-basis"; "costbasis";
    "price data isn't available"; "price data is not available";
    "market price data is missing"; "based on cost" ].

Record VerificationResult := {
  v_warnings : list string;
  confidenceAdjustment : Q
}.

Definition ADVICE_WARNING : string :=
  "Response may contain financial advice language. The agent should provide educational analysis only, not specific buy/sell recommendations.".

Definition VALUATION_WARNING : string :=
  "Price data is missing for some holdings, but the response does not mention that values are based on cost basis. Users should be informed when market prices are unavailable.".

(** The loop of [checkAdviceBoundary] over the patterns still to try; the
    [break] ends it at the first pattern that matches. *)
Fixpoint adviceLoop (patterns : list regex) (answer : string)
  (acc : VerificationResult) : VerificationResult :=
  match patterns with
  | [] => acc
  | pattern :: rest =>
      if test pattern answer then
        {| v_warnings := v_warnings acc ++ [ADVICE_WARNING];
           confidenceAdjustment := (confidenceAdjustment acc + (2 # 10))%Q |}
      else adviceLoop rest answer acc
  end.

Definition checkAdviceBoundary (answer : string) : VerificationResult :=
  adviceLoop FORBIDDEN_ADVICE_PATTERNS answer
    {| v_warnings := []; confidenceAdjustment := 0 |}.

Section Checks.

(** [toFixed(2)] of a Big or of a number, as text. *)
Variable toFixed2 : Q -> string.

Definition checkAllocationSum (allocations : list AllocationRow)
  : VerificationResult :=
  match allocations with
  | [] => {| v_warnings := []; confidenceAdjustment := 0 |}
  | _ =>
      let sum :=
        fold_left (fun acc row => Big.plus acc (percent row)) allocations 0%Q in
      let diff := Qabs (Big.minus sum 100) in
      if negb (Qle_bool diff ALLOCATION_SUM_TOLERANCE) then
        {| v_warnings :=
             [("Allocation percentages sum to " ++ toFixed2 sum
               ++ "%, which deviates from 100% by " ++ toFixed2 diff
               ++ "%. This may indicate a calculation error.")%string];
           confidenceAdjustment := (0 + (1 # 10))%Q |}
      else {| v_warnings := []; confidenceAdjustment := 0 |}
  end.

Definition checkValuationLabel (answer : string) : VerificationResult :=
  let mentionsCostBasis :=
    existsb
      (fun keyword =>
         JsString.includes (JsString.toLowerCase keyword)
           (JsString.toLowerCase answer))
      VALUATION_KEYWORDS in
  if negb mentionsCostBasis then
    {| v_warnings := [VALUATION_WARNING];
       confidenceAdjustment := (0 + (1 # 10))%Q |}
  else {| v_warnings := []; confidenceAdjustment := 0 |}.

(** [warnings.push(...r.warnings); confidenceAdjustment += r.confidenceAdjustment] *)
Definition accumulate (acc r : VerificationResult) : VerificationResult :=
  {| v_warnings := v_warnings acc ++ v_warnings r;
     confidenceAdjustment :=
       (confidenceAdjustment acc + confidenceAdjustment r)%Q |}.

Definition verifyAgentResponse (answer : string)
  (toolResults : JsMap.t ToolResult) : VerificationResult :=
  let acc0 := {| v_warnings := []; confidenceAdjustment := 0 |} in
  let acc1 := accumulate acc0 (checkAdviceBoundary answer) in
  let snapshotResult := JsMap.get "getPortfolioSnapshot" toolResults in
  let acc2 :=
    match option_map Cast.allocationBySymbol snapshotResult with
    | Some (Some allocations) =>
        accumulate acc1 (checkAllocationSum allocations)
    | _ => acc1
    end in
  match option_map Cast.isPriceDataMissing snapshotResult with
  | Some (Some true) => accumulate acc2 (checkValuationLabel answer)
  | _ => acc2
  end.

End Checks.

(** [toolsSucceeded] and [toolsFailed] are counters. *)
Definition computeConfidence (hasErrors isPriceDataMissing : bool)
  (toolsSucceeded toolsFailed : Z) (hasHoldings : bool) : Q :=
  if (0 <? toolsFailed)%Z && (toolsSucceeded =? 0)%Z then 1 # 10
  else if negb hasHoldings then 4 # 10
  else if (0 <? toolsFailed)%Z then 4 # 10
  else if isPriceDataMissing || hasErrors then 7 # 10
  else 1.

End Verifier.

(** ** agent.config.ts and agent.service.ts: the orchestrator *)

Record AgentConfig := {
  anthropicApiKey : string;
  anthropicModel : string;
  maxTokens : Z;
  temperature : Q;
  enableExternalMarketData : bool
}.

Record UserContext := {
  uc_userId : string;
  uc_baseCurrency : string;
  uc_language : string;
  uc_impersonationId : option string
}.

Module AgentService.

Section Chat.

(** The world outside the orchestrator (clock, LLM provider, portfolio
    data), and the JSON value a tool receives as input. *)
Variable W : Type.
Variable Input : Type.

Record ToolUseBlock := {
  tu_id : string;
  tu_name : string;
  tu_input : Input
}.

Inductive ContentBlock : Type :=
| TextBlock (text : string)
| ToolUse (block : ToolUseBlock)
| OtherBlock (type : string).

Record ToolResultBlockParam := {
  tool_use_id : string;
  content : string;
  is_error : bool
}.

Inductive MessageContent : Type :=
| TextContent (text : string)
| BlocksContent (blocks : list ContentBlock)
| ToolResultsContent (blocks : list ToolResultBlockParam).

Record MessageParam := { role : string; msg_content : MessageContent }.

Record LlmRequest := {
  rq_model : string;
  rq_max_tokens : Z;
  rq_temperature : Q;
  rq_system : string;
  rq_messages : list MessageParam;
  rq_tools : list AgentToolDefinition
}.

(** [execute(input, context)] of a registered tool: it returns or throws. *)
Definition Executor : Type :=
  Input -> ToolContext -> W -> Outcome ToolResult * W.

(** [Date.now()], [new Date().toISOString().split('T')[0]], the prompt
    template of agent.prompt.ts, [client.messages.create] and
    [JSON.stringify] on a tool result, which throws on a value it cannot
    encode, and on [{ error: text }], which does not. The input of a tool
    comes out of the JSON of the LLM response, so that [JSON.stringify] of
    it in the log line does not throw; the logger is left out. Every
    thrown value is taken to have a string conversion ([String(error)]
    does not throw in its turn). *)
Variable Date_now : W -> Z * W.
Variable today : W -> IsoDate.
Variable buildSystemPrompt : string -> string -> string -> string.
Variable messages_create : LlmRequest -> W -> Outcome (list ContentBlock) * W.
Variable stringify_result : ToolResult -> Outcome string.
Variable stringify_error : string -> string.
Variable toFixed2 : Q -> string.

Variable agentConfig : AgentConfig.
Variable toolRegistry : ToolRegistry Executor.

(** The variables of one turn that the tool loop updates, with the log of
    the executors it has invoked. *)
Record TurnState := {
  st_toolTrace : list ToolTraceRow;
  st_toolResults : JsMap.t ToolResult;
  st_toolsSucceeded : Z;
  st_toolsFailed : Z;
  st_toolResultBlocks : list ToolResultBlockParam;
  st_executed : list ToolUseBlock
}.

Definition initialTurn : TurnState :=
  {| st_toolTrace := [];
     st_toolResults := JsMap.empty;
     st_toolsSucceeded := 0;
     st_toolsFailed := 0;
     st_toolResultBlocks := [];
     st_executed := [] |}.

Definition unknownToolMessage (nm : string) : string :=
  ("Unknown or disabled tool: " ++ nm)%string.

(** The branch [if (!executor)] of the loop body. *)
Definition recordUnknown (toolUse : ToolUseBlock) (startMs : Z)
  (st : TurnState) (w : W) : TurnState * W :=
  let errorMsg := unknownToolMessage (tu_name toolUse) in
  let '(endMs, w1) := Date_now w in
  ({| st_toolTrace :=
        st_toolTrace st ++
        [{| tool := tu_name toolUse; ok := false;
            ms := endMs - startMs; error := Some errorMsg |}];
      st_toolResults := st_toolResults st;
      st_toolsSucceeded := st_toolsSucceeded st;
      st_toolsFailed := st_toolsFailed st + 1;
      st_toolResultBlocks :=
        st_toolResultBlocks st ++
        [{| tool_use_id := tu_id toolUse;
            content := stringify_error errorMsg;
            is_error := true |}];
      st_executed := st_executed st |}, w1).

(** The [catch (error)] block of the loop body. *)
Definition recordFailure (toolUse : ToolUseBlock) (startMs : Z)
  (e : Thrown) (st : TurnState) (w : W) : TurnState * W :=
  let errorMsg := error_text e in
  let '(endMs, w1) := Date_now w in
  ({| st_toolTrace :=
        st_toolTrace st ++
        [{| tool := tu_name toolUse; ok := false;
            ms := endMs - startMs; error := Some errorMsg |}];
      st_toolResults := st_toolResults st;
      st_toolsSucceeded := st_toolsSucceeded st;
      st_toolsFailed := st_toolsFailed st + 1;
      st_toolResultBlocks :=
        st_toolResultBlocks st ++
        [{| tool_use_id := tu_id toolUse;
            content :=
              stringify_error ("Tool execution failed: " ++ errorMsg)%string;
            is_error := true |}];
      st_executed := st_executed st |}, w1).

(** The [try] block after a successful [execute]: the result is stored,
    counted and traced before it is serialised for the LLM; when
    [JSON.stringify(result)] throws, the [catch] block runs after them. *)
Definition recordSuccess (toolUse : ToolUseBlock) (startMs : Z)
  (result : ToolResult) (st : TurnState) (w : W) : TurnState * W :=
  let '(endMs, w1) := Date_now w in
  let traced :=
    {| st_toolTrace :=
         st_toolTrace st ++
         [{| tool := tu_name toolUse; ok := true;
             ms := endMs - startMs; error := None |}];
       st_toolResults :=
         JsMap.set (tu_name toolUse) result (st_toolResults st);
       st_toolsSucceeded := st_toolsSucceeded st + 1;
       st_toolsFailed := st_toolsFailed st;
       st_toolResultBlocks := st_toolResultBlocks st;
       st_executed := st_executed st |} in
  match stringify_result result with
  | Returned text =>
      ({| st_toolTrace := st_toolTrace traced;
          st_toolResults := st_toolResults traced;
          st_toolsSucceeded := st_toolsSucceeded traced;
          st_toolsFailed := st_toolsFailed traced;
          st_toolResultBlocks :=
            st_toolResultBlocks traced ++
            [{| tool_use_id := tu_id toolUse;
                content := text;
                is_error := false |}];
          st_executed := st_executed traced |}, w1)
  | Threw e => recordFailure toolUse startMs e traced w1
  end.

(** The log of the executors that were invoked. *)
Definition invoked (toolUse : ToolUseBlock) (st : TurnState) : TurnState :=
  {| st_toolTrace := st_toolTrace st;
     st_toolResults := st_toolResults st;
     st_toolsSucceeded := st_toolsSucceeded st;
     st_toolsFailed := st_toolsFailed st;
     st_toolResultBlocks := st_toolResultBlocks st;
     st_executed := st_executed st ++ [toolUse] |}.

(** One iteration of [for (const toolUse of toolUseBlocks)]. *)
Definition runTool (toolContext : ToolContext) (acc : TurnState * W)
  (toolUse : ToolUseBlock) : TurnState * W :=
  let '(st, w) := acc in
  let '(startMs, w1) := Date_now w in
  match getExecutor (tu_name toolUse) toolRegistry with
  | None => recordUnknown toolUse startMs st w1
  | Some exec =>
      match exec (tu_input toolUse) toolContext w1 with
      | (Returned result, w2) =>
          recordSuccess toolUse startMs result (invoked toolUse st) w2
      | (Threw e, w2) =>
          recordFailure toolUse startMs e (invoked toolUse st) w2
      end
  end.

Definition runTools (toolContext : ToolContext)
  (toolUseBlocks : list ToolUseBlock) (st : TurnState) (w : W)
  : TurnState * W :=
  fold_left (runTool toolContext) toolUseBlocks (st, w).

(** [content.filter((block) => block.type === 'tool_use')] *)
Fixpoint toolUses (blocks : list ContentBlock) : list ToolUseBlock :=
  match blocks with
  | [] => []
  | ToolUse b :: rest => b :: toolUses rest
  | _ :: rest => toolUses rest
  end.

Fixpoint texts (blocks : list ContentBlock) : list string :=
  match blocks with
  | [] => []
  | TextBlock t :: rest => t :: texts rest
  | _ :: rest => texts rest
  end.

Definition extractText (blocks : list ContentBlock) : string :=
  JsString.join JsString.LF (texts blocks).

Definition buildErrorResponse (msg : string) (trace : list ToolTraceRow)
  : AgentChatResponse :=
  {| answer := msg;
     data := {| d_valuationMethod := market; d_asOf := None;
                d_totalValue := None; d_allocationBySymbol := None;
                d_allocationByAssetClass := None |};
     toolTrace := trace;
     confidence := 1 # 10;
     warnings := [] |}.

Definition NOT_CONFIGURED : string :=
  "The portfolio analysis agent is not currently configured. Please set the ANTHROPIC_API_KEY environment variable.".

Definition failureAnswer (e : Thrown) : string :=
  ("I encountered an error while processing your request. Please try again. ("
   ++ error_text e ++ ")")%string.

Definition historyMessages (request : AgentChatRequest) : list MessageParam :=
  match conversationHistory request with
  | Some history =>
      map (fun m => {| role := hm_role m;
                       msg_content := TextContent (hm_content m) |}) history
  | None => []
  end.

Definition llmRequest (systemPrompt : string) (messages : list MessageParam)
  : LlmRequest :=
  {| rq_model := anthropicModel agentConfig;
     rq_max_tokens := maxTokens agentConfig;
     rq_temperature := temperature agentConfig;
     rq_system := systemPrompt;
     rq_messages := messages;
     rq_tools := getDefinitions toolRegistry |}.

(** The direct answer: LLM call #1 asked for no tool. *)
Definition directResponse (textContent : string) : AgentChatResponse :=
  let verification :=
    Verifier.verifyAgentResponse toFixed2 textContent JsMap.empty in
  {| answer := textContent;
     data := {| d_valuationMethod := market; d_asOf := None;
                d_totalValue := None; d_allocationBySymbol := None;
                d_allocationByAssetClass := None |};
     toolTrace := [];
     confidence := Verifier.computeConfidence false false 0 0 true;
     warnings := Verifier.v_warnings verification |}.

(** The base confidence of the tool path, before the verifier's penalty. *)
Definition baseConfidence (st : TurnState) : Q :=
  let snapshotResult := JsMap.get "getPortfolioSnapshot" (st_toolResults st) in
  let isPriceDataMissing :=
    match option_map Cast.isPriceDataMissing snapshotResult with
    | Some (Some b) => b
    | _ => false
    end in
  let hasHoldings :=
    match option_map Cast.holdingsLength snapshotResult with
    | Some (Some n) => (0 <? n)%nat
    | _ => false
    end in
  let hasErrors :=
    match snapshotResult with
    | Some _ => false
    | None => (0 <? st_toolsFailed st)%Z
    end in
  Verifier.computeConfidence hasErrors isPriceDataMissing
    (st_toolsSucceeded st) (st_toolsFailed st) hasHoldings.

(** The response assembled after LLM call #2. *)
Definition toolResponse (finalAnswer : string) (st : TurnState)
  : AgentChatResponse :=
  let verification :=
    Verifier.verifyAgentResponse toFixed2 finalAnswer (st_toolResults st) in
  let snapshotResult := JsMap.get "getPortfolioSnapshot" (st_toolResults st) in
  let read {A : Type} (f : ToolResult -> option A) : option A :=
    match snapshotResult with Some r => f r | None => None end in
  let finalConfidence :=
    Math_max0 (baseConfidence st - Verifier.confidenceAdjustment verification) in
  {| answer := finalAnswer;
     data := {| d_valuationMethod :=
                  match read Cast.valuationMethod with
                  | Some m => m
                  | None => market
                  end;
                d_asOf := read Cast.asOf;
                d_totalValue := read Cast.totalValue;
                d_allocationBySymbol := read Cast.allocationBySymbol;
                d_allocationByAssetClass := read Cast.allocationByAssetClass |};
     toolTrace := st_toolTrace st;
     confidence := finalConfidence;
     warnings := Verifier.v_warnings verification |}.

(** What one call of [chat] leaves behind: the response, the executors that
    were invoked, and the world. *)
Record Turn := {
  response : AgentChatResponse;
  executed : list ToolUseBlock;
  world : W
}.

Definition toolContextOf (userContext : UserContext) : ToolContext :=
  {| userId := uc_userId userContext;
     baseCurrency := uc_baseCurrency userContext;
     impersonationId := uc_impersonationId userContext |}.

Definition systemPromptOf (userContext : UserContext) (w : W) : string :=
  buildSystemPrompt (uc_baseCurrency userContext) (uc_language userContext)
    (today w).

(** The message list of LLM call #1: the history, then the new message. *)
Definition call1Messages (request : AgentChatRequest) : list MessageParam :=
  historyMessages request ++
  [{| role := "user"; msg_content := TextContent (message request) |}].

(** The message list of LLM call #2: the assistant's tool requests and one
    user turn with all tool results are added. *)
Definition call2Messages (request : AgentChatRequest)
  (call1Content : list ContentBlock) (st : TurnState) : list MessageParam :=
  call1Messages request ++
  [{| role := "assistant"; msg_content := BlocksContent call1Content |};
   {| role := "user";
      msg_content := ToolResultsContent (st_toolResultBlocks st) |}].

Definition chat (request : AgentChatRequest) (userContext : UserContext)
  (w : W) : Turn :=
  if negb (JsString.truthy (anthropicApiKey agentConfig)) then
    {| response := buildErrorResponse NOT_CONFIGURED [];
       executed := []; world := w |}
  else
    let systemPrompt := systemPromptOf userContext w in
    match messages_create
            (llmRequest systemPrompt (call1Messages request)) w with
    | (Threw e, w1) =>
        {| response := buildErrorResponse (failureAnswer e) [];
           executed := []; world := w1 |}
    | (Returned call1Content, w1) =>
        match toolUses call1Content with
        | [] =>
            {| response := directResponse (extractText call1Content);
               executed := []; world := w1 |}
        | toolUseBlocks =>
            let '(st, w2) :=
              runTools (toolContextOf userContext) toolUseBlocks
                initialTurn w1 in
            match messages_create
                    (llmRequest systemPrompt
                       (call2Messages request call1Content st)) w2 with
            | (Threw e, w3) =>
                {| response :=
                     buildErrorResponse (failureAnswer e) (st_toolTrace st);
                   executed := st_executed st; world := w3 |}
            | (Returned call2Content, w3) =>
                {| response := toolResponse (extractText call2Content) st;
                   executed := st_executed st; world := w3 |}
            end
        end
    end.

(** *** The tool trace in the words of the specification *)

(** The message a thrown value carries: the message of an [Error], and
    the text of any other value. *)
Inductive Carries : Thrown -> string -> Prop :=
| CarriesMessage (m : string) : Carries (ErrorObject m) m
| CarriesNull : Carries ThrownNull "null"
| CarriesUndefined : Carries ThrownUndefined "undefined"
| CarriesText (shown : string) (message : option string) :
    Carries (OtherValue shown message) shown.

(** [TraceOf ctx w requests rows w']: starting in world [w], the requested
    tools are taken one after the other; each gives exactly one row, and
    whatever its outcome the next one is taken. An unknown or disabled
    tool gives a failed row and no executor runs; an executor that throws
    gives a failed row with the message of the error; an executor that
    returns gives a successful row. *)
Inductive TraceOf (toolContext : ToolContext)
  : W -> list ToolUseBlock -> list ToolTraceRow -> W -> Prop :=
| TraceDone (w : W) : TraceOf toolContext w [] [] w
| TraceUnknown (w w0 w1 w' : W) (t0 t1 : Z) (toolUse : ToolUseBlock)
    (rest : list ToolUseBlock) (rows : list ToolTraceRow) :
    Date_now w = (t0, w0) ->
    getExecutor (tu_name toolUse) toolRegistry = None ->
    Date_now w0 = (t1, w1) ->
    TraceOf toolContext w1 rest rows w' ->
    TraceOf toolContext w (toolUse :: rest)
      ({| tool := tu_name toolUse; ok := false; ms := t1 - t0;
          error := Some ("Unknown or disabled tool: " ++ tu_name toolUse)%string |}
       :: rows) w'
| TraceThrown (w w0 w1 w2 w' : W) (t0 t1 : Z) (toolUse : ToolUseBlock)
    (exec : Executor) (e : Thrown) (text : string)
    (rest : list ToolUseBlock) (rows : list ToolTraceRow) :
    Date_now w = (t0, w0) ->
    getExecutor (tu_name toolUse) toolRegistry = Some exec ->
    exec (tu_input toolUse) toolContext w0 = (Threw e, w1) ->
    Carries e text ->
    Date_now w1 = (t1, w2) ->
    TraceOf toolContext w2 rest rows w' ->
    TraceOf toolContext w (toolUse :: rest)
      ({| tool := tu_name toolUse; ok := false; ms := t1 - t0;
          error := Some text |} :: rows) w'
| TraceReturned (w w0 w1 w2 w' : W) (t0 t1 : Z) (toolUse : ToolUseBlock)
    (exec : Executor) (result : ToolResult)
    (rest : list ToolUseBlock) (rows : list ToolTraceRow) :
    Date_now w = (t0, w0) ->
    getExecutor (tu_name toolUse) toolRegistry = Some exec ->
    exec (tu_input toolUse) toolContext w0 = (Returned result, w1) ->
    Date_now w1 = (t1, w2) ->
    TraceOf toolContext w2 rest rows w' ->
    TraceOf toolContext w (toolUse :: rest)
      ({| tool := tu_name toolUse; ok := true; ms := t1 - t0;
          error := None |} :: rows) w'.

(** Whatever an enabled tool of the registry returns can be serialised
    for the LLM. *)
Definition serialisable : Prop :=
  forall (nm : string) (exec : Executor) (input : Input)
         (toolContext : ToolContext) (w w' : W) (result : ToolResult),
    getExecutor nm toolRegistry = Some exec ->
    exec input toolContext w = (Returned result, w') ->
    exists text, stringify_result result = Returned text.

(** The requests for which the registry has an enabled executor. *)
Definition dispatched (toolUseBlocks : list ToolUseBlock)
  : list ToolUseBlock :=
  filter
    (fun toolUse =>
       match getExecutor (tu_name toolUse) toolRegistry with
       | Some _ => true
       | None => false
       end)
    toolUseBlocks.

(** What a row must say of the request it answers: the name of the tool;
    a failed row with the fixed error text when the tool is unknown or
    disabled; and an error text exactly on the failed rows. *)
Definition rowAnswers (toolUse : ToolUseBlock) (row : ToolTraceRow) : Prop :=
  tool row = tu_name toolUse
  /\ (getExecutor (tu_name toolUse) toolRegistry = None ->
      ok row = false
      /\ error row
         = Some ("Unknown or disabled tool: " ++ tu_name toolUse)%string)
  /\ (ok row = true <-> error row = None).

(** [Answered requests rows blocks]: the rows and the result blocks that
    answer the requests, in their order. A request has one block, with
    its id, and one row, with the name of its tool, the block marked as
    an error exactly when the row failed; or it has one block marked as
    an error and two rows, a successful one followed by a failed one. *)
Inductive Answered
  : list ToolUseBlock -> list ToolTraceRow -> list ToolResultBlockParam
    -> Prop :=
| AnsweredNone : Answered [] [] []
| AnsweredOnce (toolUse : ToolUseBlock) (row : ToolTraceRow)
    (block : ToolResultBlockParam) (rest : list ToolUseBlock)
    (rows : list ToolTraceRow) (blocks : list ToolResultBlockParam) :
    tool row = tu_name toolUse ->
    tool_use_id block = tu_id toolUse ->
    is_error block = negb (ok row) ->
    Answered rest rows blocks ->
    Answered (toolUse :: rest) (row :: rows) (block :: blocks)
| AnsweredTwice (toolUse : ToolUseBlock) (first second : ToolTraceRow)
    (block : ToolResultBlockParam) (rest : list ToolUseBlock)
    (rows : list ToolTraceRow) (blocks : list ToolResultBlockParam) :
    tool first = tu_name toolUse ->
    tool second = tu_name toolUse ->
    ok first = true ->
    ok second = false ->
    tool_use_id block = tu_id toolUse ->
    is_error block = true ->
    Answered rest rows blocks ->
    Answered (toolUse :: rest) (first :: second :: rows) (block :: blocks).

End Chat.

Arguments TextBlock {Input} text.
Arguments ToolUse {Input} block.
Arguments OtherBlock {Input} type.
Arguments TextContent {Input} text.
Arguments BlocksContent {Input} blocks.
Arguments ToolResultsContent {Input} blocks.
Arguments tu_id {Input} _.
Arguments tu_name {Input} _.
Arguments tu_input {Input} _.
Arguments rq_messages {Input} _.
Arguments msg_content {Input} _.
Arguments response {W Input} _.
Arguments executed {W Input} _.
Arguments world {W Input} _.
Arguments st_toolTrace {Input} _.
Arguments st_toolResults {Input} _.
Arguments st_toolsSucceeded {Input} _.
Arguments st_toolsFailed {Input} _.
Arguments st_toolResultBlocks {Input} _.
Arguments st_executed {Input} _.

End AgentService.

(** ** endpoints/agent/agent.service.ts: the SSE proxy *)

Module AgentProxy.

Import JsString.

(** [bearerToken.startsWith('Bearer ') ? bearerToken : `Bearer ${bearerToken}`] *)
Definition authorization (bearerToken : string) : string :=
  if startsWith "Bearer " bearerToken then bearerToken
  else ("Bearer " ++ bearerToken)%string.

(** A separator found at [i] leaves at least two characters behind it. *)
Lemma indexOf_LFLF_bound (s : string) (i : nat) :
  indexOf LFLF s = Some i -> (i + 2 <= String.length s)%nat.
Proof.
  revert i. induction s as [| c s IH]; intros i H.
  - discriminate H.
  - cbn [indexOf] in H.
    destruct (startsWith LFLF (String c s)) eqn:P.
    + injection H as <-.
      destruct s as [| d s]; cbn in *; [| lia].
      rewrite andb_false_r in P. discriminate P.
    + destruct (indexOf LFLF s) as [j |]; [| discriminate H].
      injection H as <-. specialize (IH j eq_refl). cbn. lia.
Qed.

Lemma slice_from_length (n : nat) (s : string) :
  (n <= String.length s)%nat ->
  String.length (slice_from n s) = (String.length s - n)%nat.
Proof.
  revert s. induction n as [| n IH]; intros [| c s] H; cbn in *; try lia.
  apply IH. lia.
Qed.

Section Events.

(** The decoded event ([Record<string, unknown>]) and [JSON.parse], which
    throws on malformed text ([None]). *)
Variable J : Type.
Variable JSON_parse : string -> option J.

(** What the generator yields: a decoded upstream event, or an error event
    [{ type: 'error', message }] of its own. *)
Inductive AgentEvent : Type :=
| Decoded (event : J)
| ErrorEvent (message : string).

(** The payload of one raw event: its [data:] lines, each cut after the
    field name and trimmed, joined by a line feed. *)
Definition dataPayload (rawEvent : string) : string :=
  join LF
    (map (fun line => trim (slice_from 5 line))
       (filter (startsWith "data:") (split_char (ascii_of_nat 10) rawEvent))).

(** The [if (dataPayload)] block: at most one event is yielded, and a
    payload that does not parse is skipped. *)
Definition emit (rawEvent : string) : list AgentEvent :=
  let payload := dataPayload rawEvent in
  if truthy payload then
    match JSON_parse payload with
    | Some parsed => [Decoded parsed]
    | None => []
    end
  else [].

(** The inner loop [while (separatorIndex >= 0)]: the events it yields and
    the buffer it leaves. *)
Equations? drain (buffer : string) : list AgentEvent * string
  by wf (String.length buffer) lt :=
  drain buffer with inspect (indexOf LFLF buffer) := {
    | exist _ (Some separatorIndex) found =>
        let rawEvent := slice_to separatorIndex buffer in
        let '(later, tail) := drain (slice_from (separatorIndex + 2) buffer) in
        (emit rawEvent ++ later, tail)
    | exist _ None _ => ([], buffer) }.
Proof.
  pose proof (indexOf_LFLF_bound _ _ found) as B.
  rewrite slice_from_length; lia.
Qed.

(** One result of [reader.read()] that carries a value: the decoded text of
    the chunk, and [signal?.aborted] as the loop reads it next. *)
Record Chunk := { chunk_text : string; aborted : bool }.

(** The outer loop [while (true)]; the list ends where [read()] reports
    [done]. *)
Fixpoint readLoop (reads : list Chunk) (buffer : string) : list AgentEvent :=
  match reads with
  | [] => []
  | c :: rest =>
      if aborted c then []
      else
        let '(events, buffer') := drain (buffer ++ chunk_text c)%string in
        events ++ readLoop rest buffer'
  end.

(** The upstream response of [fetch]. *)
Inductive AgentResponse : Type :=
| NotOk (status : string) (text : string)
| NoBody
| Body (reads : list Chunk).

Definition proxyStreamToAgentEvents (baseUrl : string)
  (agentRes : AgentResponse) : list AgentEvent :=
  if negb (truthy baseUrl) then
    [ErrorEvent "Agent service is not configured (AGENT_SERVICE_URL)."]
  else
    match agentRes with
    | NotOk status text =>
        [ErrorEvent
           (if truthy text then text
            else ("Agent request failed (HTTP " ++ status ++ ")")%string)]
    | NoBody => [ErrorEvent "Streaming response was empty"]
    | Body reads => readLoop reads EmptyString
    end.

(** *** The framing in the words of the specification *)

(** The text cut at every double line feed, from the left: the complete
    frames, and the partial tail after the last boundary. *)
Fixpoint frames (text : string) : list string * string :=
  match text with
  | EmptyString => ([], EmptyString)
  | String a rest =>
      let continue :=
        let '(fs, tail) := frames rest in
        match fs with
        | [] => ([], String a tail)
        | f :: fs' => (String a f :: fs', tail)
        end in
      match rest with
      | String b rest' =>
          if Ascii.eqb a (ascii_of_nat 10) && Ascii.eqb b (ascii_of_nat 10)
          then let '(fs, tail) := frames rest' in (EmptyString :: fs, tail)
          else continue
      | EmptyString => continue
      end
  end.

(** Every complete frame of the text, decoded; a frame without payload or
    with a malformed one contributes nothing. *)
Definition decodedEvents (text : string) : list AgentEvent :=
  flat_map emit (fst (frames text)).

(** The text that has arrived before the first read that finds the signal
    aborted. *)
Fixpoint arrived (reads : list Chunk) : string :=
  match reads with
  | [] => EmptyString
  | c :: rest =>
      if aborted c then EmptyString
      else (chunk_text c ++ arrived rest)%string
  end.

End Events.

Arguments Decoded {J} event.
Arguments ErrorEvent {J} message.

End AgentProxy.

(** ** agent-websocket.ts: the WebSocket gateway *)

Module AgentWebSocket.

Import JsString.

Definition AGENT_WS_PATH : string := "/api/v1/agent/ws".

Definition UNAUTHORIZED : string :=
  ("HTTP/1.1 401 Unauthorized"
   ++ String (ascii_of_nat 13) LF ++ String (ascii_of_nat 13) LF)%string.

(** What the upgrade handler does to the raw socket. *)
Inductive SocketAction : Type :=
| SocketWrite (text : string)
| SocketDestroy
| HandleUpgrade (userId bearerToken : string).

(** [s] up to the first occurrence of the character [c]. *)
Fixpoint before (c : ascii) (s : string) : string :=
  match s with
  | EmptyString => EmptyString
  | String a s' => if Ascii.eqb a c then EmptyString else String a (before c s')
  end.

(** [s] after the first occurrence of [c]; [None] when there is none. *)
Fixpoint after (c : ascii) (s : string) : option string :=
  match s with
  | EmptyString => None
  | String a s' => if Ascii.eqb a c then Some s' else after c s'
  end.

(** The path of a request target: what stands before [?] and [#]. *)
Definition pathname (url : string) : string :=
  before "#"%char (before "?"%char url).

(** [searchParams.get(name)] for a query that uses no percent escape and no
    [+]: the value of the first pair [name=value]. *)
Definition queryParam (nm url : string) : option string :=
  match after "?"%char (before "#"%char url) with
  | None => None
  | Some query =>
      match filter (startsWith (nm ++ "=")%string) (split_char "&"%char query) with
      | field :: _ => Some (slice_from (String.length nm + 1) field)
      | [] => None
      end
  end.

Section Upgrade.

(** [new URL(url, `http://${request.headers.host ?? 'localhost'}`)
    .searchParams.get('token')], given [url] and the [Host] header:
    [new URL] throws a [TypeError] when the base does not parse (a
    malformed [Host]). And [jwtService.verify(raw)] followed by the read
    of [payload?.id]: the verification throws, or returns a payload with
    or without an id. *)
Variable tokenParam : string -> option string -> Outcome (option string).
Variable verify : string -> Outcome (option string).

(** [token.startsWith('Bearer ') ? token.slice(7) : token] *)
Definition rawToken (token : string) : string :=
  if startsWith "Bearer " token then slice_from 7 token else token.

(** [token.startsWith('Bearer ') ? token : `Bearer ${token}`] *)
Definition bearerOf (token : string) : string :=
  if startsWith "Bearer " token then token else ("Bearer " ++ token)%string.

(** [request.url ?? ''] *)
Definition requestUrl (url : option string) : string :=
  match url with Some u => u | None => EmptyString end.

(** The listener of the [upgrade] event; [url] is [request.url] and
    [host] is [request.headers.host]. [new URL] stands outside the [try]
    block: when it throws, the listener throws with it, before anything
    is written to the socket and without destroying it. *)
Definition onUpgrade (url host : option string)
  : Outcome (list SocketAction) :=
  let url := requestUrl url in
  if negb (startsWith AGENT_WS_PATH url) then Returned [SocketDestroy]
  else
    match tokenParam url host with
    | Threw e => Threw e
    | Returned None => Returned [SocketWrite UNAUTHORIZED; SocketDestroy]
    | Returned (Some token) =>
        if negb (truthy token)
        then Returned [SocketWrite UNAUTHORIZED; SocketDestroy]
        else
          match verify (rawToken token) with
          | Returned (Some id) =>
              if negb (truthy id)
              then Returned [SocketWrite UNAUTHORIZED; SocketDestroy]
              else Returned [HandleUpgrade id (bearerOf token)]
          | Returned None =>
              Returned [SocketWrite UNAUTHORIZED; SocketDestroy]
          | Threw _ => Returned [SocketWrite UNAUTHORIZED; SocketDestroy]
          end
    end.

(** What the listener has done to the socket: nothing, when it threw. *)
Definition actionsOf (result : Outcome (list SocketAction))
  : list SocketAction :=
  match result with Returned actions => actions | Threw _ => [] end.

(** A WebSocket connection is established exactly when the handler hands
    the socket to [wss.handleUpgrade]. *)
Definition established (actions : list SocketAction) : bool :=
  existsb (fun a => match a with HandleUpgrade _ _ => true | _ => false end)
    actions.

End Upgrade.

Section Forward.

Variable E : Type.
Variable stringify : E -> string.

(** The body of [for await (const event of ...)]: [isOpen i] is
    [ws.readyState === 1] as the [i]-th iteration reads it; the result is
    what [ws.send] has been given, in order. *)
Fixpoint forwardEvents (isOpen : nat -> bool) (i : nat) (events : list E)
  : list string :=
  match events with
  | [] => []
  | event :: rest =>
      if negb (isOpen i) then []
      else stringify event :: forwardEvents isOpen (S i) rest
  end.

End Forward.

End AgentWebSocket.

(** ** The specification's own wording, for comparison with the code *)

Module Spec.

(** The decision table of the confidence score: the rows in priority
    order, each a condition and the score it yields. *)
Definition confidenceRows (hasErrors isPriceDataMissing : bool)
  (toolsSucceeded toolsFailed : Z) (hasHoldings : bool) : list (bool * Q) :=
  [ ((0 <? toolsFailed)%Z && (toolsSucceeded =? 0)%Z, 1 # 10);
    (negb hasHoldings, 4 # 10);
    ((0 <? toolsFailed)%Z, 4 # 10);
    (isPriceDataMissing || hasErrors, 7 # 10);
    (true, 1%Q) ].

(** The score of the first row whose condition holds. *)
Definition firstRow (rows : list (bool * Q)) : option Q :=
  option_map snd (find fst rows).

(** A position is retained when its quantity or its value is positive. *)
Definition isRetained (pos : PortfolioPosition) : Prop :=
  (0 < pos_quantity pos)%Q
  \/ exists v, pos_valueInBaseCurrency pos = Some v /\ (0 < v)%Q.

(** A number that is null or zero. *)
Definition nullOrZero (x : option Q) : Prop :=
  x = None \/ exists q, x = Some q /\ (q == 0)%Q.

(** A position that lacks a market price or a value. *)
Definition lacksPriceOrValue (pos : PortfolioPosition) : Prop :=
  nullOrZero (pos_marketPrice pos) \/ nullOrZero (pos_valueInBaseCurrency pos).

(** The value of a holding: its market value, falling back to its cost
    basis, else zero (a zero counts as absent). *)
Definition valueOf (pos : PortfolioPosition) : Q :=
  match pos_valueInBaseCurrency pos with
  | Some v => if Qeq_bool v 0 then
                match pos_investment pos with
                | Some c => if Qeq_bool c 0 then 0%Q else c
                | None => 0%Q
                end
              else v
  | None => match pos_investment pos with
            | Some c => if Qeq_bool c 0 then 0%Q else c
            | None => 0%Q
            end
  end.

(** The sum of a list of numbers. *)
Definition sum (xs : list Q) : Q := fold_right Qplus 0%Q xs.

(** The allocation percent of a value in a total: the quotient (to the 20
    decimal places of big.js) times 100, rounded to 2 decimals; 0 when the
    total is not positive. *)
Definition percentOf (total v : Q) : Q :=
  if Qle_bool total 0 then 0%Q
  else round2 (Big.round_dp (v / total) * 100).

(** What the quotient of big.js (20 decimal places) and the double
    arithmetic can add to the rounding error of a percent [q]. *)
Definition margin (q : Q) : Q :=
  ((1 + Qabs q) * (1 # 1000000000000000))%Q.

(** The largest distance from 100 of the sum of [n] rounded percents of
    non-negative values: each percent is off by at most 0.005, and the
    margins of all of them add up to [(n + 100) / 10^15]. *)
Definition sumTolerance (n : nat) : Q :=
  (inject_Z (Z.of_nat n) * (1 # 200)
   + (inject_Z (Z.of_nat n) + 100) * (1 # 1000000000000000))%Q.

(** The sum of the values tracked for the symbols other than [symbol]. *)
Definition sumOthers (symbol : string) (m : JsMap.t Q) : Q :=
  sum (map snd (filter (fun e => negb (String.eqb symbol (fst e))) m)).

(** A number above zero. *)
Definition positive (q : Q) : bool :=
  match (0 ?= q)%Q with Lt => true | _ => false end.

(** The simulation keeps a position with a positive quantity or a
    positive value, and tracks its value, falling back to its cost basis,
    else zero. *)
Definition kept (pos : PortfolioPosition) : bool :=
  positive (pos_quantity pos)
  || match pos_valueInBaseCurrency pos with
     | Some v => positive v
     | None => false
     end.

Definition trackedOf (pos : PortfolioPosition) : Q :=
  match pos_valueInBaseCurrency pos, pos_investment pos with
  | Some v, _ => v
  | None, Some c => c
  | None, None => 0%Q
  end.

(** The value tracked for a symbol before any change: that of the last
    kept position of the portfolio with this symbol. *)
Fixpoint trackedAt (positions : list PortfolioPosition) (symbol : string)
  : option Q :=
  match positions with
  | [] => None
  | pos :: rest =>
      match trackedAt rest symbol with
      | Some v => Some v
      | None =>
          if kept pos && String.eqb symbol (pos_symbol pos)
          then Some (trackedOf pos) else None
      end
  end.

(** The code points of ECMAScript's WhiteSpace and LineTerminator
    productions, which [String.prototype.trim] strips. *)
Definition WHITE_SPACE_CODE_POINTS : list N :=
  [ 0x9; 0xA; 0xB; 0xC; 0xD; 0x20; 0xA0; 0x1680;
    0x2000; 0x2001; 0x2002; 0x2003; 0x2004; 0x2005; 0x2006; 0x2007;
    0x2008; 0x2009; 0x200A; 0x2028; 0x2029; 0x202F; 0x205F; 0x3000;
    0xFEFF ]%N.

(** The UTF-8 encoding of a code point of the basic multilingual plane. *)
Definition utf8 (n : N) : string :=
  if (n <? 0x80)%N then String (ascii_of_N n) EmptyString
  else if (n <? 0x800)%N then
    String (ascii_of_N (0xC0 + n / 64))
      (String (ascii_of_N (0x80 + n mod 64)) EmptyString)
  else
    String (ascii_of_N (0xE0 + n / 4096))
      (String (ascii_of_N (0x80 + (n / 64) mod 64))
         (String (ascii_of_N (0x80 + n mod 64)) EmptyString)).

(** A text that is empty or made of white space only. *)
Inductive Blank : string -> Prop :=
| Blank_empty : Blank EmptyString
| Blank_more (n : N) (s : string) :
    In n WHITE_SPACE_CODE_POINTS -> Blank s -> Blank (utf8 n ++ s).

End Spec.

(** ** Concrete inputs *)

Module Examples.

Definition position (symbol assetClass : string) (quantity price invested val : Q)
  : PortfolioPosition :=
  {| pos_symbol := symbol; pos_name := Some symbol;
     pos_quantity := quantity; pos_currency := "USD";
     pos_marketPrice := Some price; pos_investment := Some invested;
     pos_valueInBaseCurrency := Some val;
     pos_assetClass := Some assetClass |}.

(** [MOCK_PORTFOLIO_DETAILS] of evals/run-evals.ts. *)
Definition MOCK_PORTFOLIO_DETAILS : PortfolioDetails :=
  {| details_holdings :=
       [ position "AAPL" "EQUITY" 10 (1855 # 10) 1500 1855;
         position "VTI" "EQUITY" 8 245 1800 1960;
         position "BND" "FIXED_INCOME" 15 (792 # 10) 1200 1188 ];
     details_hasErrors := false |}.

(** A two-letter symbol for each index below 676. *)
Definition symbolOf (i : nat) : string :=
  String (ascii_of_nat (65 + i / 26))
    (String (ascii_of_nat (65 + i mod 26)) EmptyString).

(** [n] holdings of one unit each, priced at 1 and worth 1. *)
Definition unitHoldings (n : nat) : PortfolioDetails :=
  {| details_holdings :=
       map (fun i => position (symbolOf i) "EQUITY" 1 1 1 1) (seq 0 n);
     details_hasErrors := false |}.

(** Two holdings worth 201 and 19799: the first is 1.005 percent of the
    total. *)
Definition tieHoldings : PortfolioDetails :=
  {| details_holdings :=
       [ position "AA" "EQUITY" 1 201 201 201;
         position "BB" "EQUITY" 1 19799 19799 19799 ];
     details_hasErrors := false |}.

(** A chart of [n] daily points, each a separate object. *)
Definition chartOf (n : nat) : list HistoricalDataItem :=
  map (fun i => {| hd_ref := i; hd_date := "2026-01-01";
                   hd_netWorth := Some (inject_Z (Z.of_nat (4800 + i)));
                   hd_netPerformanceInPercentage := None |})
    (seq 0 n).

(** A stand-in for [JSON.parse] that accepts the texts opening with a
    brace, and returns them as they are. *)
Definition parseBraced (payload : string) : option string :=
  if JsString.startsWith "{" payload then Some payload else None.

(** An upstream body in four reads: the first event is split across two
    reads inside its separator, the second event is malformed, and the
    stream ends inside a fourth event. *)
Definition upstreamReads : list AgentProxy.Chunk :=
  [ {| AgentProxy.chunk_text := ("data: {a}" ++ JsString.LF)%string;
       AgentProxy.aborted := false |};
    {| AgentProxy.chunk_text :=
         (JsString.LF ++ "event: x" ++ JsString.LF ++ "data: oops"
          ++ JsString.LFLF ++ "data: {b")%string;
       AgentProxy.aborted := false |};
    {| AgentProxy.chunk_text := ("}" ++ JsString.LFLF)%string;
       AgentProxy.aborted := false |};
    {| AgentProxy.chunk_text := "data: {c"; AgentProxy.aborted := false |} ].

(** A rendering of the integer part of a number, for the notes. *)
Definition showInteger (q : Q) : string :=
  NilZero.string_of_int (Z.to_int (Qfloor q)).

(** [toFixed(2)] of a number that is not negative: two decimals, a half
    rounded up. *)
Definition toFixed2 (q : Q) : string :=
  let n := Qfloor (q * 100 + (1 # 2)) in
  let cents := (n mod 100)%Z in
  (NilZero.string_of_int (Z.to_int (n / 100)) ++ "."
   ++ (if (cents <? 10)%Z then "0" else "")
   ++ NilZero.string_of_int (Z.to_int cents))%string.

(** *** A world for one chat turn: a clock that advances at every reading *)

Definition clock (w : nat) : Z * nat := (Z.of_nat (7 * w), S w).

Definition todayIs (w : nat) : IsoDate := "2026-02-01".

Definition prompt (baseCurrency language currentDate : string) : string :=
  ("You are a portfolio analysis assistant for Ghostfolio. Base currency: "
   ++ baseCurrency ++ ". Language: " ++ language ++ ". Today: "
   ++ currentDate)%string.

Definition config : AgentConfig :=
  {| anthropicApiKey := "test-api-key";
     anthropicModel := "claude-sonnet-4-20250514";
     maxTokens := 4096;
     temperature := 2 # 10;
     enableExternalMarketData := false |}.

Definition user : UserContext :=
  {| uc_userId := "test-user-id"; uc_baseCurrency := "USD";
     uc_language := "en"; uc_impersonationId := None |}.

Definition showResult (r : ToolResult) : Outcome string :=
  match r with
  | SnapshotResult _ => Returned "{snapshot}"
  | PerformanceOutput _ => Returned "{performance}"
  | SimulateOutput _ => Returned "{simulation}"
  | OtherResult json => Returned json
  | Unencodable why => Threw (ErrorObject why)
  end.

Definition showError (text : string) : string :=
  ("{error: " ++ text ++ "}")%string.

(** The snapshot tool over the mock portfolio; a performance tool whose
    executor throws; the market-price tool, registered but disabled. *)
Definition snapshotExecutor : AgentService.Executor nat unit :=
  fun _ context w =>
    (Returned
       (SnapshotResult
          (GetPortfolioSnapshotTool.mapToSnapshot (todayIs w)
             MOCK_PORTFOLIO_DETAILS (baseCurrency context))), S w).

Definition throwingExecutor : AgentService.Executor nat unit :=
  fun _ _ w => (Threw (ErrorObject "Database connection failed"), S w).

Definition marketExecutor : AgentService.Executor nat unit :=
  fun _ _ w => (Returned (OtherResult "{rows: []}"), w).

Definition registered (nm : string) (exec : AgentService.Executor nat unit)
  (on : bool) : RegisteredTool (AgentService.Executor nat unit) :=
  {| definition := {| name := nm; description := nm; input_schema := "{}" |};
     executor := exec; enabled := on |}.

Definition registry : ToolRegistry (AgentService.Executor nat unit) :=
  register (registered "getMarketPrices" marketExecutor false)
    (register (registered "getPerformance" throwingExecutor true)
       (register (registered "getPortfolioSnapshot" snapshotExecutor true)
          JsMap.empty)).

Definition request (nm id : string) : AgentService.ContentBlock unit :=
  AgentService.ToolUse
    {| AgentService.tu_id := id; AgentService.tu_name := nm;
       AgentService.tu_input := tt |}.

(** LLM call #1 asks for an unknown tool, the snapshot, the failing
    performance tool and the disabled market-price tool. *)
Definition plan : list (AgentService.ContentBlock unit) :=
  [ AgentService.TextBlock "Let me look that up.";
    request "nonExistentTool" "tool_1";
    request "getPortfolioSnapshot" "tool_2";
    request "getPerformance" "tool_3";
    request "getMarketPrices" "tool_4" ].

Definition isToolResultTurn (m : AgentService.MessageParam unit) : bool :=
  match AgentService.msg_content m with
  | AgentService.ToolResultsContent _ => true
  | _ => false
  end.

(** A provider that answers call #1 with [first] and, once the messages
    carry tool results, call #2 with the text [final]. *)
Definition provider (first : list (AgentService.ContentBlock unit))
  (final : string) (rq : AgentService.LlmRequest unit) (w : nat)
  : Outcome (list (AgentService.ContentBlock unit)) * nat :=
  if existsb isToolResultTurn (AgentService.rq_messages rq)
  then (Returned [AgentService.TextBlock final], S w)
  else (Returned first, S w).

Definition ask (text : string) : AgentChatRequest :=
  {| message := text; conversationHistory := None |}.

(** One turn of [chat] in this world. *)
Definition turn (first : list (AgentService.ContentBlock unit))
  (final : string) (text : string) : AgentService.Turn nat unit :=
  AgentService.chat nat unit clock todayIs prompt (provider first final)
    showResult showError showInteger config registry (ask text) user 0%nat.

(** The answer of the unit test of the verifier on the direct path. *)
Definition ADVICE_ANSWER : string :=
  "You should buy more AAPL because it has guaranteed returns.".

(** [new URL] on a request target and a [Host] header, for hosts made of
    letters, digits, dots, hyphens and a port: a host that is empty or
    holds a space does not parse. *)
Definition tokenOf (url : string) (host : option string)
  : Outcome (option string) :=
  let h := match host with Some h => h | None => "localhost" end in
  if negb (JsString.truthy h) || JsString.includes " " h
  then Threw (ErrorObject "Invalid URL")
  else Returned (AgentWebSocket.queryParam "token" url).

(** A verifier that accepts the one token [abc], signed for [user-1]. *)
Definition verifyAbc (raw : string) : Outcome (option string) :=
  if String.eqb raw "abc" then Returned (Some "user-1")
  else Threw (ErrorObject "invalid signature").

Definition usd (q : Q) : Money := {| currency := "USD"; amount := q |}.

(** Selling 5000 of AAPL, which is tracked at 1855. *)
Definition oversellAAPL : AllocationChange :=
  {| ch_type := "sell"; ch_symbol := "AAPL"; ch_amount := usd 5000 |}.

(** A provider that returns the mock portfolio. *)
Definition mockDetails (impersonationId : option string) (userId : string)
  (w : nat) : Outcome PortfolioDetails * nat :=
  (Returned MOCK_PORTFOLIO_DETAILS, S w).

Definition toolContext : ToolContext :=
  {| userId := "test-user-id"; baseCurrency := "USD";
     impersonationId := None |}.

Definition buyVTI : AllocationChange :=
  {| ch_type := "buy"; ch_symbol := "VTI"; ch_amount := usd 500 |}.

(** An agent URL of white space only: U+00A0, a space and U+FEFF. *)
Definition blankUrl : string :=
  JsString.bytes [194; 160; 32; 239; 187; 191]%nat.

(** An answer that spells the valuation keyword "market" with the Kelvin
    sign U+212A, which [toLowerCase] turns into k. *)
Definition kelvinAnswer : string :=
  ("Mar" ++ JsString.bytes [226; 132; 170]%nat
   ++ "et price data is missing")%string.

(** A data line whose payload follows a no-break space. *)
Definition nbspDataLine : string :=
  ("data:" ++ JsString.bytes [194; 160]%nat ++ "[1]")%string.
End Examples.

(** ** tool-registry.ts and the constructor of the orchestrator *)

Module Registry.

Section Built.

Variable Executor : Type.

(** The registries that [new ToolRegistry()] and calls of [register] can
    produce. *)
Inductive Built : ToolRegistry Executor -> Prop :=
| BuiltEmpty : Built JsMap.empty
| BuiltRegister (tool : RegisteredTool Executor)
    (tools : ToolRegistry Executor) :
    Built tools -> Built (register tool tools).

(** The description and the input schema of the [DEFINITION] of each tool
    class, by the name of the tool. *)
Variable describe : string -> string.
Variable schema : string -> string.

Definition definitionOf (nm : string) : AgentToolDefinition :=
  {| name := nm; description := describe nm; input_schema := schema nm |}.

(** The four registrations of the constructor of [AgentService]; the
    executors are the tool objects it creates, the market-price tool is
    enabled by [agentConfig.enableExternalMarketData]. *)

Definition constructed (snapshot performance simulate marketPrices : Executor)
  (config : AgentConfig) : ToolRegistry Executor :=
  register
    {| definition := definitionOf "getMarketPrices";
       executor := marketPrices;
       enabled := enableExternalMarketData config |}
    (register
       {| definition := definitionOf "simulateAllocationChange";
          executor := simulate; enabled := true |}
       (register
          {| definition := definitionOf "getPerformance";
             executor := performance; enabled := true |}
          (register
             {| definition := definitionOf "getPortfolioSnapshot";
                executor := snapshot; enabled := true |}
             JsMap.empty))).

(** Every entry is filed under the name of its definition, once. *)
Definition filed (tools : ToolRegistry Executor) : Prop :=
  NoDup (JsMap.keys tools)
  /\ forall k tool, In (k, tool) tools -> k = name (definition tool).

End Built.

Arguments Built {Executor} _.
Arguments filed {Executor} _.
Arguments constructed {Executor} describe schema _ _ _ _ _.

End Registry.

(** ** endpoints/agent/agent.service.ts: the unary proxy *)

Module AgentProxyUnary.

Import JsString.

(** [configurationService.get('AGENT_SERVICE_URL')] is a string or not;
    [typeof url === 'string' ? url.trim() : ''] *)
Definition getAgentBaseUrl (configured : option string) : string :=
  match configured with Some url => trim url | None => EmptyString end.

(** [this.getAgentBaseUrl().length > 0] *)
Definition isEnabled (configured : option string) : bool :=
  (0 <? String.length (getAgentBaseUrl configured))%nat.

(** [baseUrl.replace(/\/$/, '')]: one slash at the very end is removed. *)
Fixpoint stripTrailingSlash (s : string) : string :=
  match s with
  | EmptyString => EmptyString
  | String c EmptyString => if Ascii.eqb c "/"%char then EmptyString else s
  | String c s' => String c (stripTrailingSlash s')
  end.

Inductive Method : Type := GET | POST.

Record Request := {
  rq_url : string;
  rq_method : Method;
  rq_headers : list (string * string);
  rq_body : option string
}.

Definition X_GHOSTFOLIO_USER_ID : string := "x-ghostfolio-user-id".

Definition headersOf (ghostfolioUserId bearerToken : string)
  : list (string * string) :=
  [ ("Content-Type", "application/json");
    ("Authorization", AgentProxy.authorization bearerToken);
    (X_GHOSTFOLIO_USER_ID, ghostfolioUserId) ].

Section Proxy.

(** The world [fetch] acts on, the decoded JSON of a response, the body a
    caller passes, and [JSON.stringify] on it. *)
Variable W : Type.
Variable Data : Type.
Variable Body : Type.
Variable stringify : Body -> string.

(** What the proxy reads of a response: the status, the content type,
    [response.json()] (which may throw) and [response.text()]. *)
Record Response := {
  rs_status : Z;
  rs_contentType : option string;
  rs_json : option Data;
  rs_text : string
}.

Variable fetch : Request -> W -> Outcome Response * W.

(** The [data] of the result: the decoded body, or [{ error: text }]. *)
Inductive Payload : Type :=
| Json (data : Data)
| ErrorBody (text : string).

Definition NOT_CONFIGURED : string :=
  "Agent service is not configured (AGENT_SERVICE_URL).".

(** [init.body] is set for a POST with a body that is not [undefined]. *)
Definition requestOf (baseUrl : string) (method : Method) (path : string)
  (ghostfolioUserId bearerToken : string) (body : option Body) : Request :=
  {| rq_url := (stripTrailingSlash baseUrl ++ path)%string;
     rq_method := method;
     rq_headers := headersOf ghostfolioUserId bearerToken;
     rq_body := match body, method with
                | Some b, POST => Some (stringify b)
                | _, _ => None
                end |}.

Definition payloadOf (response : Response) : Payload :=
  match rs_contentType response with
  | Some contentType =>
      if includes "application/json" contentType then
        match rs_json response with
        | Some data => Json data
        | None => ErrorBody "Invalid JSON response from agent"
        end
      else ErrorBody (rs_text response)
  | None => ErrorBody (rs_text response)
  end.

(** [proxyToAgent]: the promise resolves with status and data, or rejects
    when [fetch] does. *)
Definition proxyToAgent (configured : option string) (method : Method)
  (path ghostfolioUserId bearerToken : string) (body : option Body) (w : W)
  : Outcome (Z * Payload) * W :=
  let baseUrl := getAgentBaseUrl configured in
  if negb (truthy baseUrl) then (Returned (503%Z, ErrorBody NOT_CONFIGURED), w)
  else
    match fetch (requestOf baseUrl method path ghostfolioUserId bearerToken
                   body) w with
    | (Returned response, w') =>
        (Returned (rs_status response, payloadOf response), w')
    | (Threw e, w') => (Threw e, w')
    end.

(** *** agent.controller.ts of the endpoint: the callers of the proxy *)

(** A header of the request: a string, or a value of another type. *)
Inductive HeaderValue : Type :=
| HeaderText (text : string)
| HeaderOther.

(** [HEADER_KEY_TOKEN.toLowerCase()], a constant of the common
    configuration. *)
Variable tokenHeader : string.

(** [getBearerToken]: [headers[key] ?? headers['authorization']], kept
    when it is a string that opens with the scheme, prefixed when it is
    another string, empty otherwise. *)
Definition getBearerToken (headers : string -> option HeaderValue) : string :=
  let auth := match headers tokenHeader with
              | Some v => Some v
              | None => headers "authorization"
              end in
  match auth with
  | Some (HeaderText text) =>
      if startsWith "Bearer " text then text
      else ("Bearer " ++ text)%string
  | _ => EmptyString
  end.

Definition DISABLED : string := "Agent service is not configured.".

(** [getAuthStatus] and [chat]: what [res.status(..).json(..)] receives. *)
Definition respond (configured : option string) (method : Method)
  (path : string) (headers : string -> option HeaderValue) (userId : string)
  (body : option Body) (w : W) : Outcome (Z * Payload) * W :=
  if negb (isEnabled configured) then (Returned (503%Z, ErrorBody DISABLED), w)
  else proxyToAgent configured method path userId (getBearerToken headers)
         body w.

Definition getAuthStatus configured headers userId w :=
  respond configured GET "/api/auth/status" headers userId None w.

Definition chat configured headers userId (body : option Body) w :=
  respond configured POST "/api/chat" headers userId body w.

End Proxy.

Arguments Json {Data} data.
Arguments ErrorBody {Data} text.
Arguments rs_status {Data} _.

End AgentProxyUnary.

(** ** agent-websocket.ts: the handler of client messages *)

Module GatewayMessages.

Unset Elimination Schemes.

(** A value that [JSON.parse] returns. *)
Inductive Json : Type :=
| JNull
| JBool (b : bool)
| JNumber (q : Q)
| JString (s : string)
| JArray (items : list Json)
| JObject (fields : JsMap.t Json).

Set Elimination Schemes.

(** The reply to a message of another shape; the word chat stands between
    double quotes. *)
Definition EXPECTED : string :=
  ("Expected { type: " ++ String (ascii_of_nat 34) "chat"
   ++ String (ascii_of_nat 34) ", message, conversationHistory }")%string.

(** [msg.name] on a parsed value that is not [null]: [undefined] where the
    value has no such property. *)
Definition property (nm : string) (msg : Json) : option Json :=
  match msg with
  | JObject fields => JsMap.get nm fields
  | _ => None
  end.

(** [!value] is false on the truthy values. *)
Definition truthyValue (value : option Json) : bool :=
  match value with
  | None | Some JNull => false
  | Some (JBool b) => b
  | Some (JNumber q) => negb (Qeq_bool q 0)
  | Some (JString s) => JsString.truthy s
  | Some (JArray _) | Some (JObject _) => true
  end.

(** [value === text] *)
Definition isText (text : string) (value : option Json) : bool :=
  match value with
  | Some (JString s) => String.eqb s text
  | _ => false
  end.

(** [Array.isArray(value)] *)
Definition isArray (value : option Json) : bool :=
  match value with Some (JArray _) => true | _ => false end.

(** What the handler does with one message before any event is forwarded:
    nothing, one reply to the client, the abort of the request in flight,
    a [TypeError] outside every [try] (the message is the JSON [null]), or
    the start of an upstream stream with the body it sends. *)
Inductive Reaction : Type :=
| Nothing
| Reply (message : string)
| AbortInFlight
| Rejected
| StartStream (conversationHistory message : option Json).

Section Handler.

Variable JSON_parse : string -> option Json.

(** The handler of the [message] event up to the [for await] loop:
    [isOpen] is [ws.readyState === 1], [enabled] is
    [agentService.isEnabled()], [raw] is the text of the message. *)
Definition onMessage (isOpen enabled : bool) (raw : string) : Reaction :=
  if negb isOpen then Nothing
  else
    match JSON_parse raw with
    | None => Reply "Invalid JSON"
    | Some JNull => Rejected
    | Some msg =>
        if isText "cancel" (property "type" msg) then AbortInFlight
        else if negb (isText "chat" (property "type" msg))
                || negb (truthyValue (property "message" msg))
                || negb (isArray (property "conversationHistory" msg))
        then Reply EXPECTED
        else if negb enabled then Reply "Agent service is not configured."
        else StartStream (property "conversationHistory" msg)
               (property "message" msg)
    end.

(** The message is an object of type chat with a truthy message and an
    array as history. *)
Definition wellFormedChat (msg : Json) : bool :=
  isText "chat" (property "type" msg)
  && truthyValue (property "message" msg)
  && isArray (property "conversationHistory" msg).

(** The number of [ws.send] calls of a reaction so far. *)
Definition replies (r : Reaction) : nat :=
  match r with Reply _ => 1 | _ => 0 end.

End Handler.

End GatewayMessages.

(** ** An order-preserving selection of the items of a list *)

Inductive Subsequence {A : Type} : list A -> list A -> Prop :=
| SubNil : Subsequence [] []
| SubSkip (x : A) (xs ys : list A) :
    Subsequence xs ys -> Subsequence xs (x :: ys)
| SubKeep (x : A) (xs ys : list A) :
    Subsequence xs ys -> Subsequence (x :: xs) (x :: ys).

(** ** Readings of the verifier's checks *)

Module VerifierReadings.

Import Verifier.

(** The result of a check that finds nothing. *)
Definition clean : VerificationResult :=
  {| v_warnings := []; confidenceAdjustment := 0 |}.

(** Whether the lower-cased answer holds one of the valuation keywords. *)
Definition mentionsCostBasis (text : string) : bool :=
  existsb
    (fun keyword =>
       JsString.includes (JsString.toLowerCase keyword)
         (JsString.toLowerCase text))
    VALUATION_KEYWORDS.

(** The snapshot in the tool results reports missing price data. *)
Definition priceDataMissing (toolResults : JsMap.t ToolResult) : bool :=
  match option_map Cast.isPriceDataMissing
          (JsMap.get "getPortfolioSnapshot" toolResults) with
  | Some (Some true) => true
  | _ => false
  end.

End VerifierReadings.

(** ** Further concrete inputs *)

Module Scenarios.

(** A provider whose first call fails. *)
Definition failingProvider (rq : AgentService.LlmRequest unit) (w : nat)
  : Outcome (list (AgentService.ContentBlock unit)) * nat :=
  (Threw (ErrorObject "API rate limit exceeded"), S w).

Definition failedTurn : AgentService.Turn nat unit :=
  AgentService.chat nat unit Examples.clock Examples.todayIs Examples.prompt
    failingProvider Examples.showResult Examples.showError
    Examples.showInteger Examples.config Examples.registry
    (Examples.ask "How is my portfolio?") Examples.user 0%nat.

(** LLM call #1 asks for the failing performance tool and for an unknown
    tool. *)
Definition failingPlan : list (AgentService.ContentBlock unit) :=
  [ Examples.request "getPerformance" "tool_1";
    Examples.request "nonExistentTool" "tool_2" ].

(** LLM call #1 asks for the snapshot only. *)
Definition snapshotPlan : list (AgentService.ContentBlock unit) :=
  [ Examples.request "getPortfolioSnapshot" "tool_1" ].

(** A portfolio of one holding of which only the quantity is known. *)
Definition unpricedDetails : PortfolioDetails :=
  {| details_holdings :=
       [ {| pos_symbol := "XYZ"; pos_name := None; pos_quantity := 1;
            pos_currency := "USD"; pos_marketPrice := None;
            pos_investment := None; pos_valueInBaseCurrency := None;
            pos_assetClass := None |} ];
     details_hasErrors := false |}.

(** A holding worth 1000000000000003 and a holding without a value whose
    cost basis is -1000000000000000. *)
Definition shortDetails : PortfolioDetails :=
  {| details_holdings :=
       [ Examples.position "AA" "EQUITY" 1 1 1 1000000000000003;
         {| pos_symbol := "BB"; pos_name := None; pos_quantity := 1;
            pos_currency := "USD"; pos_marketPrice := None;
            pos_investment := Some (- (1000000000000000))%Q;
            pos_valueInBaseCurrency := None;
            pos_assetClass := None |} ];
     details_hasErrors := false |}.

(** A performance provider that returns a chart of [n] points without
    errors. *)
Definition performanceOf (n : nat) (range : string)
  (impersonationId : option string) (userId : string) (w : nat)
  : Outcome PortfolioPerformanceResponse * nat :=
  (Returned {| perf_chart := Some (Examples.chartOf n);
               perf_netPerformancePercentage := Some (5 # 100);
               perf_hasErrors := false |}, S w).

(** A performance tool whose result holds a [BigInt], next to the
    snapshot tool; LLM call #1 asks for both. *)
Definition bigintExecutor : AgentService.Executor nat unit :=
  fun _ _ w =>
    (Returned (Unencodable "Do not know how to serialize a BigInt"), S w).

Definition bigintRegistry : ToolRegistry (AgentService.Executor nat unit) :=
  register (Examples.registered "getPerformance" bigintExecutor true)
    (register
       (Examples.registered "getPortfolioSnapshot" Examples.snapshotExecutor
          true)
       JsMap.empty).

Definition bigintPlan : list (AgentService.ContentBlock unit) :=
  [ Examples.request "getPerformance" "tool_1";
    Examples.request "getPortfolioSnapshot" "tool_2" ].


End Scenarios.

(** ** Readings of the tool trace *)

(** A row of a tool that did not succeed. *)
Definition failed (row : ToolTraceRow) : bool := negb (ok row).

(** The number of rows that pass a test. *)
Definition count (f : ToolTraceRow -> bool) (rows : list ToolTraceRow) : Z :=
  Z.of_nat (List.length (filter f rows)).

(** ** Readings of the snapshot *)

(** [h.assetClass ?? 'UNKNOWN'] *)
Definition assetClassOf (h : HoldingRow) : string :=
  match hr_assetClass h with Some c => c | None => "UNKNOWN" end.

(** ** Readings of the simulation *)

(** [b.percent - a.percent <= 0]: [a] may stand before [b]. *)
Definition descending (a b : AllocationRow) : Prop :=
  (percent b <= percent a)%Q.

(** The amounts of a list of allocation rows. *)
Definition amounts (rows : list AllocationRow) : list Q :=
  map (fun row => amount (value row)) rows.

(** The running total is the sum of the tracked values, and no tracked
    value is negative. *)
Definition balanced (st : SimulateAllocationChangeTool.LoopState) : Prop :=
  (SimulateAllocationChangeTool.newTotal st
   == Spec.sum (JsMap.values (SimulateAllocationChangeTool.valueMap st)))%Q
  /\ Forall (fun e : string * Q => (0 <= snd e)%Q)
       (SimulateAllocationChangeTool.valueMap st).

(** ** The agent page of the client: the queue of outgoing messages *)

Module AgentPage.

Definition MAX_HISTORY_MESSAGES : nat := 50.

(** [xs.slice(-n)]: the last [n] items. *)
Definition slice_last {A : Type} (n : nat) (xs : list A) : list A :=
  skipn (List.length xs - n) xs.

Inductive Role : Type := assistant | user.

(** How [dispatchMessage] sends a request: over the open WebSocket, as a
    streamed [fetch], or as a plain HTTP request whose subscription the
    component keeps. *)
Inductive Transport : Type :=
| WebSocketTransport
| StreamTransport
| HttpTransport.

Section Page.

(** What an assistant message carries besides its content: confidence,
    data, loop metadata, tool trace and warnings. *)
Variable Details : Type.

(** The transport that [dispatchMessage] finds for the request with a
    given id (a token and an open socket; a token; neither). *)
Variable transport : nat -> Transport.

Record ChatMessage := {
  cm_content : string;
  cm_role : Role;
  cm_details : option Details
}.

(** An entry of the [conversationHistory] of a request. *)
Record HistoryEntry := { he_content : string; he_role : Role }.

(** What leaves the page: a chat request over one of the three
    transports, and the cancellation of the request in flight. *)
Inductive Effect : Type :=
| Dispatched (requestId : nat) (conversationHistory : list HistoryEntry)
    (message : string)
| Cancelled (requestId : nat).

(** The fields of the component that the queue reads and writes, and the
    log of what has left the page. [activeRequestSubscription] holds the
    id of the plain HTTP request whose subscription it refers to. The
    model covers the component up to its destruction. *)
Record State := {
  draftMessage : string;
  isSending : bool;
  messages : list ChatMessage;
  queuedMessages : list string;
  activeRequestSubscription : option nat;
  activeRequestId : nat;
  requestCounter : nat;
  effects : list Effect
}.

Definition initial : State :=
  {| draftMessage := EmptyString; isSending := false; messages := [];
     queuedMessages := []; activeRequestSubscription := None;
     activeRequestId := 0; requestCounter := 0;
     effects := [] |}.

(** [this.messages = [...this.messages, message].slice(-MAX_HISTORY_MESSAGES)] *)
Definition appendMessage (message : ChatMessage) (st : State) : State :=
  {| draftMessage := draftMessage st; isSending := isSending st;
     messages := slice_last MAX_HISTORY_MESSAGES (messages st ++ [message]);
     queuedMessages := queuedMessages st;
     activeRequestSubscription := activeRequestSubscription st;
     activeRequestId := activeRequestId st;
     requestCounter := requestCounter st;
     effects := effects st |}.

Definition historyOf (entries : list ChatMessage) : list HistoryEntry :=
  map (fun entry => {| he_content := cm_content entry;
                       he_role := cm_role entry |}) entries.

(** [dispatchMessage]: on the plain HTTP path the subscription of the
    request is stored. *)
Definition dispatchMessage (message : string) (st : State) : State :=
  let conversationHistory := historyOf (messages st) in
  let st1 :=
    appendMessage {| cm_content := message; cm_role := user;
                     cm_details := None |} st in
  let requestId := S (requestCounter st1) in
  {| draftMessage := draftMessage st1; isSending := true;
     messages := messages st1;
     queuedMessages := queuedMessages st1;
     activeRequestSubscription :=
       match transport requestId with
       | HttpTransport => Some requestId
       | _ => activeRequestSubscription st1
       end;
     activeRequestId := requestId;
     requestCounter := requestId;
     effects := effects st1
                ++ [Dispatched requestId conversationHistory message] |}.

Definition enqueueMessage (message : string) (prepend : bool) (st : State)
  : State :=
  {| draftMessage := draftMessage st; isSending := isSending st;
     messages := messages st;
     queuedMessages := if prepend then message :: queuedMessages st
                       else queuedMessages st ++ [message];
     activeRequestSubscription := activeRequestSubscription st;
     activeRequestId := activeRequestId st;
     requestCounter := requestCounter st;
     effects := effects st |}.

Definition flushQueue (st : State) : State :=
  if isSending st || (List.length (queuedMessages st) =? 0)%nat then st
  else
    match queuedMessages st with
    | nextMessage :: remaining =>
        dispatchMessage nextMessage
          {| draftMessage := draftMessage st; isSending := isSending st;
             messages := messages st; queuedMessages := remaining;
             activeRequestSubscription := activeRequestSubscription st;
             activeRequestId := activeRequestId st;
             requestCounter := requestCounter st;
             effects := effects st |}
    | [] => st
    end.

Definition clearDraft (st : State) : State :=
  {| draftMessage := EmptyString; isSending := isSending st;
     messages := messages st; queuedMessages := queuedMessages st;
     activeRequestSubscription := activeRequestSubscription st;
     activeRequestId := activeRequestId st;
     requestCounter := requestCounter st; effects := effects st |}.

(** What has left the page is logged. *)
Definition logged (left : list Effect) (st : State) : State :=
  {| draftMessage := draftMessage st; isSending := isSending st;
     messages := messages st; queuedMessages := queuedMessages st;
     activeRequestSubscription := activeRequestSubscription st;
     activeRequestId := activeRequestId st;
     requestCounter := requestCounter st;
     effects := effects st ++ left |}.

(** [activeRequestSubscription = null; activeRequestId = 0;
    isSending = false] *)
Definition release (st : State) : State :=
  {| draftMessage := draftMessage st; isSending := false;
     messages := messages st; queuedMessages := queuedMessages st;
     activeRequestSubscription := None;
     activeRequestId := 0; requestCounter := requestCounter st;
     effects := effects st |}.

(** The callback of [finalize] on the plain HTTP request [requestId],
    which runs when the request ends and when its subscription is
    unsubscribed. *)
Definition finalize (requestId : nat) (st : State) : State :=
  if (activeRequestId st =? requestId)%nat then flushQueue (release st)
  else st.

(** [this.activeRequestSubscription?.unsubscribe()]: the subscription it
    holds is torn down, which runs its [finalize] callback. *)
Definition unsubscribe (st : State) : State :=
  match activeRequestSubscription st with
  | Some requestId => finalize requestId st
  | None => st
  end.

(** [finishStreamRequest] of the WebSocket and the streaming paths. *)
Definition finishStreamRequest (requestId : nat) (st : State) : State :=
  if (activeRequestId st =? requestId)%nat then
    flushQueue
      {| draftMessage := draftMessage st; isSending := false;
         messages := messages st; queuedMessages := queuedMessages st;
         activeRequestSubscription := activeRequestSubscription st;
         activeRequestId := 0; requestCounter := requestCounter st;
         effects := effects st |}
  else st.

Definition sendMessage (st : State) : State :=
  let message := JsString.trim (draftMessage st) in
  if negb (JsString.truthy message) then st
  else if isSending st then clearDraft (enqueueMessage message false st)
  else dispatchMessage message (clearDraft st).

(** [interjectMessage]: the subscription is unsubscribed, which may
    release the page and dispatch the next message on its own, before
    the fields are reset and the queue is flushed. *)
Definition interjectMessage (st : State) : State :=
  let message := JsString.trim (draftMessage st) in
  if negb (JsString.truthy message) then st
  else
    let st1 := enqueueMessage message true (clearDraft st) in
    flushQueue (if isSending st1 then release (unsubscribe st1) else st1).

(** [cancelMessage]: the cancellation is sent (or the fetch aborted),
    then as in [interjectMessage]. *)
Definition cancelMessage (st : State) : State :=
  if negb (isSending st) then st
  else
    flushQueue
      (release (unsubscribe (logged [Cancelled (activeRequestId st)] st))).

(** What happens to the page: the user types, sends, interjects or
    cancels; a request reports its end; an answer is appended; stored
    messages are loaded. *)
Inductive Action : Type :=
| Typed (text : string)
| Send
| Interject
| Cancel
| Finished (requestId : nat)
| Answered (content : string) (details : Details)
| Loaded (stored : list ChatMessage).

Definition step (st : State) (a : Action) : State :=
  match a with
  | Typed text =>
      {| draftMessage := text; isSending := isSending st;
         messages := messages st; queuedMessages := queuedMessages st;
         activeRequestSubscription := activeRequestSubscription st;
         activeRequestId := activeRequestId st;
         requestCounter := requestCounter st; effects := effects st |}
  | Send => sendMessage st
  | Interject => interjectMessage st
  | Cancel => cancelMessage st
  | Finished requestId =>
      match transport requestId with
      | HttpTransport => finalize requestId st
      | _ => finishStreamRequest requestId st
      end
  | Answered content details =>
      appendMessage {| cm_content := content; cm_role := assistant;
                       cm_details := Some details |} st
  | Loaded stored =>
      {| draftMessage := draftMessage st; isSending := isSending st;
         messages := slice_last MAX_HISTORY_MESSAGES stored;
         queuedMessages := queuedMessages st;
         activeRequestSubscription := activeRequestSubscription st;
         activeRequestId := activeRequestId st;
         requestCounter := requestCounter st; effects := effects st |}
  end.

Definition run (actions : list Action) : State := fold_left step actions initial.

(** The messages of the requests that have left the page, in order. *)
Fixpoint dispatchedMessages (log : list Effect) : list string :=
  match log with
  | [] => []
  | Dispatched _ _ message :: rest => message :: dispatchedMessages rest
  | Cancelled _ :: rest => dispatchedMessages rest
  end.

Fixpoint dispatchedIds (log : list Effect) : list nat :=
  match log with
  | [] => []
  | Dispatched requestId _ _ :: rest => requestId :: dispatchedIds rest
  | Cancelled _ :: rest => dispatchedIds rest
  end.

(** The messages the user has submitted with the send button, in order:
    the trimmed drafts that were not empty. *)
Fixpoint submitted (draft : string) (actions : list Action) : list string :=
  match actions with
  | [] => []
  | Typed text :: rest => submitted text rest
  | Send :: rest =>
      if JsString.truthy (JsString.trim draft)
      then JsString.trim draft :: submitted EmptyString rest
      else submitted draft rest
  | Interject :: rest =>
      if JsString.truthy (JsString.trim draft)
      then submitted EmptyString rest
      else submitted draft rest
  | _ :: rest => submitted draft rest
  end.

Definition isInterject (a : Action) : bool :=
  match a with Interject => true | _ => false end.

(** The bookkeeping of the requests is consistent: the id of the active
    request is set exactly while the page is sending, it has been handed
    out, a stored subscription is that of the active request and of a
    plain HTTP request, the history is capped, and the ids handed out
    are 1, 2, 3, ... *)
Definition sound (st : State) : Prop :=
  (isSending st = true <-> activeRequestId st <> 0%nat)
  /\ (activeRequestId st <= requestCounter st)%nat
  /\ (forall requestId,
         activeRequestSubscription st = Some requestId ->
         activeRequestId st = requestId
         /\ requestId <> 0%nat
         /\ transport requestId = HttpTransport)
  /\ (List.length (messages st) <= MAX_HISTORY_MESSAGES)%nat
  /\ dispatchedIds (effects st) = seq 1 (requestCounter st).

(** No message waits in the queue while the page is idle. *)
Definition settled (st : State) : Prop :=
  isSending st = true \/ queuedMessages st = [].

(** What has left the page followed by what waits, and the draft. *)
Definition traffic (st : State) : list string * string :=
  (dispatchedMessages (effects st) ++ queuedMessages st, draftMessage st).

End Page.

Arguments Typed {Details} text.
Arguments Send {Details}.
Arguments Interject {Details}.
Arguments Cancel {Details}.
Arguments Finished {Details} requestId.
Arguments Answered {Details} content details.
Arguments Loaded {Details} stored.
Arguments cm_content {Details} _.
Arguments cm_role {Details} _.
Arguments cm_details {Details} _.
Arguments draftMessage {Details} _.
Arguments isSending {Details} _.
Arguments messages {Details} _.
Arguments queuedMessages {Details} _.
Arguments activeRequestSubscription {Details} _.
Arguments activeRequestId {Details} _.
Arguments requestCounter {Details} _.
Arguments effects {Details} _.

End AgentPage.

(** *** Concrete sessions of the page *)

Module PageScenarios.

(** The user sends a message, then two more while the first request is
    under way, a draft of no-break spaces in between, and cancels. *)
Definition cancelledOverHttp : list (AgentPage.Action unit) :=
  [ AgentPage.Typed "  How is my portfolio? "; AgentPage.Send;
    AgentPage.Typed "And my performance?"; AgentPage.Send;
    AgentPage.Typed (JsString.bytes [194; 160; 194; 160]%nat); AgentPage.Send;
    AgentPage.Typed "And my dividends?"; AgentPage.Send;
    AgentPage.Cancel ].

(** The user sends a message, a second one while the first request is
    under way, and cancels. *)
Definition cancelledOnce : list (AgentPage.Action unit) :=
  [ AgentPage.Typed "How is my portfolio?"; AgentPage.Send;
    AgentPage.Typed "And my performance?"; AgentPage.Send;
    AgentPage.Cancel ].

End PageScenarios.

(** ** Readings of the response *)

(** The [data] of a response that no snapshot has filled. *)
Definition emptyData : ResponseData :=
  {| d_valuationMethod := market; d_asOf := None; d_totalValue := None;
     d_allocationBySymbol := None; d_allocationByAssetClass := None |}.

(** The trace has a successful row of the snapshot tool. *)
Definition snapshotSucceeded (rows : list ToolTraceRow) : bool :=
  existsb (fun row => ok row && String.eqb (tool row) "getPortfolioSnapshot")
    rows.

(* ===================================================================== *)
(** * Part II: properties                                                  *)
(* ===================================================================== *)

(** ** The confidence score *)

Section Confidence.

Import Verifier.

Lemma computeConfidence_values (e m : bool) (s f : Z) (h : bool) :
  In (computeConfidence e m s f h) [1 # 10; 4 # 10; 7 # 10; 1%Q].
Proof.
  unfold computeConfidence.
  destruct ((0 <? f)%Z && (s =? 0)%Z), (negb h), (0 <? f)%Z, (m || e);
    cbn; auto 6.
Qed.

Lemma computeConfidence_positive (e m : bool) (s f : Z) (h : bool) :
  (1 # 10 <= computeConfidence e m s f h)%Q.
Proof.
  pose proof (computeConfidence_values e m s f h) as H. cbn in H.
  destruct H as [<- | [<- | [<- | [<- | []]]]]; discriminate.
Qed.

(** C9. For all inputs, [computeConfidence] is the decision table read in
    priority order (all tools failed and none succeeded: 0.1; no holdings:
    0.4; some tool failed: 0.4; price data missing or errors: 0.7;
    otherwise 1.0), and its result lies in [0, 1]. *)
Theorem computeConfidence_decision_table
  (hasErrors isPriceDataMissing : bool) (toolsSucceeded toolsFailed : Z)
  (hasHoldings : bool) :
  Spec.firstRow
    (Spec.confidenceRows hasErrors isPriceDataMissing toolsSucceeded
       toolsFailed hasHoldings)
  = Some (computeConfidence hasErrors isPriceDataMissing toolsSucceeded
            toolsFailed hasHoldings)
  /\ (0 <= computeConfidence hasErrors isPriceDataMissing toolsSucceeded
             toolsFailed hasHoldings)%Q
  /\ (computeConfidence hasErrors isPriceDataMissing toolsSucceeded
        toolsFailed hasHoldings <= 1)%Q.
Proof.
  split.
  - unfold Spec.firstRow, Spec.confidenceRows, computeConfidence.
    destruct ((0 <? toolsFailed)%Z && (toolsSucceeded =? 0)%Z),
      (negb hasHoldings), (0 <? toolsFailed)%Z,
      (isPriceDataMissing || hasErrors); reflexivity.
  - pose proof (computeConfidence_values hasErrors isPriceDataMissing
                  toolsSucceeded toolsFailed hasHoldings) as H.
    cbn in H.
    destruct H as [<- | [<- | [<- | [<- | []]]]]; split; discriminate.
Qed.

End Confidence.

(** ** Reading the JavaScript tests on numbers *)

Lemma gt0_true (x : Q) : gt0 x = true <-> (0 < x)%Q.
Proof.
  unfold gt0. rewrite negb_true_iff.
  destruct (Qle_bool x 0) eqn:E.
  - apply Qle_bool_iff in E. split; [discriminate | intro; exfalso; lra].
  - split; [intros _ | reflexivity].
    destruct (Qlt_le_dec 0 x) as [L | L]; [exact L |].
    apply Qle_bool_iff in L. congruence.
Qed.

Lemma gt0_false (x : Q) : gt0 x = false <-> (x <= 0)%Q.
Proof.
  unfold gt0. rewrite negb_false_iff. apply Qle_bool_iff.
Qed.

Lemma zero_or_null_true (x : option Q) :
  zero_or_null x = true <-> Spec.nullOrZero x.
Proof.
  unfold zero_or_null, Spec.nullOrZero. destruct x as [q |].
  - rewrite Qeq_bool_iff. split.
    + intro H. right. exists q. auto.
    + intros [H | [q' [H E]]]; [discriminate | congruence].
  - split; auto.
Qed.

(** ** The portfolio snapshot *)

Section Snapshot.

Import GetPortfolioSnapshotTool.

Lemma retained_true (pos : PortfolioPosition) :
  retained pos = true <-> Spec.isRetained pos.
Proof.
  unfold retained, Spec.isRetained.
  rewrite orb_true_iff, !gt0_true. split.
  - intros [H | H]; [left; exact H |].
    destruct (pos_valueInBaseCurrency pos) as [v |]; cbn in H.
    + right. exists v. auto.
    + lra.
  - intros [H | [v [E H]]]; [left; exact H |].
    right. rewrite E. exact H.
Qed.

Lemma hasMissingPrice_true (pos : PortfolioPosition) :
  hasMissingPrice pos = true <-> Spec.lacksPriceOrValue pos.
Proof.
  unfold hasMissingPrice, Spec.lacksPriceOrValue.
  rewrite orb_true_iff, !zero_or_null_true. reflexivity.
Qed.

(** The [.map] call with its captured flag, in closed form. *)
Lemma map_callback_fold (baseCurrency : string) (ps : list PortfolioPosition)
  (rows : list HoldingRow) (flag : bool) :
  fold_left (map_callback baseCurrency) ps (rows, flag)
  = (rows ++ map (toHoldingRow baseCurrency) ps,
     flag || existsb hasMissingPrice ps).
Proof.
  revert rows flag. induction ps as [| p ps IH]; intros rows flag; cbn.
  - rewrite app_nil_r, orb_false_r. reflexivity.
  - rewrite IH, <- app_assoc. cbn. f_equal.
    destruct (hasMissingPrice p), flag; reflexivity.
Qed.

Lemma mapToSnapshot_holdings now details baseCurrency :
  holdings (mapToSnapshot now details baseCurrency)
  = map (toHoldingRow baseCurrency) (filter retained (details_holdings details)).
Proof.
  unfold mapToSnapshot. rewrite map_callback_fold. reflexivity.
Qed.

Lemma mapToSnapshot_missing now details baseCurrency :
  isPriceDataMissing (mapToSnapshot now details baseCurrency)
  = existsb hasMissingPrice (filter retained (details_holdings details)).
Proof.
  unfold mapToSnapshot. rewrite map_callback_fold. reflexivity.
Qed.

Lemma mapToSnapshot_method now details baseCurrency :
  valuationMethod (mapToSnapshot now details baseCurrency)
  = if isPriceDataMissing (mapToSnapshot now details baseCurrency)
    then cost_basis else market.
Proof.
  unfold mapToSnapshot. rewrite map_callback_fold. reflexivity.
Qed.

Lemma mapToSnapshot_asOf now details baseCurrency :
  asOf (mapToSnapshot now details baseCurrency)
  = if isPriceDataMissing (mapToSnapshot now details baseCurrency)
    then None else Some now.
Proof.
  unfold mapToSnapshot. rewrite map_callback_fold. cbn.
  destruct (existsb _ _); reflexivity.
Qed.

(** The valuation method and date of a snapshot, read off the positions. *)
Lemma mapToSnapshot_valuation (now : IsoDate) (details : PortfolioDetails)
  (baseCurrency : string) :
  let r := mapToSnapshot now details baseCurrency in
  (valuationMethod r = cost_basis <->
   exists pos, In pos (details_holdings details)
               /\ Spec.isRetained pos /\ Spec.lacksPriceOrValue pos)
  /\ (asOf r = None <-> valuationMethod r = cost_basis)
  /\ (valuationMethod r = cost_basis \/ asOf r = Some now).
Proof.
  intro r. subst r.
  rewrite mapToSnapshot_method, mapToSnapshot_asOf, mapToSnapshot_missing.
  destruct (existsb hasMissingPrice
              (filter retained (details_holdings details))) eqn:E.
  - repeat split; auto; try discriminate.
    intros _. apply existsb_exists in E. destruct E as [pos [I M]].
    apply filter_In in I. destruct I as [I R].
    exists pos. rewrite <- retained_true, <- hasMissingPrice_true. auto.
  - repeat split; auto; try discriminate.
    intros [pos [I [R M]]]. exfalso.
    apply retained_true in R. apply hasMissingPrice_true in M.
    assert (X : existsb hasMissingPrice
                  (filter retained (details_holdings details)) = true).
    { apply existsb_exists. exists pos. split; [| exact M].
      apply filter_In. auto. }
    congruence.
Qed.

Variable W : Type.
Variable getDetails :
  string -> option string -> string -> W -> Outcome PortfolioDetails * W.
Variable today : W -> IsoDate.

(** C2. In every snapshot that [execute] returns, [valuationMethod] is
    [cost_basis] exactly when some retained position (quantity > 0 or
    value > 0) has a null or zero market price or a null or zero value;
    [asOf] is null exactly when [valuationMethod] is [cost_basis], and is
    the current date otherwise. *)
Theorem snapshot_valuation_method (dateRange : option string)
  (context : ToolContext) (w w' : W) (r : PortfolioSnapshotResult) :
  execute W getDetails today dateRange context w = (Returned r, w') ->
  exists details,
    getDetails (match dateRange with Some d => d | None => "max" end)
      (impersonationId context) (userId context) w
    = (Returned details, w')
    /\ (valuationMethod r = cost_basis <->
        exists pos, In pos (details_holdings details)
                    /\ Spec.isRetained pos /\ Spec.lacksPriceOrValue pos)
    /\ (asOf r = None <-> valuationMethod r = cost_basis)
    /\ (valuationMethod r = cost_basis \/ asOf r = Some (today w')).
Proof.
  unfold execute.
  destruct (getDetails _ (impersonationId context) (userId context) w)
    as [[details | e] w1] eqn:G; [| discriminate].
  intros [= <- <-]. exists details. split; [reflexivity |].
  apply mapToSnapshot_valuation.
Qed.

End Snapshot.

(** The snapshot of the mock portfolio, where every holding is priced:
    the valuation is at market and dated today. *)
Lemma snapshot_valuation_method_mock :
  let r := GetPortfolioSnapshotTool.mapToSnapshot "2026-02-01"
             Examples.MOCK_PORTFOLIO_DETAILS "USD" in
  (asOf r = None <-> valuationMethod r = cost_basis)
  /\ (valuationMethod r = cost_basis \/ asOf r = Some "2026-02-01").
Proof.
  cbv zeta.
  destruct (snapshot_valuation_method nat (fun _ => Examples.mockDetails)
              Examples.todayIs None Examples.toolContext 0%nat 1%nat
              (GetPortfolioSnapshotTool.mapToSnapshot "2026-02-01"
                 Examples.MOCK_PORTFOLIO_DETAILS "USD") eq_refl)
    as [details [_ [_ [A D]]]].
  split; [exact A | exact D].
Defined.

(** ** Rounding *)

Lemma Math_round_bounds (x : Q) :
  (x - (1 # 2) < inject_Z (Math_round x) /\ inject_Z (Math_round x) <= x + (1 # 2))%Q.
Proof.
  unfold Math_round.
  pose proof (Qfloor_le (x + (1 # 2))) as L.
  pose proof (Qlt_floor (x + (1 # 2))) as U.
  rewrite inject_Z_plus in U. change (inject_Z 1) with 1%Q in U.
  split; lra.
Qed.

(** ** Doubles *)

Section DoubleFacts.

Import Double.

Lemma roundEven_error (m : Q) :
  (Qabs (inject_Z (roundEven m) - m) <= 1 # 2)%Q.
Proof.
  unfold roundEven.
  pose proof (Qfloor_le m) as L. pose proof (Qlt_floor m) as U.
  set (k := Qfloor m) in *.
  rewrite inject_Z_plus in U. change (inject_Z 1) with 1%Q in U.
  destruct (m - inject_Z k ?= 1 # 2)%Q eqn:C.
  - apply Qeq_alt in C.
    destruct (Z.even k); [| rewrite inject_Z_plus; change (inject_Z 1) with 1%Q];
      apply Qabs_Qle_condition; split; lra.
  - apply Qlt_alt in C. apply Qabs_Qle_condition; split; lra.
  - apply Qgt_alt in C. rewrite inject_Z_plus. change (inject_Z 1) with 1%Q.
    apply Qabs_Qle_condition; split; lra.
Qed.

Lemma two_nonzero : ~ (2 == 0)%Q.
Proof. discriminate. Qed.

Lemma pow2_pos (e : Z) : (0 < 2 ^ e)%Q.
Proof. apply Qpower_0_lt. reflexivity. Qed.

Lemma pow2_cancel (e : Z) : (2 ^ (- e) * 2 ^ e == 1)%Q.
Proof.
  rewrite <- Qpower_plus by apply two_nonzero.
  replace (- e + e)%Z with 0%Z by lia. reflexivity.
Qed.

Lemma pow2_succ (e : Z) : (2 ^ (e + 1) == 2 ^ e * 2)%Q.
Proof. rewrite Qpower_plus by apply two_nonzero. reflexivity. Qed.

Lemma log2_bounds (n : Z) :
  (0 < n)%Z ->
  (2 ^ Z.log2 n <= inject_Z n)%Q /\ (inject_Z n < 2 ^ (Z.log2 n + 1))%Q.
Proof.
  intro P. destruct (Z.log2_spec n P) as [L U].
  pose proof (Z.log2_nonneg n) as N.
  change 2%Q with (inject_Z 2).
  rewrite <- !Zpower_Qpower by lia. split.
  - rewrite <- Zle_Qle. exact L.
  - rewrite <- Zlt_Qlt. replace (Z.log2 n + 1)%Z with (Z.succ (Z.log2 n)) by lia.
    exact U.
Qed.

(** The exponent puts the scaled value in the binade of 53 bits. *)
Lemma exponent_spec (a : Q) :
  (0 < a)%Q ->
  (2 ^ 52 <= a * 2 ^ (- exponent a))%Q /\ (a * 2 ^ (- exponent a) < 2 ^ 53)%Q.
Proof.
  intro P. unfold exponent.
  destruct a as [n d]. cbn [Qnum Qden].
  assert (Pn : (0 < n)%Z).
  { unfold Qlt in P. cbn in P. lia. }
  destruct (log2_bounds n Pn) as [Ln Un].
  destruct (log2_bounds (Zpos d) eq_refl) as [Ld Ud].
  set (ln := Z.log2 n) in *. set (ld := Z.log2 (Zpos d)) in *.
  set (e0 := (ln - ld - 52)%Z).
  assert (A : (n # d == inject_Z n / inject_Z (Zpos d))%Q) by apply Qmake_Qdiv.
  assert (Pd : (0 < inject_Z (Zpos d))%Q) by reflexivity.
  (* a lies strictly between 2^(ln - ld - 1) and 2^(ln - ld + 1) *)
  assert (E1 : (2 ^ ln == 2 ^ (e0 + 51) * 2 ^ (ld + 1))%Q).
  { rewrite <- Qpower_plus by apply two_nonzero.
    replace (e0 + 51 + (ld + 1))%Z with ln by (unfold e0; lia). reflexivity. }
  assert (E2 : (2 ^ (ln + 1) == 2 ^ (e0 + 53) * 2 ^ ld)%Q).
  { rewrite <- Qpower_plus by apply two_nonzero.
    replace (e0 + 53 + ld)%Z with (ln + 1)%Z by (unfold e0; lia). reflexivity. }
  assert (Lo : (2 ^ (e0 + 51) < n # d)%Q).
  { rewrite A. apply Qlt_shift_div_l; [exact Pd |].
    eapply Qlt_le_trans; [| exact Ln].
    rewrite E1.
    apply Qmult_lt_l; [apply pow2_pos | exact Ud]. }
  assert (Hi : (n # d < 2 ^ (e0 + 53))%Q).
  { rewrite A. apply Qlt_shift_div_r; [exact Pd |].
    eapply Qlt_le_trans; [exact Un |].
    rewrite E2.
    apply Qmult_le_l; [apply pow2_pos | exact Ld]. }
  assert (S51 : (2 ^ (e0 + 51) == 2 ^ e0 * 2 ^ 51)%Q)
    by (apply Qpower_plus, two_nonzero).
  assert (S53 : (2 ^ (e0 + 53) == 2 ^ e0 * 2 ^ 53)%Q)
    by (apply Qpower_plus, two_nonzero).
  pose proof (pow2_pos e0) as P0. pose proof (pow2_pos (- e0)) as P0'.
  pose proof (pow2_cancel e0) as C0.
  assert (M : (2 ^ 51 < (n # d) * 2 ^ (- e0))%Q /\ ((n # d) * 2 ^ (- e0) < 2 ^ 53)%Q).
  { rewrite S51 in Lo. rewrite S53 in Hi.
    split.
    - assert (X : (2 ^ e0 * 2 ^ 51 * 2 ^ (- e0) < (n # d) * 2 ^ (- e0))%Q)
        by (apply Qmult_lt_compat_r; assumption).
      assert (Y : (2 ^ e0 * 2 ^ 51 * 2 ^ (- e0) == 2 ^ 51)%Q).
      { transitivity (2 ^ 51 * (2 ^ (- e0) * 2 ^ e0))%Q; [ring |].
        rewrite C0. ring. }
      rewrite Y in X. exact X.
    - assert (X : ((n # d) * 2 ^ (- e0) < 2 ^ e0 * 2 ^ 53 * 2 ^ (- e0))%Q)
        by (apply Qmult_lt_compat_r; assumption).
      assert (Y : (2 ^ e0 * 2 ^ 53 * 2 ^ (- e0) == 2 ^ 53)%Q).
      { transitivity (2 ^ 53 * (2 ^ (- e0) * 2 ^ e0))%Q; [ring |].
        rewrite C0. ring. }
      rewrite Y in X. exact X. }
  destruct M as [M1 M2].
  destruct (Qle_bool (2 ^ 52) ((n # d) * 2 ^ (- e0))) eqn:B.
  - apply Qle_bool_iff in B. split; assumption.
  - assert (B' : ((n # d) * 2 ^ (- e0) < 2 ^ 52)%Q).
    { apply Qnot_le_lt. intro H. apply Qle_bool_iff in H. congruence. }
    replace (- (e0 - 1))%Z with (- e0 + 1)%Z by lia.
    rewrite pow2_succ.
    change (2 ^ 52)%Q with (2 ^ 51 * 2)%Q at 1.
    change (2 ^ 53)%Q with (2 ^ 52 * 2)%Q.
    set (m := ((n # d) * 2 ^ (- e0))%Q) in *.
    assert (E : ((n # d) * (2 ^ (- e0) * 2) == m * 2)%Q) by (unfold m; ring).
    rewrite E. split; lra.
Qed.

(** The relative error of the nearest double is at most [2^-53]. *)
Lemma nearest_error (q : Q) :
  (Qabs (nearest q - q) <= Qabs q * (1 # 9007199254740992))%Q.
Proof.
  unfold nearest. destruct (Qeq_bool q 0) eqn:Z0.
  - apply Qeq_bool_iff in Z0. rewrite Z0. discriminate.
  - assert (NZ : ~ (q == 0)%Q).
    { intro H. apply Qeq_bool_iff in H. congruence. }
    assert (Pa : (0 < Qabs q)%Q).
    { pose proof (Qabs_nonneg q) as N.
      destruct (Qle_lt_or_eq _ _ N) as [H | H]; [exact H |].
      exfalso. apply NZ. symmetry in H. revert H.
      apply Qabs_case; intros; lra. }
    set (a := Qabs q) in *.
    destruct (exponent_spec a Pa) as [Lo _].
    set (e := exponent a) in *.
    pose proof (roundEven_error (a * 2 ^ (- e))) as R.
    set (k := inject_Z (roundEven (a * 2 ^ (- e)))) in *.
    pose proof (pow2_pos e) as Pe. pose proof (pow2_cancel e) as C.
    assert (Ea : (a == (a * 2 ^ (- e)) * 2 ^ e)%Q).
    { transitivity (a * (2 ^ (- e) * 2 ^ e))%Q; [rewrite C; ring | ring]. }
    set (m := (a * 2 ^ (- e))%Q) in *.
    assert (D : (Qabs (k * 2 ^ e - a) <= a * (1 # 9007199254740992))%Q).
    { apply Qabs_Qle_condition in R. destruct R as [R1 R2].
      change (2 ^ 52)%Q with (4503599627370496 # 1)%Q in Lo.
      apply Qabs_Qle_condition.
      set (p := (2 ^ e)%Q) in *.
      assert (X1 : (0 <= (k - m + (1 # 2)) * p)%Q)
        by (apply Qmult_le_0_compat; lra).
      assert (X2 : (0 <= ((1 # 2) - (k - m)) * p)%Q)
        by (apply Qmult_le_0_compat; lra).
      assert (X3 : (0 <= (m - (4503599627370496 # 1)) * p)%Q)
        by (apply Qmult_le_0_compat; lra).
      rewrite Ea. split.
      - apply Qle_trans with (- ((1 # 2) * p))%Q; [| lra].
        setoid_replace (- (m * p * (1 # 9007199254740992)))%Q
          with (- ((1 # 2) * p) - (m - (4503599627370496 # 1)) * p * (1 # 9007199254740992))%Q
          by ring.
        lra.
      - apply Qle_trans with ((1 # 2) * p)%Q; [lra |].
        setoid_replace (m * p * (1 # 9007199254740992))%Q
          with ((1 # 2) * p + (m - (4503599627370496 # 1)) * p * (1 # 9007199254740992))%Q
          by ring.
        lra. }
    destruct (Qle_bool 0 q) eqn:S.
    + apply Qle_bool_iff in S.
      assert (Eq : (a == q)%Q) by (unfold a; apply Qabs_pos, S).
      setoid_replace (k * 2 ^ e - q)%Q with (k * 2 ^ e - a)%Q
        by (rewrite Eq; ring).
      exact D.
    + assert (S' : (q < 0)%Q).
      { apply Qnot_le_lt. intro H. apply Qle_bool_iff in H. congruence. }
      assert (Eq : (a == - q)%Q) by (unfold a; apply Qabs_neg; lra).
      setoid_replace (- (k * 2 ^ e) - q)%Q with (- (k * 2 ^ e - a))%Q
        by (rewrite Eq; ring).
      rewrite Qabs_opp. exact D.
Qed.

(** The significand of the nearest double has 53 bits. *)
Lemma nearest_significand (a : Q) :
  (0 < a)%Q ->
  (2 ^ 52 <= roundEven (a * 2 ^ (- exponent a)) <= 2 ^ 53)%Z.
Proof.
  intro P. destruct (exponent_spec a P) as [Lo Hi].
  set (m := (a * 2 ^ (- exponent a))%Q) in *.
  change (2 ^ 52)%Q with (inject_Z (2 ^ 52)) in Lo.
  change (2 ^ 53)%Q with (inject_Z (2 ^ 53)) in Hi.
  assert (F1 : (2 ^ 52 <= Qfloor m)%Z).
  { rewrite <- (Qfloor_Z (2 ^ 52)). apply Qfloor_resp_le, Lo. }
  assert (F2 : (Qfloor m < 2 ^ 53)%Z).
  { pose proof (Qfloor_le m) as F. rewrite Zlt_Qlt.
    eapply Qle_lt_trans; [exact F | exact Hi]. }
  unfold roundEven.
  destruct (m - inject_Z (Qfloor m) ?= 1 # 2)%Q; [destruct (Z.even _) | |]; lia.
Qed.

(** The doubles nearest to 0.1 and to 1.005, and two ties between
    neighbouring doubles above [2^53], which go to the even
    significand. *)
Lemma nearest_examples :
  (nearest (1 # 10) == 3602879701896397 # 36028797018963968)%Q
  /\ (nearest (1005 # 1000) == 1131529406376837 # 1125899906842624)%Q
  /\ (nearest (9007199254740993 # 1) == 9007199254740992 # 1)%Q
  /\ (nearest (9007199254740995 # 1) == 9007199254740996 # 1)%Q.
Proof. repeat split; vm_compute; reflexivity. Qed.

Lemma nearest_bounds (q : Q) :
  (q - Qabs q * (1 # 9007199254740992) <= Double.nearest q)%Q
  /\ (Double.nearest q <= q + Qabs q * (1 # 9007199254740992))%Q.
Proof.
  pose proof (nearest_error q) as E. apply Qabs_Qle_condition in E.
  destruct E as [E1 E2]. split; lra.
Qed.

(** The nearest double of a decimal times 100, as a double. *)
Lemma scaled_error (x : Q) :
  (Qabs (Double.nearest (Double.nearest x * 100) - x * 100)
   <= Qabs x * (3 # 10000000000000000) * 100)%Q.
Proof.
  destruct (nearest_bounds x) as [B1 B2].
  destruct (nearest_bounds (Double.nearest x * 100)) as [Y1 Y2].
  set (b := Double.nearest x) in *.
  set (y := Double.nearest (b * 100)) in *.
  assert (Ab : (Qabs (b * 100) <= Qabs x * 100 * (1 + (1 # 9007199254740992)))%Q).
  { apply Qabs_Qle_condition.
    pose proof (Qle_Qabs x) as A1. pose proof (Qle_Qabs (- x)) as A2.
    rewrite Qabs_opp in A2. split; lra. }
  pose proof (Qabs_nonneg x) as Nx.
  set (a := Qabs x) in *. set (ab := Qabs (b * 100)) in *.
  apply Qabs_Qle_condition. split; lra.
Qed.

(** Rounding to two decimals on doubles: off by at most 0.005 and by the
    relative error of two roundings to a double. *)
Lemma round2_error (x : Q) :
  (Qabs (round2 x - x) <= (1 # 200) + Qabs x * (3 # 10000000000000000))%Q.
Proof.
  unfold round2.
  pose proof (scaled_error x) as S. apply Qabs_Qle_condition in S.
  destruct S as [S1 S2].
  destruct (Math_round_bounds (Double.nearest (Double.nearest x * 100)))
    as [L U].
  set (y := Double.nearest (Double.nearest x * 100)) in *.
  set (f := inject_Z (Math_round y)) in *.
  assert (E : (f / 100 == f * (1 # 100))%Q) by (unfold Qdiv; reflexivity).
  rewrite E. pose proof (Qabs_nonneg x) as Nx. set (a := Qabs x) in *.
  apply Qabs_Qle_condition. split; lra.
Qed.

Lemma round2_zero : (round2 0 == 0)%Q.
Proof. reflexivity. Qed.

(** The rounded value is a number of hundredths. *)
Lemma round2_hundredths (x : Q) : exists k : Z, (round2 x == inject_Z k / 100)%Q.
Proof. eexists. reflexivity. Qed.

End DoubleFacts.

Lemma round_dp_error (q : Q) :
  (Qabs (Big.round_dp q - q) <= 1 # 200000000000000000000)%Q.
Proof.
  unfold Big.round_dp.
  change Big.scale with (100000000000000000000 # 1)%Q.
  destruct (Qle_bool 0 q).
  - destruct (Math_round_bounds (q * (100000000000000000000 # 1))) as [L U].
    unfold Math_round in L, U.
    set (f := inject_Z (Qfloor (q * (100000000000000000000 # 1) + (1 # 2)))) in *.
    assert (E : (f / (100000000000000000000 # 1)
                 == f * (1 # 100000000000000000000))%Q)
      by (unfold Qdiv; reflexivity).
    rewrite E. apply Qabs_Qle_condition. split; lra.
  - destruct (Math_round_bounds (- q * (100000000000000000000 # 1))) as [L U].
    unfold Math_round in L, U.
    set (f := inject_Z (Qfloor (- q * (100000000000000000000 # 1) + (1 # 2)))) in *.
    assert (E : (f / (100000000000000000000 # 1)
                 == f * (1 # 100000000000000000000))%Q)
      by (unfold Qdiv; reflexivity).
    rewrite E. apply Qabs_Qle_condition. split; lra.
Qed.

(** ** Sums *)

Lemma sum_cons (x : Q) (xs : list Q) :
  Spec.sum (x :: xs) = (x + Spec.sum xs)%Q.
Proof. reflexivity. Qed.

Lemma fold_left_plus_sum {A : Type} (f : A -> Q) (xs : list A) (a : Q) :
  (fold_left (fun acc x => Big.plus acc (f x)) xs a
   == a + Spec.sum (map f xs))%Q.
Proof.
  revert a. induction xs as [| x xs IH]; intro a.
  - cbn. lra.
  - cbn [fold_left map]. rewrite IH, sum_cons. unfold Big.plus. lra.
Qed.

(** One percent is off the exact share by at most 0.005 and the margin
    of the share. *)
Lemma percentOf_error (total v : Q) :
  (0 < total)%Q ->
  (Qabs (Spec.percentOf total v - 100 * (v / total))
   <= (1 # 200) + Spec.margin (100 * (v / total)))%Q.
Proof.
  intro T. unfold Spec.percentOf, Spec.margin.
  destruct (Qle_bool total 0) eqn:E.
  - apply Qle_bool_iff in E. lra.
  - pose proof (round_dp_error (v / total)) as D.
    pose proof (round2_error (Big.round_dp (v / total) * 100)) as R.
    apply Qabs_Qle_condition in D. apply Qabs_Qle_condition in R.
    set (q := (v / total)%Q) in *. set (d := Big.round_dp q) in *.
    assert (Ax : (Qabs (d * 100)
                  <= Qabs (100 * q) + (1 # 2000000000000000000))%Q).
    { pose proof (Qle_Qabs (100 * q)) as A1.
      pose proof (Qle_Qabs (- (100 * q))) as A2. rewrite Qabs_opp in A2.
      apply Qabs_Qle_condition. split; lra. }
    pose proof (Qabs_nonneg (100 * q)) as N.
    set (a := Qabs (100 * q)) in *. set (ax := Qabs (d * 100)) in *.
    set (p := round2 (d * 100)) in *.
    apply Qabs_Qle_condition. split; lra.
Qed.

(** The sum of the percents against the sum of the shares. *)
Lemma percent_sum_error (total : Q) (vs : list Q) :
  (0 < total)%Q ->
  (Qabs (Spec.sum (map (Spec.percentOf total) vs)
         - 100 * (Spec.sum vs / total))
   <= inject_Z (Z.of_nat (List.length vs)) * (1 # 200)
      + Spec.sum (map (fun v => Spec.margin (100 * (v / total))) vs))%Q.
Proof.
  intro T. induction vs as [| v vs IH].
  - cbn [map List.length Z.of_nat]. change (Spec.sum []) with 0%Q.
    change (inject_Z 0) with 0%Q.
    setoid_replace (0 - 100 * (0 / total))%Q with 0%Q by (unfold Qdiv; ring).
    cbn. discriminate.
  - cbn [map List.length]. rewrite !sum_cons.
    rewrite Nat2Z.inj_succ. unfold Z.succ. rewrite inject_Z_plus.
    change (inject_Z 1) with 1%Q.
    pose proof (percentOf_error total v T) as P.
    apply Qabs_Qle_condition in P. apply Qabs_Qle_condition in IH.
    apply Qabs_Qle_condition.
    unfold Qdiv in *.
    set (i := (/ total)%Q) in *.
    set (s := Spec.sum vs) in *.
    set (ps := Spec.sum (map (Spec.percentOf total) vs)) in *.
    set (p := Spec.percentOf total v) in *.
    set (g := Spec.margin (100 * (v * i))) in *.
    set (gs := Spec.sum (map (fun v0 => Spec.margin (100 * (v0 * i))) vs)) in *.
    set (n := inject_Z (Z.of_nat (List.length vs))) in *.
    split; nra.
Qed.

(** The margins of non-negative values add up to the margin of their
    sum. *)
Lemma margin_sum (total : Q) (vs : list Q) :
  (0 < total)%Q ->
  Forall (fun v => (0 <= v)%Q) vs ->
  (Spec.sum (map (fun v => Spec.margin (100 * (v / total))) vs)
   == (inject_Z (Z.of_nat (List.length vs)) + 100 * (Spec.sum vs / total))
      * (1 # 1000000000000000))%Q.
Proof.
  intros T N. induction N as [| v vs P _ IH].
  - cbn [map List.length Z.of_nat]. change (Spec.sum []) with 0%Q.
    unfold Qdiv. ring.
  - cbn [map List.length]. rewrite !sum_cons, IH.
    rewrite Nat2Z.inj_succ. unfold Z.succ. rewrite inject_Z_plus.
    change (inject_Z 1) with 1%Q.
    unfold Spec.margin.
    assert (A : (Qabs (100 * (v / total)) == 100 * (v / total))%Q).
    { apply Qabs_pos. apply Qmult_le_0_compat; [discriminate |].
      apply Qle_shift_div_l; [exact T | lra]. }
    rewrite A. unfold Qdiv. ring.
Qed.

(** The percents of non-negative values that make up the total. *)
Lemma percent_sum_tolerance (total : Q) (vs : list Q) :
  (0 < total)%Q ->
  Forall (fun v => (0 <= v)%Q) vs ->
  (Spec.sum vs == total)%Q ->
  (Qabs (Spec.sum (map (Spec.percentOf total) vs) - 100)
   <= Spec.sumTolerance (List.length vs))%Q.
Proof.
  intros T N S.
  pose proof (percent_sum_error total vs T) as B.
  rewrite (margin_sum total vs T N) in B.
  assert (H100 : (100 * (Spec.sum vs / total) == 100)%Q)
    by (rewrite S; field; lra).
  rewrite H100 in B. exact B.
Qed.

Lemma sumTolerance_199 (n : nat) :
  (n <= 199)%nat -> (Spec.sumTolerance n <= 1)%Q.
Proof.
  intro Small. unfold Spec.sumTolerance.
  assert (N : (inject_Z (Z.of_nat n) <= 199)%Q).
  { change 199%Q with (inject_Z 199). rewrite <- Zle_Qle. lia. }
  assert (P : (0 <= inject_Z (Z.of_nat n))%Q).
  { change 0%Q with (inject_Z 0). rewrite <- Zle_Qle. lia. }
  lra.
Qed.

(** ** Allocation percents of the snapshot *)

Section SnapshotAllocation.

Import GetPortfolioSnapshotTool.

Lemma holdingValue_valueOf (baseCurrency : string) (pos : PortfolioPosition) :
  holdingValue (toHoldingRow baseCurrency pos) = Spec.valueOf pos.
Proof.
  unfold holdingValue, toHoldingRow, Spec.valueOf, if_truthy; cbn.
  destruct (pos_valueInBaseCurrency pos) as [v |];
    destruct (pos_investment pos) as [c |];
    try destruct (Qeq_bool v 0); try destruct (Qeq_bool c 0); reflexivity.
Qed.

Lemma symbolRow_percent (baseCurrency : string) (total : Q) (h : HoldingRow) :
  (percent (symbolRow baseCurrency total h)
   == Spec.percentOf total (holdingValue h))%Q.
Proof.
  unfold symbolRow, Spec.percentOf, Big.gt, Big.times, Big.div; cbn.
  destruct (Qle_bool total 0); cbn; [apply round2_zero | reflexivity].
Qed.

Lemma sum_pointwise {A B : Type} (f : A -> Q) (g : B -> Q)
  (xs : list A) (ys : list B) :
  Forall2 (fun x y => (f x == g y)%Q) xs ys ->
  (Spec.sum (map f xs) == Spec.sum (map g ys))%Q.
Proof.
  induction 1 as [| x y xs ys E _ IH]; cbn [map].
  - reflexivity.
  - rewrite !sum_cons, E, IH. reflexivity.
Qed.

Lemma Forall2_map_left {A B : Type} (P : B -> A -> Prop) (f : A -> B)
  (xs : list A) :
  (forall x, P (f x) x) -> Forall2 P (map f xs) xs.
Proof.
  intro H. induction xs as [| x xs IH]; cbn; constructor; auto.
Qed.

Lemma mapToSnapshot_total now details baseCurrency :
  (amount (totalValue (mapToSnapshot now details baseCurrency))
   == Spec.sum (map Spec.valueOf
                  (filter retained (details_holdings details))))%Q.
Proof.
  unfold mapToSnapshot. rewrite map_callback_fold. cbn.
  unfold computeTotalValue. rewrite fold_left_plus_sum, map_map.
  rewrite (map_ext _ Spec.valueOf (holdingValue_valueOf baseCurrency)). lra.
Qed.

Lemma mapToSnapshot_rows now details baseCurrency :
  allocationBySymbol (mapToSnapshot now details baseCurrency)
  = map (fun pos =>
           symbolRow baseCurrency
             (amount (totalValue (mapToSnapshot now details baseCurrency)))
             (toHoldingRow baseCurrency pos))
      (filter retained (details_holdings details)).
Proof.
  unfold mapToSnapshot. rewrite map_callback_fold. cbn.
  rewrite map_map. reflexivity.
Qed.

Lemma symbolRow_zero (baseCurrency : string) (total : Q) (h : HoldingRow) :
  (total <= 0)%Q -> (percent (symbolRow baseCurrency total h) == 0)%Q.
Proof.
  intro T. rewrite symbolRow_percent. unfold Spec.percentOf.
  apply Qle_bool_iff in T. rewrite T. reflexivity.
Qed.

Lemma symbolRow_hundredths (baseCurrency : string) (total : Q)
  (h : HoldingRow) :
  exists k : Z,
    (percent (symbolRow baseCurrency total h) == inject_Z k / 100)%Q.
Proof. unfold symbolRow. cbn [percent]. apply round2_hundredths. Qed.

(** C3, as the code has it. Each [allocationBySymbol] entry carries the
    holding's value (market value, else cost basis, else zero) and its
    percent. When the total value is positive (and the share
    [value / totalValue * 100] is below 1e300 in size, beyond which the
    doubles of the code overflow), the percent is a number of hundredths
    that lies within 0.005, and the margin of the 20-digit quotient and of
    the double arithmetic, of the share: it is the share rounded to 2
    decimals, where a share as close as the margin to a rounding tie may
    go either way. The percent is 0 when the total value is not positive.
    Whenever the total value is positive and no value is negative, the sum
    of the percents is off 100 by at most 0.005 per entry and the margins,
    which stays within 1.0 up to 199 entries. *)
Theorem snapshot_allocation_percent (now : IsoDate)
  (details : PortfolioDetails) (baseCurrency : string) :
  let r := mapToSnapshot now details baseCurrency in
  let kept := filter retained (details_holdings details) in
  let total := amount (totalValue r) in
  (total == Spec.sum (map Spec.valueOf kept))%Q
  /\ Forall2
       (fun row pos =>
          let share := (100 * (Spec.valueOf pos / total))%Q in
          key row = pos_symbol pos
          /\ amount (value row) = Spec.valueOf pos
          /\ ((0 < total)%Q ->
              (Qabs share <= inject_Z (10 ^ 300))%Q ->
              (exists k : Z, (percent row == inject_Z k / 100)%Q)
              /\ (Qabs (percent row - share)
                  <= (1 # 200)
                     + (1 + Qabs share) * (1 # 1000000000000000))%Q)
          /\ ((total <= 0)%Q -> (percent row == 0)%Q))
       (allocationBySymbol r) kept
  /\ ((0 < total)%Q ->
      Forall (fun pos => (0 <= Spec.valueOf pos)%Q) kept ->
      let n := inject_Z (Z.of_nat (List.length (allocationBySymbol r))) in
      (Qabs (Spec.sum (map percent (allocationBySymbol r)) - 100)
       <= n * (1 # 200) + (n + 100) * (1 # 1000000000000000))%Q
      /\ ((List.length (allocationBySymbol r) <= 199)%nat ->
          (Qabs (Spec.sum (map percent (allocationBySymbol r)) - 100) <= 1)%Q)).
Proof.
  intros r kept total.
  assert (Total : (total == Spec.sum (map Spec.valueOf kept))%Q)
    by apply mapToSnapshot_total.
  assert (Rows : Forall2
       (fun row pos =>
          key row = pos_symbol pos
          /\ amount (value row) = Spec.valueOf pos
          /\ (exists k : Z, (percent row == inject_Z k / 100)%Q)
          /\ (percent row == Spec.percentOf total (Spec.valueOf pos))%Q)
       (allocationBySymbol r) kept).
  { subst r. rewrite mapToSnapshot_rows. fold kept. fold total.
    apply Forall2_map_left. intro pos.
    split; [reflexivity |].
    split; [cbn; apply holdingValue_valueOf |].
    split; [apply symbolRow_hundredths |].
    rewrite symbolRow_percent, holdingValue_valueOf. reflexivity. }
  split; [exact Total |]. split.
  - clear Total. induction Rows as [| row pos rows ps [K [V [H E]]] _ IH];
      constructor; [| exact IH].
    cbv zeta. split; [exact K |]. split; [exact V |].
    split.
    + intros T _. split; [exact H |].
      pose proof (percentOf_error total (Spec.valueOf pos) T) as P.
      unfold Spec.margin in P.
      eapply Qle_trans; [| exact P].
      apply Qle_lteq. right. apply Qabs_wd.
      apply Qplus_comp; [exact E | reflexivity].
    + intro T. eapply Qeq_trans; [exact E |]. unfold Spec.percentOf.
      apply Qle_bool_iff in T. rewrite T. reflexivity.
  - intros T N n.
    assert (Len : List.length (allocationBySymbol r) = List.length kept).
    { clear - Rows. induction Rows; cbn; auto. }
    assert (S1 : (Spec.sum (map percent (allocationBySymbol r))
                  == Spec.sum (map (Spec.percentOf total)
                                 (map Spec.valueOf kept)))%Q).
    { rewrite map_map.
      apply (sum_pointwise percent
               (fun pos => Spec.percentOf total (Spec.valueOf pos))).
      clear - Rows. induction Rows as [| ? ? ? ? [_ [_ [_ E]]]];
        constructor; auto. }
    assert (Bound :
      (Qabs (Spec.sum (map percent (allocationBySymbol r)) - 100)
       <= Spec.sumTolerance (List.length (allocationBySymbol r)))%Q).
    { pose proof (percent_sum_tolerance total (map Spec.valueOf kept) T) as B.
      rewrite length_map, <- Len in B.
      eapply Qle_trans; [| apply B].
      - apply Qle_lteq. right. apply Qabs_wd.
        apply Qplus_comp; [exact S1 | reflexivity].
      - apply Forall_map. exact N.
      - symmetry. exact Total. }
    split; [exact Bound |].
    intro Small. eapply Qle_trans; [exact Bound |].
    apply sumTolerance_199, Small.
Qed.

(** The three holdings of the mock portfolio: the percents 37.08, 39.18
    and 23.75, which sum to 100.01. *)
Lemma snapshot_allocation_percent_mock :
  let rows :=
    allocationBySymbol
      (mapToSnapshot "2026-02-01" Examples.MOCK_PORTFOLIO_DETAILS "USD") in
  Forall2 (fun row p => (percent row == p)%Q) rows
    [3708 # 100; 3918 # 100; 2375 # 100]%Q
  /\ (Qabs (Spec.sum (map percent rows) - 100) <= 1)%Q.
Proof.
  cbv zeta. split.
  - vm_compute. repeat constructor.
  - refine (proj2 (proj2 (proj2
              (snapshot_allocation_percent "2026-02-01"
                 Examples.MOCK_PORTFOLIO_DETAILS "USD")) _ _) _).
    + vm_compute. reflexivity.
    + repeat constructor; vm_compute; discriminate.
    + vm_compute. lia.
Defined.

(** C3 as stated fails: 215 holdings worth 1 each have a positive total,
    every percent is 0.47, and the percents sum to 101.05. *)
Lemma snapshot_percent_sum_off_by_more_than_one :
  let r := mapToSnapshot "2026-02-01" (Examples.unitHoldings 215) "USD" in
  (0 < amount (totalValue r))%Q
  /\ Forall (fun row => (percent row == 47 # 100)%Q) (allocationBySymbol r)
  /\ (Spec.sum (map percent (allocationBySymbol r)) == 10105 # 100)%Q
  /\ (1 < Qabs (Spec.sum (map percent (allocationBySymbol r)) - 100))%Q.
Proof.
  cbv zeta. split; [vm_compute; reflexivity |].
  split; [| split; vm_compute; reflexivity].
  apply Forall_forall. intros row H.
  apply Qeq_bool_iff. revert row H.
  apply (proj1 (forallb_forall (fun row => Qeq_bool (percent row) (47 # 100)) _)).
  vm_compute. reflexivity.
Qed.

(** A share at a rounding tie: 201 of 20000 is 1.005 percent; the nearest
    double of 1.005 lies below it, its product with 100 is the double
    100.49999999999999, and the percent is 1.00. *)
Lemma snapshot_percent_at_a_tie :
  let r := mapToSnapshot "2026-02-01" Examples.tieHoldings "USD" in
  (100 * (201 / amount (totalValue r)) == 1005 # 1000)%Q
  /\ (Double.nearest (Double.nearest (1005 # 1000) * 100)
      == 7072058789855231 # 70368744177664)%Q
  /\ Forall2 (fun row p => (percent row == p)%Q) (allocationBySymbol r)
       [100 # 100; 9900 # 100]%Q.
Proof.
  cbv zeta. split; [vm_compute; reflexivity |].
  split; [vm_compute; reflexivity |].
  vm_compute. repeat constructor.
Qed.

End SnapshotAllocation.

(** ** JavaScript maps *)

Section JsMapFacts.

Variable V : Type.
Implicit Types (m : JsMap.t V) (k : string) (v : V).

Lemma get_set_same k v m : JsMap.get k (JsMap.set k v m) = Some v.
Proof.
  induction m as [| [k' v'] m IH]; cbn.
  - rewrite String.eqb_refl. reflexivity.
  - destruct (String.eqb k k') eqn:E; cbn; rewrite E; auto.
Qed.

Lemma get_set_other k k' v m :
  k <> k' -> JsMap.get k' (JsMap.set k v m) = JsMap.get k' m.
Proof.
  intro N. induction m as [| [k0 v0] m IH]; cbn.
  - apply String.eqb_neq in N. rewrite String.eqb_sym, N. reflexivity.
  - destruct (String.eqb k k0) eqn:E; cbn.
    + apply String.eqb_eq in E. subst k0.
      apply String.eqb_neq in N. rewrite String.eqb_sym, N. reflexivity.
    + rewrite IH. reflexivity.
Qed.

Lemma get_None_keys k m : JsMap.get k m = None <-> ~ In k (JsMap.keys m).
Proof.
  induction m as [| [k' v'] m IH]; cbn.
  - tauto.
  - destruct (String.eqb k k') eqn:E.
    + apply String.eqb_eq in E. subst. split; [discriminate | tauto].
    + apply String.eqb_neq in E. rewrite IH. split.
      * intros H [X | X]; [congruence | tauto].
      * tauto.
Qed.

Lemma keys_set k v m :
  JsMap.keys (JsMap.set k v m)
  = if existsb (String.eqb k) (JsMap.keys m) then JsMap.keys m
    else JsMap.keys m ++ [k].
Proof.
  induction m as [| [k' v'] m IH]; cbn.
  - reflexivity.
  - destruct (String.eqb k k') eqn:E; cbn.
    + reflexivity.
    + unfold JsMap.keys in IH. rewrite IH.
      destruct (existsb _ _); reflexivity.
Qed.

Lemma NoDup_keys_set k v m :
  NoDup (JsMap.keys m) -> NoDup (JsMap.keys (JsMap.set k v m)).
Proof.
  intro H. rewrite keys_set.
  destruct (existsb (String.eqb k) (JsMap.keys m)) eqn:E; [exact H |].
  apply NoDup_app; [exact H | repeat constructor; auto |].
  intros x I [X | []]. subst x.
  assert (X : existsb (String.eqb k) (JsMap.keys m) = true).
  { apply existsb_exists. exists k. split; [exact I | apply String.eqb_refl]. }
  congruence.
Qed.

Lemma In_get k v m :
  NoDup (JsMap.keys m) -> In (k, v) m -> JsMap.get k m = Some v.
Proof.
  induction m as [| [k' v'] m IH]; cbn; intros N I; [contradiction |].
  inversion N as [| ? ? NI N']; subst.
  destruct I as [I | I].
  - injection I as -> ->. rewrite String.eqb_refl. reflexivity.
  - destruct (String.eqb k k') eqn:E.
    + apply String.eqb_eq in E. subst k'. exfalso. apply NI.
      change k with (fst (k, v)). apply in_map. exact I.
    + auto.
Qed.

Lemma get_In k v m : JsMap.get k m = Some v -> In (k, v) m.
Proof.
  induction m as [| [k' v'] m IH]; cbn; [discriminate |].
  destruct (String.eqb k k') eqn:E.
  - apply String.eqb_eq in E. subst. intros [= ->]. auto.
  - auto.
Qed.

End JsMapFacts.

Arguments get_set_same {V}.
Arguments get_set_other {V}.
Arguments NoDup_keys_set {V}.
Arguments In_get {V}.
Arguments get_In {V}.
Arguments get_None_keys {V}.

(** ** The allocation simulation *)

Section Simulation.

Import SimulateAllocationChangeTool.

Variable show_number : Q -> string.
Variable toFixed2 : Q -> string.

Local Abbreviation applyChange := (applyChange show_number toFixed2).
Local Abbreviation applyChanges := (applyChanges show_number toFixed2).
Local Abbreviation simulate := (simulate show_number toFixed2).
Local Abbreviation clampNote := (clampNote show_number toFixed2).

Lemma applyChanges_snoc st pre change :
  applyChanges st (pre ++ [change]) = applyChange (applyChanges st pre) change.
Proof.
  unfold SimulateAllocationChangeTool.applyChanges.
  rewrite fold_left_app. reflexivity.
Qed.

(** One oversell: the branch [newValue.lt(0)] of the loop body. *)
Lemma applyChange_oversell st change :
  ch_type change = "sell" ->
  (currentValueOf (ch_symbol change) st < amount (ch_amount change))%Q ->
  applyChange st change
  = {| valueMap := JsMap.set (ch_symbol change) 0%Q (valueMap st);
       newTotal := (newTotal st - currentValueOf (ch_symbol change) st)%Q;
       loopNotes :=
         loopNotes st
         ++ [clampNote change (currentValueOf (ch_symbol change) st)] |}.
Proof.
  intros T L. unfold SimulateAllocationChangeTool.applyChange.
  rewrite T.
  change (String.eqb "sell" "buy") with false.
  change (String.eqb "sell" "sell") with true. cbv iota.
  unfold Big.lt, Big.minus.
  destruct (Qle_bool 0 _) eqn:E; [| reflexivity].
  apply Qle_bool_iff in E. lra.
Qed.

(** The simulation with and without a last change that oversells. *)
Lemma simulate_oversell (now : IsoDate) (baseCurrency : string)
  (positions : list PortfolioPosition) (pre : list AllocationChange)
  (change : AllocationChange) :
  let before := applyChanges (initialState positions) pre in
  let after := applyChanges (initialState positions) (pre ++ [change]) in
  let current := currentValueOf (ch_symbol change) before in
  let r0 := simulate now baseCurrency positions pre in
  let r1 := simulate now baseCurrency positions (pre ++ [change]) in
  ch_type change = "sell" ->
  (current < amount (ch_amount change))%Q ->
  JsMap.get (ch_symbol change) (valueMap after) = Some 0%Q
  /\ notes r1 = notes r0 ++ [clampNote change current]
  /\ amount (newTotalValue r1) = (amount (newTotalValue r0) - current)%Q
  /\ amount (originalTotalValue r1) = amount (originalTotalValue r0).
Proof.
  intros before after current r0 r1 T L.
  subst after r0 r1. unfold SimulateAllocationChangeTool.simulate. cbn.
  rewrite applyChanges_snoc. fold before.
  rewrite (applyChange_oversell before change T L). cbn.
  rewrite get_set_same. auto.
Qed.

Lemma NoDup_buildValueMap positions :
  NoDup (JsMap.keys (buildValueMap positions)).
Proof.
  unfold buildValueMap.
  assert (G : forall m, NoDup (JsMap.keys m) ->
    NoDup (JsMap.keys
      (fold_left
         (fun m pos =>
            if retained pos
            then JsMap.set (pos_symbol pos) (trackedValue pos) m else m)
         positions m))).
  { induction positions as [| p ps IH]; intros m N; cbn; [exact N |].
    apply IH. destruct (retained p); [apply NoDup_keys_set |]; exact N. }
  apply G. constructor.
Qed.

Lemma NoDup_applyChange st change :
  NoDup (JsMap.keys (valueMap st)) ->
  NoDup (JsMap.keys (valueMap (applyChange st change))).
Proof.
  intro N. unfold SimulateAllocationChangeTool.applyChange.
  destruct (String.eqb (ch_type change) "buy"); cbn;
    [apply NoDup_keys_set; exact N |].
  destruct (String.eqb (ch_type change) "sell"); [| exact N].
  destruct (Big.lt _ 0); cbn; apply NoDup_keys_set; exact N.
Qed.

Lemma NoDup_applyChanges changes st :
  NoDup (JsMap.keys (valueMap st)) ->
  NoDup (JsMap.keys (valueMap (applyChanges st changes))).
Proof.
  revert st. induction changes as [| c cs IH]; intros st N; cbn; [exact N |].
  apply IH, NoDup_applyChange, N.
Qed.

Lemma In_insertDesc x y rows : In y (insertDesc x rows) <-> y = x \/ In y rows.
Proof.
  induction rows as [| z rows IH]; cbn.
  - intuition.
  - destruct (Qle_bool (percent z) (percent x)); cbn; [intuition |].
    rewrite IH. intuition.
Qed.

Lemma In_sortDesc y rows : In y (sortDesc rows) <-> In y rows.
Proof.
  induction rows as [| x rows IH]; cbn; [tauto |].
  rewrite In_insertDesc, IH. intuition.
Qed.

Lemma In_allocationRows baseCurrency total m row :
  In row (allocationRows baseCurrency total m) ->
  In (key row, amount (value row)) m /\ (0 < amount (value row))%Q.
Proof.
  unfold allocationRows. rewrite in_flat_map.
  intros [[symbol val] [I H]].
  unfold Big.gt in H. destruct (Qle_bool val 0) eqn:E; cbn in H; [tauto |].
  destruct H as [<- | []]. cbn. split; [exact I |].
  apply gt0_true. unfold gt0. rewrite E. reflexivity.
Qed.

Lemma sumValues_sum m : (sumValues m == Spec.sum (JsMap.values m))%Q.
Proof.
  unfold sumValues.
  rewrite (fold_left_plus_sum (fun v => v)), map_id. lra.
Qed.

Lemma sum_split symbol v0 (m : JsMap.t Q) :
  NoDup (JsMap.keys m) -> JsMap.get symbol m = Some v0 ->
  (Spec.sum (JsMap.values m) == v0 + Spec.sumOthers symbol m)%Q.
Proof.
  unfold Spec.sumOthers, JsMap.values.
  induction m as [| [k v] m IH]; cbn [JsMap.get map filter fst snd];
    intros N G; [discriminate |].
  inversion N as [| ? ? NI N']; subst.
  destruct (String.eqb symbol k) eqn:E; cbn [negb].
  - apply String.eqb_eq in E. subst k. injection G as ->.
    rewrite sum_cons.
    assert (F : filter (fun e : string * Q => negb (String.eqb symbol (fst e))) m = m).
    { clear - NI. induction m as [| [k v] m IH]; cbn; [reflexivity |].
      destruct (String.eqb symbol k) eqn:E.
      - apply String.eqb_eq in E. subst. exfalso. apply NI. cbn. auto.
      - cbn. rewrite IH; [reflexivity |]. intro X. apply NI. cbn. auto. }
    rewrite F. reflexivity.
  - cbn [map snd]. rewrite !sum_cons, (IH N' G). lra.
Qed.

(** The rows of the simulation against the map of values it ends with. *)
Lemma simulate_positive_rows (now : IsoDate)
  (baseCurrency : string) (positions : list PortfolioPosition)
  (changes : list AllocationChange) :
  let r := simulate now baseCurrency positions changes in
  let final := valueMap (applyChanges (initialState positions) changes) in
  (forall row, In row (newAllocationBySymbol r) ->
     JsMap.get (key row) final = Some (amount (value row))
     /\ (0 < amount (value row))%Q)
  /\ (forall symbol v, JsMap.get symbol final = Some v -> (v <= 0)%Q ->
       ~ In symbol (map key (newAllocationBySymbol r)))
  /\ (forall symbol v0,
       JsMap.get symbol (buildValueMap positions) = Some v0 ->
       (amount (originalTotalValue r)
        == v0 + Spec.sumOthers symbol (buildValueMap positions))%Q).
Proof.
  intros r final.
  assert (N : NoDup (JsMap.keys final)).
  { apply NoDup_applyChanges. cbn. apply NoDup_buildValueMap. }
  assert (Rows : forall row, In row (newAllocationBySymbol r) ->
     JsMap.get (key row) final = Some (amount (value row))
     /\ (0 < amount (value row))%Q).
  { intros row I. subst r. cbn in I. apply (proj1 (In_sortDesc _ _)) in I.
    apply In_allocationRows in I. destruct I as [I P].
    split; [apply In_get; assumption | exact P]. }
  split; [exact Rows |]. split.
  - intros symbol v G L I. apply in_map_iff in I.
    destruct I as [row [K I]]. destruct (Rows row I) as [G' P].
    rewrite K, G in G'. injection G' as ->. lra.
  - intros symbol v0 G. subst r. cbn.
    rewrite sumValues_sum. apply sum_split; [apply NoDup_buildValueMap | exact G].
Qed.

Variable W : Type.
Variable getDetails :
  option string -> string -> W -> Outcome PortfolioDetails * W.
Variable today : W -> IsoDate.

Local Abbreviation execute :=
  (execute show_number toFixed2 W getDetails today).

(** [execute] returns whenever the provider does. *)
Lemma execute_returns (changes : list AllocationChange)
  (context : ToolContext) (w w' : W) (details : PortfolioDetails) :
  getDetails (impersonationId context) (userId context) w
  = (Returned details, w') ->
  execute changes context w
  = (Returned (simulate (today w') (baseCurrency context)
                 (details_holdings details) changes), w').
Proof.
  intro G. unfold SimulateAllocationChangeTool.execute. rewrite G. reflexivity.
Qed.

(** The notes only grow. *)
Lemma applyChanges_notes (post : list AllocationChange) :
  forall st, exists later,
    loopNotes (applyChanges st post) = loopNotes st ++ later.
Proof.
  induction post as [| c post IH]; intro st; cbn.
  - exists []. rewrite app_nil_r. reflexivity.
  - destruct (IH (applyChange st c)) as [later E].
    fold (applyChanges (applyChange st c) post). rewrite E.
    unfold SimulateAllocationChangeTool.applyChange.
    destruct (String.eqb (ch_type c) "buy"); cbn [loopNotes];
      [rewrite <- app_assoc; eexists; reflexivity |].
    destruct (String.eqb (ch_type c) "sell"); [| eexists; reflexivity].
    destruct (Big.lt _ 0); cbn [loopNotes];
      [rewrite <- app_assoc |]; eexists; reflexivity.
Qed.

(** A change leaves the values of the other symbols alone. *)
Lemma applyChanges_other (symbol : string) (post : list AllocationChange) :
  Forall (fun c => ch_symbol c <> symbol) post ->
  forall st,
    JsMap.get symbol (valueMap (applyChanges st post))
    = JsMap.get symbol (valueMap st).
Proof.
  induction 1 as [| c post N _ IH]; intro st; cbn; [reflexivity |].
  fold (applyChanges (applyChange st c) post). rewrite IH.
  unfold SimulateAllocationChangeTool.applyChange.
  destruct (String.eqb (ch_type c) "buy"); cbn [valueMap];
    [apply get_set_other, N |].
  destruct (String.eqb (ch_type c) "sell"); [| reflexivity].
  destruct (Big.lt _ 0); cbn [valueMap]; apply get_set_other, N.
Qed.

Lemma retained_kept (pos : PortfolioPosition) : retained pos = Spec.kept pos.
Proof.
  assert (P : forall q, gt0 q = Spec.positive q).
  { intro q. unfold gt0, Spec.positive.
    destruct (Qle_bool q 0) eqn:E; cbn [negb].
    - apply Qle_bool_iff in E. destruct (0 ?= q)%Q eqn:C; try reflexivity.
      apply Qlt_alt in C. lra.
    - destruct (0 ?= q)%Q eqn:C; [| reflexivity |].
      + apply Qeq_alt in C.
        assert (X : Qle_bool q 0 = true) by (apply Qle_bool_iff; lra).
        congruence.
      + apply Qgt_alt in C.
        assert (X : Qle_bool q 0 = true) by (apply Qle_bool_iff; lra).
        congruence. }
  unfold retained, Spec.kept. rewrite P.
  destruct (pos_valueInBaseCurrency pos) as [v |]; cbn [or0].
  - rewrite P. reflexivity.
  - reflexivity.
Qed.

Lemma trackedValue_trackedOf (pos : PortfolioPosition) :
  trackedValue pos = Spec.trackedOf pos.
Proof.
  unfold trackedValue, Spec.trackedOf.
  destruct (pos_valueInBaseCurrency pos), (pos_investment pos); reflexivity.
Qed.

(** The map of values against the positions of the provider. *)
Lemma buildValueMap_get (positions : list PortfolioPosition) (symbol : string) :
  JsMap.get symbol (buildValueMap positions) = Spec.trackedAt positions symbol.
Proof.
  unfold buildValueMap.
  assert (G : forall m,
    JsMap.get symbol
      (fold_left
         (fun m pos =>
            if retained pos then JsMap.set (pos_symbol pos) (trackedValue pos) m
            else m) positions m)
    = match Spec.trackedAt positions symbol with
      | Some v => Some v
      | None => JsMap.get symbol m
      end).
  { induction positions as [| pos rest IH]; intro m; cbn [fold_left Spec.trackedAt];
      [reflexivity |].
    rewrite IH. destruct (Spec.trackedAt rest symbol); [reflexivity |].
    rewrite retained_kept, trackedValue_trackedOf.
    destruct (Spec.kept pos); cbn [andb]; [| reflexivity].
    destruct (String.eqb symbol (pos_symbol pos)) eqn:E.
    - apply String.eqb_eq in E. subst symbol. apply get_set_same.
    - apply String.eqb_neq in E. apply get_set_other. congruence. }
  rewrite G. destruct (Spec.trackedAt positions symbol); reflexivity.
Qed.

Lemma set_new (k : string) (v : Q) (m : JsMap.t Q) :
  ~ In k (JsMap.keys m) -> JsMap.set k v m = m ++ [(k, v)].
Proof.
  induction m as [| [k' v'] m IH]; cbn; intro N; [reflexivity |].
  destruct (String.eqb k k') eqn:E.
  - apply String.eqb_eq in E. subst. exfalso. apply N. auto.
  - rewrite IH; [reflexivity |]. intro X. apply N. auto.
Qed.

(** With one kept position per symbol, the map lists the kept positions
    in their order. *)
Lemma buildValueMap_distinct (positions : list PortfolioPosition) :
  NoDup (map pos_symbol (filter Spec.kept positions)) ->
  buildValueMap positions
  = map (fun pos => (pos_symbol pos, Spec.trackedOf pos))
      (filter Spec.kept positions).
Proof.
  unfold buildValueMap.
  assert (G : forall m,
    NoDup (JsMap.keys m ++ map pos_symbol (filter Spec.kept positions)) ->
    fold_left
      (fun m pos =>
         if retained pos then JsMap.set (pos_symbol pos) (trackedValue pos) m
         else m) positions m
    = m ++ map (fun pos => (pos_symbol pos, Spec.trackedOf pos))
             (filter Spec.kept positions)).
  { induction positions as [| pos rest IH]; intros m N; cbn [fold_left filter].
    - cbn. rewrite app_nil_r. reflexivity.
    - rewrite retained_kept, trackedValue_trackedOf.
      cbn [filter] in N. destruct (Spec.kept pos).
      + cbn [map] in N |- *.
        assert (Fresh : ~ In (pos_symbol pos) (JsMap.keys m)).
        { intro I. apply NoDup_remove_2 in N. apply N.
          apply in_or_app. left. exact I. }
        rewrite (set_new _ _ _ Fresh), IH.
        * rewrite <- app_assoc. reflexivity.
        * unfold JsMap.keys in *. rewrite map_app, <- app_assoc. exact N.
      + apply IH, N. }
  intro N. rewrite (G JsMap.empty); [reflexivity | exact N].
Qed.

(** C5. A sell whose amount exceeds the value tracked for its symbol when
    the change is applied does not make the tool fail, wherever it stands
    in the list of changes: [execute] returns, the symbol's value becomes
    exactly 0, the note "Warning: Selling (currency) (amount) of (symbol)
    exceeds current value (value). Clamped to 0." is appended to the
    notes, and the new total goes down by the value tracked before the
    clamp, not by the amount asked for. The changes that follow add
    their notes after it, and as long as none of them names the symbol,
    the symbol is absent from the new allocation. *)
Theorem oversell_clamps_to_zero (context : ToolContext) (w w' : W)
  (details : PortfolioDetails) (pre : list AllocationChange)
  (change : AllocationChange) (post : list AllocationChange) :
  let positions := details_holdings details in
  let before := applyChanges (initialState positions) pre in
  let after := applyChanges (initialState positions) (pre ++ [change]) in
  let current := currentValueOf (ch_symbol change) before in
  let note :=
    ("Warning: Selling " ++ currency (ch_amount change) ++ " "
     ++ show_number (amount (ch_amount change)) ++ " of " ++ ch_symbol change
     ++ " exceeds current value (" ++ toFixed2 current
     ++ "). Clamped to 0.")%string in
  getDetails (impersonationId context) (userId context) w
  = (Returned details, w') ->
  ch_type change = "sell" ->
  (current < amount (ch_amount change))%Q ->
  exists r0 r1 r,
    execute pre context w = (Returned r0, w')
    /\ execute (pre ++ [change]) context w = (Returned r1, w')
    /\ execute (pre ++ change :: post) context w = (Returned r, w')
    /\ (pre = [] ->
        current = or0 (Spec.trackedAt positions (ch_symbol change)))
    /\ JsMap.get (ch_symbol change) (valueMap after) = Some 0%Q
    /\ newTotal after = (newTotal before - current)%Q
    /\ notes r1 = notes r0 ++ [note]
    /\ amount (newTotalValue r1) = (amount (newTotalValue r0) - current)%Q
    /\ ~ In (ch_symbol change) (map key (newAllocationBySymbol r1))
    /\ (exists later, notes r = notes r0 ++ [note] ++ later)
    /\ (Forall (fun c => ch_symbol c <> ch_symbol change) post ->
        ~ In (ch_symbol change) (map key (newAllocationBySymbol r))).
Proof.
  intros positions before after current note G T L.
  destruct (simulate_oversell (today w') (baseCurrency context) positions
              pre change T L) as [Z [N [V _]]].
  fold before in Z, N, V. fold current in N, V.
  unfold SimulateAllocationChangeTool.simulate in N, V. cbn [notes] in N.
  cbn [newTotalValue amount] in V.
  assert (Step : after = applyChange before change).
  { subst after. apply applyChanges_snoc. }
  assert (Whole : applyChanges (initialState positions) (pre ++ change :: post)
                  = applyChanges after post).
  { subst after. unfold SimulateAllocationChangeTool.applyChanges.
    change (pre ++ change :: post) with (pre ++ [change] ++ post).
    rewrite app_assoc, fold_left_app. reflexivity. }
  eexists. eexists. eexists.
  split; [apply execute_returns, G |].
  split; [apply execute_returns, G |].
  split; [apply execute_returns, G |].
  split.
  { intros ->. subst current before. cbn.
    unfold currentValueOf. cbn [initialState valueMap].
    rewrite buildValueMap_get. reflexivity. }
  split; [exact Z |].
  split.
  { rewrite Step, (applyChange_oversell before change T L). reflexivity. }
  split; [exact N |]. split; [exact V |].
  split.
  { pose proof (simulate_positive_rows (today w') (baseCurrency context)
                  positions (pre ++ [change])) as R.
    cbv zeta in R. destruct R as [_ [Gone _]].
    apply (Gone (ch_symbol change) 0%Q); [exact Z | lra]. }
  split.
  { destruct (applyChanges_notes post after) as [later E].
    exists later.
    change (loopNotes (applyChanges (initialState positions)
                         (pre ++ change :: post))
            = loopNotes before ++ [note] ++ later).
    rewrite Whole, E.
    assert (NA : loopNotes after = loopNotes before ++ [note]).
    { rewrite Step, (applyChange_oversell before change T L). reflexivity. }
    rewrite NA, <- app_assoc. reflexivity. }
  intro Others.
  pose proof (simulate_positive_rows (today w') (baseCurrency context)
                positions (pre ++ change :: post)) as R.
  cbv zeta in R. destruct R as [_ [Gone _]].
  apply (Gone (ch_symbol change) 0%Q); [| lra].
  rewrite Whole, (applyChanges_other _ _ Others). exact Z.
Qed.

(** C10. In every result of [execute], [newAllocationBySymbol] lists only
    symbols whose value after the changes is strictly positive; a symbol
    whose value has come down to zero is left out although the portfolio
    holds it, and the value it had before the changes is still part of
    [originalTotalValue]: the original total is the sum of the values
    tracked for the symbols of the portfolio before any change (for each
    symbol the value, else the cost basis, of its last kept position),
    which is the sum over the kept positions when no two of them share a
    symbol. *)
Theorem simulated_allocation_lists_positive_values
  (changes : list AllocationChange) (context : ToolContext) (w w' : W)
  (r : SimulateAllocationResult) :
  execute changes context w = (Returned r, w') ->
  exists details,
    getDetails (impersonationId context) (userId context) w
    = (Returned details, w')
    /\ let positions := details_holdings details in
       let final := valueMap (applyChanges (initialState positions) changes) in
       (forall row, In row (newAllocationBySymbol r) ->
          JsMap.get (key row) final = Some (amount (value row))
          /\ (0 < amount (value row))%Q)
       /\ (forall symbol v, JsMap.get symbol final = Some v -> (v <= 0)%Q ->
            ~ In symbol (map key (newAllocationBySymbol r)))
       /\ (forall symbol v0,
            Spec.trackedAt positions symbol = Some v0 ->
            exists others,
              (amount (originalTotalValue r) == v0 + Spec.sum others)%Q
              /\ others
                 = map snd
                     (filter
                        (fun e => negb (String.eqb symbol (fst e)))
                        (buildValueMap positions)))
       /\ (forall symbol,
            JsMap.get symbol (buildValueMap positions)
            = Spec.trackedAt positions symbol)
       /\ (NoDup (map pos_symbol (filter Spec.kept positions)) ->
           (amount (originalTotalValue r)
            == Spec.sum (map Spec.trackedOf (filter Spec.kept positions)))%Q).
Proof.
  unfold SimulateAllocationChangeTool.execute.
  destruct (getDetails (impersonationId context) (userId context) w)
    as [[details | e] w1] eqn:G; [| discriminate].
  intros [= <- <-]. exists details. split; [reflexivity |].
  pose proof (simulate_positive_rows (today w1) (baseCurrency context)
                (details_holdings details) changes) as R.
  cbv zeta in R |- *. destruct R as [Rows [Gone Orig]].
  split; [exact Rows |]. split; [exact Gone |]. split.
  - intros symbol v0 T. rewrite <- buildValueMap_get in T.
    eexists. split; [| reflexivity]. apply (Orig symbol v0 T).
  - split; [intro symbol; apply buildValueMap_get |].
    intro N. cbn [originalTotalValue amount
                  SimulateAllocationChangeTool.simulate initialState newTotal].
    rewrite sumValues_sum, (buildValueMap_distinct _ N).
    unfold JsMap.values. rewrite map_map. cbn [snd]. reflexivity.
Qed.

End Simulation.

(** The oversell of the mock portfolio: AAPL, tracked at 1855, is sold for
    5000 after a purchase of VTI; the note names both amounts, and the
    total goes from 5503 to 3648. *)
Lemma oversell_clamps_to_zero_mock :
  exists r0 r1,
    SimulateAllocationChangeTool.execute Examples.showInteger
      Examples.toFixed2 nat Examples.mockDetails Examples.todayIs
      [Examples.buyVTI] Examples.toolContext 0%nat = (Returned r0, 1%nat)
    /\ SimulateAllocationChangeTool.execute Examples.showInteger
         Examples.toFixed2 nat Examples.mockDetails Examples.todayIs
         [Examples.buyVTI; Examples.oversellAAPL] Examples.toolContext 0%nat
       = (Returned r1, 1%nat)
    /\ notes r1
       = [ "Simulated buying USD 500 of VTI";
           "Warning: Selling USD 5000 of AAPL exceeds current value (1855.00). Clamped to 0." ]
    /\ (amount (newTotalValue r0) == 5503)%Q
    /\ (amount (newTotalValue r1) == 3648)%Q
    /\ map key (newAllocationBySymbol r1) = ["VTI"; "BND"].
Proof.
  destruct (oversell_clamps_to_zero Examples.showInteger Examples.toFixed2
              nat Examples.mockDetails Examples.todayIs Examples.toolContext
              0%nat 1%nat Examples.MOCK_PORTFOLIO_DETAILS
              [Examples.buyVTI] Examples.oversellAAPL [])
    as [r0 [r1 [r [E0 [E1 [_ [_ [_ [_ [N [V _]]]]]]]]]]].
  - reflexivity.
  - reflexivity.
  - vm_compute. reflexivity.
  - exists r0, r1. split; [exact E0 |]. split; [exact E1 |].
    injection E0 as <-. injection E1 as <-.
    split; [rewrite N; vm_compute; reflexivity |].
    split; [vm_compute; reflexivity |].
    split; [rewrite V; vm_compute; reflexivity |].
    vm_compute. reflexivity.
Defined.

(** After that oversell AAPL is gone from the new allocation, which lists
    VTI (2460) and BND (1188), and the original total is still the 5003
    of the three holdings, AAPL's 1855 among them. *)
Lemma simulated_allocation_mock :
  let r := SimulateAllocationChangeTool.simulate Examples.showInteger
             Examples.toFixed2 "2026-02-01" "USD"
             (details_holdings Examples.MOCK_PORTFOLIO_DETAILS)
             [Examples.buyVTI; Examples.oversellAAPL] in
  ~ In "AAPL" (map key (newAllocationBySymbol r))
  /\ map (fun row => (key row, Qred (amount (value row))))
       (newAllocationBySymbol r)
     = [("VTI", 2460%Q); ("BND", 1188%Q)]
  /\ (amount (originalTotalValue r) == 1855 + 1960 + 1188)%Q
  /\ (amount (newTotalValue r) == 2460 + 1188)%Q.
Proof.
  cbv zeta.
  destruct (simulated_allocation_lists_positive_values Examples.showInteger
              Examples.toFixed2 nat Examples.mockDetails Examples.todayIs
              [Examples.buyVTI; Examples.oversellAAPL] Examples.toolContext
              0%nat 1%nat
              (SimulateAllocationChangeTool.simulate
                 Examples.showInteger Examples.toFixed2 "2026-02-01" "USD"
                 (details_holdings Examples.MOCK_PORTFOLIO_DETAILS)
                 [Examples.buyVTI; Examples.oversellAAPL]) eq_refl)
    as [details [G [_ [Gone [_ [_ Total]]]]]].
  injection G as <-. cbv zeta in Gone, Total.
  split.
  - apply (Gone "AAPL" 0%Q).
    + vm_compute. reflexivity.
    + vm_compute. discriminate.
  - split; [vm_compute; reflexivity |].
    split; [| vm_compute; reflexivity].
    rewrite Total; [vm_compute; reflexivity |].
    vm_compute. repeat constructor; cbn; intuition discriminate.
Defined.

(** ** Downsampling of the performance chart *)

Section SampleChartFacts.

Import GetPerformanceTool.

Variable A : Type.
Variable same : A -> A -> bool.

(** [same] is identity of objects: an object is itself, and nothing else. *)
Hypothesis same_true : forall x y, same x y = true -> x = y.

Lemma last_In (xs : list A) (d : A) : In (last xs d) (d :: xs).
Proof.
  induction xs as [| a xs IH]; [cbn; auto |].
  cbn [last]. destruct xs as [| b xs]; [cbn; auto |].
  destruct IH as [E | I]; [left; exact E | right; right; exact I].
Qed.

Lemma last_item_In (xs : list A) (x : A) : last_item A xs = Some x -> In x xs.
Proof.
  destruct xs as [| y ys]; cbn [last_item]; [discriminate |].
  intros [= <-]. apply last_In.
Qed.

(** A series of at most [maxPoints] points is returned as it is. *)
Lemma sampleChart_short (chart : list A) (maxPoints : nat) :
  (List.length chart <= maxPoints)%nat ->
  sampleChart same chart maxPoints = chart.
Proof.
  intro H. unfold sampleChart.
  apply Nat.leb_le in H. rewrite H. reflexivity.
Qed.

(** The last point of the input is always in the result. *)
Lemma sampleChart_keeps_last (chart : list A) (maxPoints : nat) (x : A) :
  last_item A chart = Some x -> In x (sampleChart same chart maxPoints).
Proof.
  intro L. unfold sampleChart.
  destruct (List.length chart <=? maxPoints)%nat; [apply last_item_In, L |].
  rewrite L.
  set (sampled := filter_stride A _ _ _).
  destruct (0 <? List.length chart)%nat eqn:N.
  - cbn [andb]. destruct (last_item A sampled) as [y |] eqn:S; cbn [differ].
    + destruct (same y x) eqn:E; cbn [negb].
      * apply same_true in E. subst y. apply last_item_In, S.
      * apply in_or_app. right. cbn. auto.
    + apply in_or_app. right. cbn. auto.
  - destruct chart; [discriminate L | discriminate N].
Qed.

(** Between [i] and [i + 1] the count of multiples of [step] goes up by
    one exactly when [i] is a multiple. *)
Lemma ceil_step (i step : nat) :
  (1 <= step)%nat ->
  ((i + step) / step
   = (i + step - 1) / step + (if (i mod step =? 0)%nat then 1 else 0))%nat.
Proof.
  intro P.
  pose proof (Nat.div_mod_eq i step) as D.
  pose proof (Nat.mod_upper_bound i step ltac:(lia)) as U.
  set (q := (i / step)%nat) in *. set (r := (i mod step)%nat) in *.
  assert (E1 : ((i + step) / step = q + 1)%nat).
  { symmetry. apply (Nat.div_unique _ _ _ r); [exact U | nia]. }
  rewrite E1. destruct (r =? 0)%nat eqn:Z.
  - apply Nat.eqb_eq in Z.
    assert (E2 : ((i + step - 1) / step = q)%nat).
    { symmetry. apply (Nat.div_unique _ _ _ (step - 1)); [lia | nia]. }
    lia.
  - apply Nat.eqb_neq in Z.
    assert (E2 : ((i + step - 1) / step = q + 1)%nat).
    { symmetry. apply (Nat.div_unique _ _ _ (r - 1)); [lia | nia]. }
    lia.
Qed.

(** The filter keeps the items whose index is a multiple of the stride. *)
Lemma filter_stride_length (step i : nat) (chart : list A) :
  (1 <= step)%nat ->
  (List.length (filter_stride A step i chart) + (i + step - 1) / step
   = (i + List.length chart + step - 1) / step)%nat.
Proof.
  intro P. revert i. induction chart as [| x rest IH]; intro i.
  - cbn. f_equal. lia.
  - cbn [filter_stride List.length].
    specialize (IH (S i)).
    replace (S i + step - 1)%nat with (i + step)%nat in IH by lia.
    replace (S i + List.length rest + step - 1)%nat
      with (i + S (List.length rest) + step - 1)%nat in IH by lia.
    pose proof (ceil_step i step P) as C.
    destruct (i mod step =? 0)%nat; cbn [List.length]; lia.
Qed.

Lemma ceil_div_covers (n m : nat) :
  (1 <= m)%nat -> (n <= ceil_div n m * m)%nat.
Proof.
  intro P. unfold ceil_div.
  pose proof (Nat.div_mod_eq (n + m - 1) m) as D.
  pose proof (Nat.mod_upper_bound (n + m - 1) m ltac:(lia)) as U.
  nia.
Qed.

(** The stride alone never keeps more than [maxPoints] items. *)
Lemma filter_stride_bound (chart : list A) (maxPoints : nat) :
  (1 <= maxPoints)%nat -> (maxPoints < List.length chart)%nat ->
  (List.length
     (filter_stride A (ceil_div (List.length chart) maxPoints) 0 chart)
   <= maxPoints)%nat.
Proof.
  intros P L.
  pose proof (ceil_div_covers (List.length chart) maxPoints P) as C.
  set (n := List.length chart) in *. set (step := ceil_div n maxPoints) in *.
  assert (S1 : (1 <= step)%nat) by nia.
  pose proof (filter_stride_length step 0 chart S1) as F.
  fold n in F. cbn [Nat.add] in F.
  rewrite (Nat.div_small (step - 1) step) in F by lia.
  rewrite Nat.add_0_r in F. rewrite F.
  apply Nat.lt_succ_r, Nat.Div0.div_lt_upper_bound. nia.
Qed.

(** The result has at most one point more than [maxPoints]. *)
Lemma sampleChart_length (chart : list A) (maxPoints : nat) :
  (1 <= maxPoints)%nat ->
  (List.length (sampleChart same chart maxPoints) <= maxPoints + 1)%nat.
Proof.
  intro P. unfold sampleChart.
  destruct (List.length chart <=? maxPoints)%nat eqn:L.
  - apply Nat.leb_le in L. lia.
  - apply Nat.leb_gt in L.
    pose proof (filter_stride_bound chart maxPoints P L) as B.
    destruct (_ && _); [| lia].
    destruct (last_item A chart); [| lia].
    rewrite length_app. cbn [List.length]. lia.
Qed.

End SampleChartFacts.

(** C6, at a chart of 40 points: the stride is 2, the filter keeps the 20
    points at the even indices, the last point (index 39) is not among
    them and is appended, and 21 points are returned. *)
Theorem sampleChart_forty_points :
  let result :=
    GetPerformanceTool.sampleChart GetPerformanceTool.same_item
      (Examples.chartOf 40) GetPerformanceTool.MAX_CHART_POINTS in
  List.length result = 21%nat
  /\ map hd_ref result
     = [0; 2; 4; 6; 8; 10; 12; 14; 16; 18; 20; 22; 24; 26; 28; 30; 32; 34;
        36; 38; 39]%nat.
Proof.
  cbv zeta. split; vm_compute; reflexivity.
Qed.

(** ** Strings *)

Section StringFacts.

Import JsString.

Lemma append_empty_r (s : string) : (s ++ EmptyString)%string = s.
Proof. induction s as [| c s IH]; cbn; [| rewrite IH]; reflexivity. Qed.

Lemma append_associative (s t u : string) :
  ((s ++ t) ++ u)%string = (s ++ (t ++ u))%string.
Proof. induction s as [| c s IH]; cbn; [| rewrite IH]; reflexivity. Qed.

Lemma startsWith_length (p s : string) :
  startsWith p s = true -> (String.length p <= String.length s)%nat.
Proof.
  revert s. induction p as [| a p IH]; intros [| b s] H; cbn in *;
    try lia; try discriminate.
  apply andb_true_iff in H. destruct H as [_ H]. apply IH in H. lia.
Qed.

Lemma startsWith_app (p s t : string) :
  startsWith p s = true -> startsWith p (s ++ t) = true.
Proof.
  revert s. induction p as [| a p IH]; intros [| b s] H; cbn in *;
    try reflexivity; try discriminate.
  apply andb_true_iff in H. destruct H as [E H].
  rewrite E, (IH _ H). reflexivity.
Qed.

Lemma startsWith_app_inv (p s t : string) :
  (String.length p <= String.length s)%nat ->
  startsWith p (s ++ t) = true -> startsWith p s = true.
Proof.
  revert s. induction p as [| a p IH]; intros [| b s] L H; cbn in *;
    try reflexivity; try lia.
  apply andb_true_iff in H. destruct H as [E H].
  rewrite E, (IH s); auto. lia.
Qed.

Lemma indexOf_bound (sep s : string) (i : nat) :
  indexOf sep s = Some i -> (i + String.length sep <= String.length s)%nat.
Proof.
  revert i. induction s as [| c s IH]; intros i H; cbn [indexOf] in H.
  - destruct (startsWith sep EmptyString) eqn:P; [| discriminate H].
    injection H as <-. apply startsWith_length in P. lia.
  - destruct (startsWith sep (String c s)) eqn:P.
    + injection H as <-. apply startsWith_length in P. lia.
    + destruct (indexOf sep s) as [j |]; [| discriminate H].
      injection H as <-. specialize (IH j eq_refl). cbn. lia.
Qed.

(** The leftmost separator of a text is the leftmost separator of every
    extension of the text. *)
Lemma indexOf_app (sep s t : string) (i : nat) :
  indexOf sep s = Some i -> indexOf sep (s ++ t) = Some i.
Proof.
  revert i. induction s as [| c s IH]; intros i H.
  - cbn in H. destruct (startsWith sep EmptyString) eqn:P; [| discriminate H].
    injection H as <-. destruct sep; [| discriminate P].
    destruct t; reflexivity.
  - pose proof (indexOf_bound _ _ _ H) as B.
    cbn [indexOf] in H.
    change (String c s ++ t)%string with (String c (s ++ t)).
    cbn [indexOf].
    change (String c (s ++ t)) with (String c s ++ t)%string.
    destruct (startsWith sep (String c s)) eqn:P.
    + rewrite (startsWith_app _ _ t P). exact H.
    + destruct (startsWith sep (String c s ++ t)) eqn:P'.
      * apply startsWith_app_inv in P'; [congruence | lia].
      * destruct (indexOf sep s) as [j |]; [| discriminate H].
        rewrite (IH j eq_refl). exact H.
Qed.

Lemma slice_to_app (n : nat) (s t : string) :
  (n <= String.length s)%nat -> slice_to n (s ++ t) = slice_to n s.
Proof.
  revert s. induction n as [| n IH]; intros s L; [reflexivity |].
  destruct s as [| c s]; cbn in *; [lia |].
  rewrite IH; [reflexivity | lia].
Qed.

Lemma slice_from_app (n : nat) (s t : string) :
  (n <= String.length s)%nat ->
  slice_from n (s ++ t) = (slice_from n s ++ t)%string.
Proof.
  revert s. induction n as [| n IH]; intros s L; [reflexivity |].
  destruct s as [| c s]; cbn in *; [lia |].
  apply IH. lia.
Qed.

Lemma split_char_line (c : ascii) (line rest : string) :
  lacks c line ->
  split_char c (line ++ String c rest) = line :: split_char c rest.
Proof.
  induction line as [| a line IH]; cbn [append split_char lacks].
  - intros _. rewrite Ascii.eqb_refl. reflexivity.
  - intros [N L]. rewrite N, (IH L). reflexivity.
Qed.

Lemma split_char_single (c : ascii) (line : string) :
  lacks c line -> split_char c line = [line].
Proof.
  induction line as [| a line IH]; cbn [split_char lacks].
  - reflexivity.
  - intros [N L]. rewrite N, (IH L). reflexivity.
Qed.

(** Lines written one per line read back as the same lines. *)
Lemma split_char_join (c : ascii) (lines : list string) :
  lines <> [] -> Forall (lacks c) lines ->
  split_char c (join (String c EmptyString) lines) = lines.
Proof.
  intros N F. induction F as [| line rest L F IH]; [contradiction |].
  destruct rest as [| line' rest'].
  - cbn [join]. apply split_char_single, L.
  - change (join (String c EmptyString) (line :: line' :: rest'))
      with (line ++ String c (join (String c EmptyString) (line' :: rest')))%string.
    rewrite (split_char_line c line _ L), IH; [reflexivity | discriminate].
Qed.

End StringFacts.

(** ** The SSE proxy *)

Section SseFacts.

Import JsString AgentProxy.

Variable J : Type.
Variable JSON_parse : string -> option J.

Local Abbreviation emit := (emit J JSON_parse).
Local Abbreviation drain := (drain J JSON_parse).
Local Abbreviation readLoop := (readLoop J JSON_parse).
Local Abbreviation decodedEvents := (decodedEvents J JSON_parse).

(** The payload of an event written as lines: the [data:] lines, each
    without its field name and trimmed, joined by line feeds. *)
Lemma dataPayload_lines (lines : list string) :
  lines <> [] -> Forall (lacks (ascii_of_nat 10)) lines ->
  dataPayload (join LF lines)
  = join LF
      (map (fun line => trim (slice_from 5 line))
         (filter (startsWith "data:") lines)).
Proof.
  intros N F. unfold dataPayload, LF.
  rewrite (split_char_join _ lines N F). reflexivity.
Qed.

(** [frames] cuts at the leftmost separator, as [indexOf] finds it. *)
Lemma frames_indexOf (s : string) :
  frames s
  = match indexOf LFLF s with
    | Some i =>
        (slice_to i s :: fst (frames (slice_from (i + 2) s)),
         snd (frames (slice_from (i + 2) s)))
    | None => ([], s)
    end.
Proof.
  induction s as [| a rest IH]; [reflexivity |].
  cbn [frames indexOf].
  assert (P : startsWith LFLF (String a rest)
              = match rest with
                | String b _ =>
                    Ascii.eqb a (ascii_of_nat 10) && Ascii.eqb b (ascii_of_nat 10)
                | EmptyString => false
                end).
  { unfold LFLF, LF. cbn [append startsWith].
    rewrite (Ascii.eqb_sym _ a).
    destruct rest as [| b rest']; [apply andb_false_r |].
    rewrite (Ascii.eqb_sym _ b), andb_true_r. reflexivity. }
  rewrite P. clear P.
  assert (C : (let '(fs, tail) := frames rest in
               match fs with
               | [] => ([], String a tail)
               | f :: fs' => (String a f :: fs', tail)
               end)
              = match option_map S (indexOf LFLF rest) with
                | Some i =>
                    (slice_to i (String a rest)
                       :: fst (frames (slice_from (i + 2) (String a rest))),
                     snd (frames (slice_from (i + 2) (String a rest))))
                | None => ([], String a rest)
                end).
  { rewrite IH. destruct (indexOf LFLF rest) as [j |]; reflexivity. }
  destruct rest as [| b rest'].
  - exact C.
  - destruct (Ascii.eqb a (ascii_of_nat 10) && Ascii.eqb b (ascii_of_nat 10)).
    + cbn [slice_to slice_from Nat.add]. destruct (frames rest'). reflexivity.
    + exact C.
Qed.

Lemma drain_clause (buffer : string)
  (found : {y : option nat | indexOf LFLF buffer = y}) :
  drain_unfold_clause_1 J JSON_parse buffer found
  = match proj1_sig found with
    | Some i =>
        (emit (slice_to i buffer)
           ++ fst (drain (slice_from (i + 2) buffer)),
         snd (drain (slice_from (i + 2) buffer)))
    | None => ([], buffer)
    end.
Proof.
  destruct found as [[i |] e]; cbn; [| reflexivity].
  destruct (AgentProxy.drain J JSON_parse (slice_from (i + 2) buffer)).
  reflexivity.
Qed.

Lemma drain_unfold (buffer : string) :
  drain buffer
  = match indexOf LFLF buffer with
    | Some i =>
        (emit (slice_to i buffer)
           ++ fst (drain (slice_from (i + 2) buffer)),
         snd (drain (slice_from (i + 2) buffer)))
    | None => ([], buffer)
    end.
Proof.
  rewrite drain_equation_1, drain_clause. reflexivity.
Qed.

(** The inner loop yields the decoded complete frames of its buffer and
    leaves the partial tail. *)
Lemma drain_frames (buffer : string) :
  drain buffer = (flat_map emit (fst (frames buffer)), snd (frames buffer)).
Proof.
  remember (String.length buffer) as n eqn:Len.
  revert buffer Len. induction n as [n IH] using lt_wf_ind. intros buffer Len.
  rewrite drain_unfold, frames_indexOf.
  destruct (indexOf LFLF buffer) as [i |] eqn:E; [| reflexivity].
  pose proof (indexOf_LFLF_bound _ _ E) as B.
  rewrite (IH (String.length (slice_from (i + 2) buffer)));
    [reflexivity | | reflexivity].
  rewrite slice_from_length; lia.
Qed.

(** Frames of a text that grows: what was complete stays, the tail goes on. *)
Lemma frames_app (s t : string) :
  frames (s ++ t)
  = (fst (frames s) ++ fst (frames (snd (frames s) ++ t)),
     snd (frames (snd (frames s) ++ t))).
Proof.
  remember (String.length s) as n eqn:Len.
  revert s Len. induction n as [n IH] using lt_wf_ind. intros s Len.
  rewrite (frames_indexOf s).
  destruct (indexOf LFLF s) as [i |] eqn:E.
  - pose proof (indexOf_LFLF_bound _ _ E) as B.
    rewrite (frames_indexOf (s ++ t)), (indexOf_app _ _ t _ E).
    rewrite slice_to_app, slice_from_app by lia.
    rewrite (IH (String.length (slice_from (i + 2) s)));
      [reflexivity | | reflexivity].
    rewrite slice_from_length; lia.
  - cbn [fst snd app]. destruct (frames (s ++ t)). reflexivity.
Qed.

(** The tail holds no separator. *)
Lemma frames_tail (s : string) : fst (frames (snd (frames s))) = [].
Proof.
  remember (String.length s) as n eqn:Len.
  revert s Len. induction n as [n IH] using lt_wf_ind. intros s Len.
  rewrite (frames_indexOf s).
  destruct (indexOf LFLF s) as [i |] eqn:E.
  - pose proof (indexOf_LFLF_bound _ _ E) as B. cbn [snd].
    apply (IH (String.length (slice_from (i + 2) s))); [| reflexivity].
    rewrite slice_from_length; lia.
  - cbn [snd]. rewrite frames_indexOf, E. reflexivity.
Qed.

Lemma readLoop_frames (reads : list Chunk) (buffer : string) :
  fst (frames buffer) = [] ->
  readLoop reads buffer = decodedEvents (buffer ++ arrived reads).
Proof.
  unfold AgentProxy.decodedEvents.
  revert buffer. induction reads as [| c rest IH]; intros buffer Clean.
  - cbn. rewrite append_empty_r, Clean. reflexivity.
  - cbn [AgentProxy.readLoop arrived]. destruct (aborted c).
    + rewrite append_empty_r, Clean. reflexivity.
    + rewrite drain_frames.
      rewrite (IH _ (frames_tail _)).
      rewrite <- append_associative, (frames_app (buffer ++ chunk_text c)).
      cbn [fst]. rewrite flat_map_app. reflexivity.
Qed.

Section Bridge.

Import AgentWebSocket.

Variable stringify : AgentEvent J -> string.

Lemma forwardEvents_open (isOpen : nat -> bool) (events : list (AgentEvent J))
  (i : nat) :
  (forall n, isOpen n = true) ->
  forwardEvents (AgentEvent J) stringify isOpen i events = map stringify events.
Proof.
  intro Open. revert i. induction events as [| e es IH]; intro i; cbn.
  - reflexivity.
  - rewrite Open, IH. reflexivity.
Qed.

(** C7. For an upstream body that arrives in any chunks, the generator
    yields the events of the accumulated text cut at the double line
    feeds, the partial tail held back: each complete frame gives the
    payload of its [data:] lines (each cut after the field name and
    stripped of the white space around it, joined by line feeds),
    JSON-decoded, in upstream order; a frame whose payload is not empty
    and decodes yields exactly the decoded event; a frame without payload
    or whose payload does not decode yields nothing and the stream goes
    on; and the WebSocket bridge sends each yielded event, in that order,
    while the socket is open. *)
Theorem sse_events_in_arrival_order (baseUrl : string) (reads : list Chunk)
  (isOpen : nat -> bool) :
  truthy baseUrl = true ->
  (forall n, isOpen n = true) ->
  let yielded := proxyStreamToAgentEvents J JSON_parse baseUrl (Body reads) in
  yielded = decodedEvents (arrived reads)
  /\ (forall lines, lines <> [] -> Forall (lacks (ascii_of_nat 10)) lines ->
       dataPayload (join LF lines)
       = join LF
           (map (fun line => trim (slice_from 5 line))
              (filter (startsWith "data:") lines)))
  /\ (forall rawEvent parsed,
       dataPayload rawEvent <> EmptyString ->
       JSON_parse (dataPayload rawEvent) = Some parsed ->
       emit rawEvent = [Decoded parsed])
  /\ (forall rawEvent, dataPayload rawEvent = EmptyString ->
       emit rawEvent = [])
  /\ (forall rawEvent, JSON_parse (dataPayload rawEvent) = None ->
       emit rawEvent = [])
  /\ forwardEvents (AgentEvent J) stringify isOpen 0 yielded
     = map stringify (decodedEvents (arrived reads)).
Proof.
  intros Configured Open yielded.
  assert (Y : yielded = decodedEvents (arrived reads)).
  { subst yielded. unfold proxyStreamToAgentEvents. rewrite Configured.
    cbn [negb]. apply (readLoop_frames reads EmptyString). reflexivity. }
  split; [exact Y |]. split; [exact dataPayload_lines |].
  split; [| split; [| split]].
  - intros rawEvent parsed Full Good. unfold AgentProxy.emit. rewrite Good.
    destruct (dataPayload rawEvent); [contradiction | reflexivity].
  - intros rawEvent Empty. unfold AgentProxy.emit. rewrite Empty.
    reflexivity.
  - intros rawEvent Bad. unfold AgentProxy.emit. rewrite Bad.
    destruct (truthy (dataPayload rawEvent)); reflexivity.
  - rewrite <- Y. apply forwardEvents_open, Open.
Qed.

End Bridge.

End SseFacts.

(** The example body: the event split across two reads and the event
    after the malformed one both reach the socket, in order; and the
    payload of a data line is what follows its no-break space. *)
Lemma sse_events_example :
  AgentWebSocket.forwardEvents (AgentProxy.AgentEvent string)
    (fun e => match e with
              | AgentProxy.Decoded text => text
              | AgentProxy.ErrorEvent text => text
              end)
    (fun _ => true) 0
    (AgentProxy.proxyStreamToAgentEvents string Examples.parseBraced
       "http://agent:3334" (AgentProxy.Body Examples.upstreamReads))
  = ["{a}"; "{b}"]
  /\ AgentProxy.dataPayload Examples.nbspDataLine = "[1]"
  /\ AgentProxy.emit string Examples.parseBraced "data:  {c} " =
     [AgentProxy.Decoded "{c}"].
Proof.
  pose proof (sse_events_in_arrival_order string Examples.parseBraced
                (fun e => match e with
                          | AgentProxy.Decoded text => text
                          | AgentProxy.ErrorEvent text => text
                          end)
                "http://agent:3334" Examples.upstreamReads (fun _ => true)
                eq_refl (fun _ => eq_refl)) as T.
  cbv zeta in T.
  destruct T as [_ [_ [Yes [_ [_ Sent]]]]].
  split; [| split].
  - rewrite Sent. vm_compute. reflexivity.
  - reflexivity.
  - apply Yes; [vm_compute; discriminate | vm_compute; reflexivity].
Defined.

(** ** The WebSocket gateway *)

Section UpgradeFacts.

Import JsString AgentWebSocket.

Variable tokenParam : string -> option string -> Outcome (option string).
Variable verify : string -> Outcome (option string).

Local Abbreviation onUpgrade := (onUpgrade tokenParam verify).

(** C8, as the code has it. The gateway upgrades a connection only when
    the request URL starts with the agent WebSocket path, and destroys the
    socket of a request whose URL does not; when the URL parses and the
    token of its query string is missing or empty, or its verification
    fails (it throws, or its payload has no user id), the gateway writes
    an HTTP 401 response and destroys the socket, and no WebSocket
    connection is established. A connection is established only for a
    URL with the prefix that parses and carries a token that verifies
    for a user; and when the URL does not parse against the [Host]
    header, the listener throws and has done nothing to the socket. *)
Theorem upgrade_needs_path_prefix_and_token (url host : option string) :
  let result := onUpgrade url host in
  let target := requestUrl url in
  (startsWith AGENT_WS_PATH target = false ->
   result = Returned [SocketDestroy])
  /\ (startsWith AGENT_WS_PATH target = true ->
      (tokenParam target host = Returned None
       \/ tokenParam target host = Returned (Some EmptyString)
       \/ exists token,
            tokenParam target host = Returned (Some token)
            /\ ((exists e, verify (rawToken token) = Threw e)
                \/ verify (rawToken token) = Returned None
                \/ verify (rawToken token) = Returned (Some EmptyString))) ->
      result
      = Returned
          [SocketWrite
             ("HTTP/1.1 401 Unauthorized"
              ++ String (ascii_of_nat 13) (String (ascii_of_nat 10)
                   (String (ascii_of_nat 13) (String (ascii_of_nat 10)
                      EmptyString))));
           SocketDestroy]
      /\ established (actionsOf result) = false)
  /\ (established (actionsOf result) = true ->
      startsWith AGENT_WS_PATH target = true
      /\ exists token id,
           tokenParam target host = Returned (Some token)
           /\ token <> EmptyString /\ id <> EmptyString
           /\ verify (rawToken token) = Returned (Some id)
           /\ result = Returned [HandleUpgrade id (bearerOf token)])
  /\ (forall e,
         startsWith AGENT_WS_PATH target = true ->
         tokenParam target host = Threw e ->
         result = Threw e /\ actionsOf result = []).
Proof.
  intros result target. subst result. unfold AgentWebSocket.onUpgrade.
  fold target. split; [| split; [| split]].
  - intros P. rewrite P. reflexivity.
  - intros P Bad. rewrite P. cbn [negb].
    destruct Bad as [N | [N | [token [N V]]]]; rewrite N.
    + auto.
    + auto.
    + destruct (truthy token); cbn [negb]; [| auto].
      destruct V as [[e V] | [V | V]]; rewrite V; auto.
  - destruct (startsWith AGENT_WS_PATH target); cbn [negb];
      [| discriminate].
    destruct (tokenParam target host) as [[token |] | e];
      try discriminate.
    destruct (truthy token) eqn:T; cbn [negb]; [| discriminate].
    destruct (verify (rawToken token)) as [[id |] | e] eqn:V;
      try discriminate.
    destruct (truthy id) eqn:I; cbn [negb]; [| discriminate].
    intros _. split; [reflexivity |]. exists token, id.
    split; [reflexivity |].
    split; [intros ->; discriminate |].
    split; [intros ->; discriminate | auto].
  - intros e P X. rewrite P, X. cbn [negb]. auto.
Qed.

End UpgradeFacts.

(** A request for another path has its socket destroyed; a request for
    the agent path without a token, or with a token that does not verify,
    is answered 401 and destroyed. *)
Lemma upgrade_other_path_destroyed :
  AgentWebSocket.onUpgrade Examples.tokenOf Examples.verifyAbc
    (Some "/api/v1/info?token=abc") (Some "localhost:3333")
  = Returned [AgentWebSocket.SocketDestroy]
  /\ AgentWebSocket.onUpgrade Examples.tokenOf Examples.verifyAbc
       (Some "/api/v1/agent/ws") (Some "localhost:3333")
     = Returned
         [AgentWebSocket.SocketWrite AgentWebSocket.UNAUTHORIZED;
          AgentWebSocket.SocketDestroy]
  /\ AgentWebSocket.onUpgrade Examples.tokenOf Examples.verifyAbc
       (Some "/api/v1/agent/ws?token=xyz") (Some "localhost:3333")
     = Returned
         [AgentWebSocket.SocketWrite AgentWebSocket.UNAUTHORIZED;
          AgentWebSocket.SocketDestroy].
Proof.
  split; [| split].
  - refine (proj1 (upgrade_needs_path_prefix_and_token
                     Examples.tokenOf Examples.verifyAbc
                     (Some "/api/v1/info?token=abc")
                     (Some "localhost:3333")) _).
    reflexivity.
  - refine (proj1 (proj1 (proj2 (upgrade_needs_path_prefix_and_token
                     Examples.tokenOf Examples.verifyAbc
                     (Some "/api/v1/agent/ws")
                     (Some "localhost:3333"))) _ _)).
    + reflexivity.
    + left. reflexivity.
  - refine (proj1 (proj1 (proj2 (upgrade_needs_path_prefix_and_token
                     Examples.tokenOf Examples.verifyAbc
                     (Some "/api/v1/agent/ws?token=xyz")
                     (Some "localhost:3333"))) _ _)).
    + reflexivity.
    + right. right. exists "xyz". split; [reflexivity |].
      left. eexists. reflexivity.
Defined.

(** C8 as stated fails: the request targets the path
    [/api/v1/agent/ws-other], which is not the agent WebSocket path, and
    with a valid token its connection is upgraded. *)
Lemma upgrade_on_longer_path :
  AgentWebSocket.pathname "/api/v1/agent/ws-other?token=abc"
  = "/api/v1/agent/ws-other"
  /\ String.eqb (AgentWebSocket.pathname "/api/v1/agent/ws-other?token=abc")
       AgentWebSocket.AGENT_WS_PATH = false
  /\ AgentWebSocket.onUpgrade Examples.tokenOf Examples.verifyAbc
       (Some "/api/v1/agent/ws-other?token=abc") (Some "localhost:3333")
     = Returned [AgentWebSocket.HandleUpgrade "user-1" "Bearer abc"].
Proof.
  repeat split; vm_compute; reflexivity.
Qed.

(** A request for the agent path without a token and with a [Host] header
    that holds a space: [new URL] throws, and the socket is neither
    answered nor destroyed. *)
Lemma upgrade_with_malformed_host :
  AgentWebSocket.onUpgrade Examples.tokenOf Examples.verifyAbc
    (Some "/api/v1/agent/ws") (Some "a b")
  = Threw (ErrorObject "Invalid URL").
Proof. reflexivity. Qed.

(** ** The orchestrator: the tool loop *)

Section ChatFacts.

Import AgentService.

Variable W : Type.
Variable Input : Type.
Variable Date_now : W -> Z * W.
Variable today : W -> IsoDate.
Variable buildSystemPrompt : string -> string -> string -> string.
Variable messages_create :
  LlmRequest Input -> W -> Outcome (list (ContentBlock Input)) * W.
Variable stringify_result : ToolResult -> Outcome string.
Variable stringify_error : string -> string.
Variable toFixed2 : Q -> string.
Variable agentConfig : AgentConfig.
Variable toolRegistry : ToolRegistry (Executor W Input).

Local Abbreviation runTool :=
  (runTool W Input Date_now stringify_result stringify_error toolRegistry).
Local Abbreviation runTools :=
  (runTools W Input Date_now stringify_result stringify_error toolRegistry).
Local Abbreviation TraceOf := (TraceOf W Input Date_now toolRegistry).
Local Abbreviation dispatched := (dispatched W Input toolRegistry).
Local Abbreviation chat :=
  (chat W Input Date_now today buildSystemPrompt messages_create
     stringify_result stringify_error toFixed2 agentConfig toolRegistry).
Local Abbreviation llmRequest := (llmRequest W Input agentConfig toolRegistry).
Local Abbreviation systemPromptOf := (systemPromptOf W today buildSystemPrompt).

Lemma runTools_cons (toolContext : ToolContext) (toolUse : ToolUseBlock Input)
  (rest : list (ToolUseBlock Input)) (st : TurnState Input) (w : W) :
  runTools toolContext (toolUse :: rest) st w
  = runTools toolContext rest
      (fst (runTool toolContext (st, w) toolUse))
      (snd (runTool toolContext (st, w) toolUse)).
Proof.
  unfold AgentService.runTools. cbn [fold_left].
  destruct (runTool toolContext (st, w) toolUse). reflexivity.
Qed.

Local Abbreviation serialisable :=
  (serialisable W Input stringify_result toolRegistry).

Lemma error_text_Carries (e : Thrown) : Carries e (error_text e).
Proof. destruct e; constructor. Qed.

(** One iteration over a result that serialises, a failure or an unknown
    tool: one row, and the loop goes on from the world it leaves. *)
Lemma runTool_step (toolContext : ToolContext) (toolUse : ToolUseBlock Input)
  (st : TurnState Input) (w : W) :
  serialisable ->
  exists row,
    (forall rest rows w',
        TraceOf toolContext (snd (runTool toolContext (st, w) toolUse))
          rest rows w' ->
        TraceOf toolContext w (toolUse :: rest) (row :: rows) w')
    /\ st_toolTrace (fst (runTool toolContext (st, w) toolUse))
       = st_toolTrace st ++ [row]
    /\ st_executed (fst (runTool toolContext (st, w) toolUse))
       = st_executed st ++ dispatched [toolUse].
Proof.
  intro Ser.
  unfold AgentService.runTool, AgentService.dispatched. cbn [filter].
  destruct (Date_now w) as [t0 w0] eqn:D0.
  destruct (getExecutor (tu_name toolUse) toolRegistry) as [exec |] eqn:G.
  - destruct (exec (tu_input toolUse) toolContext w0) as [[result | e] w1]
      eqn:X.
    + unfold recordSuccess. destruct (Date_now w1) as [t1 w2] eqn:D1.
      destruct (Ser _ _ _ _ _ _ _ G X) as [text S]. rewrite S.
      eexists. split; [| split; reflexivity].
      intros rest rows w' T. eapply TraceReturned; eauto.
    + unfold recordFailure. destruct (Date_now w1) as [t1 w2] eqn:D1.
      eexists. split; [| split; reflexivity].
      intros rest rows w' T.
      eapply TraceThrown; eauto using error_text_Carries.
  - unfold recordUnknown. destruct (Date_now w0) as [t1 w1] eqn:D1.
    eexists. split; [| split; [reflexivity | cbn; rewrite app_nil_r; reflexivity]].
    intros rest rows w' T. eapply TraceUnknown; eauto.
Qed.

(** The loop leaves one row per request, whatever each request comes to,
    as long as the results serialise. *)
Lemma runTools_trace (toolContext : ToolContext)
  (requests : list (ToolUseBlock Input)) (st : TurnState Input) (w : W) :
  serialisable ->
  exists rows,
    TraceOf toolContext w requests rows (snd (runTools toolContext requests st w))
    /\ st_toolTrace (fst (runTools toolContext requests st w))
       = st_toolTrace st ++ rows
    /\ st_executed (fst (runTools toolContext requests st w))
       = st_executed st ++ dispatched requests.
Proof.
  intro Ser.
  revert st w. induction requests as [| toolUse rest IH]; intros st w.
  - exists []. cbn. rewrite !app_nil_r. repeat split. constructor.
  - rewrite runTools_cons.
    destruct (runTool_step toolContext toolUse st w Ser) as [row [T [E1 E2]]].
    destruct (IH (fst (runTool toolContext (st, w) toolUse))
                 (snd (runTool toolContext (st, w) toolUse)))
      as [rows [T' [E1' E2']]].
    exists (row :: rows). split; [apply T, T' |].
    rewrite E1', E2', E1, E2, <- !app_assoc. split; [reflexivity |].
    f_equal. unfold AgentService.dispatched. cbn [filter].
    destruct (getExecutor (tu_name toolUse) toolRegistry); reflexivity.
Qed.

Local Abbreviation rowAnswers := (rowAnswers W Input toolRegistry).

Lemma TraceOf_rows toolContext w requests rows w' :
  TraceOf toolContext w requests rows w' ->
  Forall2 rowAnswers requests rows.
Proof.
  induction 1; constructor; auto; unfold AgentService.rowAnswers; cbn;
    repeat split; auto; try congruence; try discriminate.
Qed.

Lemma Forall2_names requests rows :
  Forall2 rowAnswers requests rows ->
  map tool rows = map (@tu_name Input) requests.
Proof.
  induction 1 as [| r row rs rows [N _] _ IH]; cbn; congruence.
Qed.

(** Case analysis on the outcome of the LLM call the goal waits for. *)
Ltac case_call2 :=
  match goal with
  | |- context [messages_create ?rq ?x] =>
      destruct (messages_create rq x) as [[?c2 | ?e] ?w3]
  end.

(** The one-row rule of the tool trace, as far as the code keeps it. When
    LLM call #1 asks for tools and every result that a tool returns can be
    serialised, [chat] records
    exactly one trace row per request, in the order of the requests. A
    request for an unknown or disabled tool gives a failed row with the
    error "Unknown or disabled tool" and runs no executor; an executor that
    throws gives a failed row with the message of the error, and the next
    request is taken; the loop is never cut short, and the turn ends in a
    response: the one assembled from LLM call #2, or the error response,
    both with the full trace. *)
Lemma chat_rows_when_results_serialise (request : AgentChatRequest)
  (userContext : UserContext) (w w1 : W)
  (call1Content : list (ContentBlock Input)) :
  serialisable ->
  JsString.truthy (anthropicApiKey agentConfig) = true ->
  messages_create
    (llmRequest (systemPromptOf userContext w) (call1Messages Input request)) w
  = (Returned call1Content, w1) ->
  toolUses Input call1Content <> [] ->
  let turn := chat request userContext w in
  let requests := toolUses Input call1Content in
  exists rows w2,
    TraceOf (toolContextOf userContext) w1 requests rows w2
    /\ toolTrace (response turn) = rows
    /\ List.length rows = List.length requests
    /\ map tool rows = map tu_name requests
    /\ Forall2 rowAnswers requests rows
    /\ executed turn = dispatched requests
    /\ exists st,
         st_toolTrace st = rows
         /\ match messages_create
                   (llmRequest (systemPromptOf userContext w)
                      (call2Messages Input request call1Content st)) w2 with
            | (Returned call2Content, _) =>
                response turn
                = toolResponse Input toFixed2 (extractText Input call2Content) st
            | (Threw e, _) =>
                response turn = buildErrorResponse (failureAnswer e) rows
            end.
Proof.
  intros Ser Configured Call1 Asked turn requests.
  destruct (runTools_trace (toolContextOf userContext) requests
              (initialTurn Input) w1 Ser) as [rows [T [E1 E2]]].
  cbn [st_toolTrace st_executed initialTurn app] in E1, E2.
  pose proof (TraceOf_rows _ _ _ _ _ T) as R.
  exists rows, (snd (runTools (toolContextOf userContext) requests
                       (initialTurn Input) w1)).
  assert (Shape :
    turn
    = let st := fst (runTools (toolContextOf userContext) requests
                       (initialTurn Input) w1) in
      let w2 := snd (runTools (toolContextOf userContext) requests
                       (initialTurn Input) w1) in
      match messages_create
              (llmRequest (systemPromptOf userContext w)
                 (call2Messages Input request call1Content st)) w2 with
      | (Threw e, w3) =>
          {| response := buildErrorResponse (failureAnswer e) (st_toolTrace st);
             executed := st_executed st; world := w3 |}
      | (Returned call2Content, w3) =>
          {| response :=
               toolResponse Input toFixed2 (extractText Input call2Content) st;
             executed := st_executed st; world := w3 |}
      end).
  { subst turn. unfold AgentService.chat. rewrite Configured. cbn [negb].
    rewrite Call1. fold requests.
    destruct requests as [| r rs] eqn:Q; [contradiction |].
    destruct (runTools (toolContextOf userContext) (r :: rs)
                (initialTurn Input) w1) as [st w2].
    reflexivity. }
  cbv zeta in Shape.
  split; [exact T |].
  assert (Trace : toolTrace (response turn) = rows).
  { rewrite Shape.
    case_call2; cbn; exact E1. }
  assert (Exec : executed turn = dispatched requests).
  { rewrite Shape.
    case_call2; cbn; exact E2. }
  split; [exact Trace |].
  split; [symmetry; eapply Forall2_length; exact R |].
  split; [apply Forall2_names; exact R |].
  split; [exact R |].
  split; [exact Exec |].
  exists (fst (runTools (toolContextOf userContext) requests
                 (initialTurn Input) w1)).
  split; [exact E1 |].
  rewrite Shape. case_call2; cbn; [reflexivity |].
  rewrite E1. reflexivity.
Qed.

End ChatFacts.

(** The tools of the example registry return what can be serialised. *)
Lemma registry_serialisable :
  AgentService.serialisable nat unit Examples.showResult Examples.registry.
Proof.
  intros nm exec input toolContext w w' result G X.
  unfold getExecutor, Examples.registry, register in G. cbn in G.
  repeat match type of G with
         | context [String.eqb ?a ?b] => destruct (String.eqb a b)
         end;
    cbn in G; try discriminate; injection G as <-;
    cbv in X; try discriminate; injection X as <- <-;
    eexists; reflexivity.
Qed.

(** The example turn: four requests, of which one names no tool, one
    succeeds, one throws and one names a disabled tool; four rows in that
    order, each with its error text, and two executors run. *)
Lemma chat_rows_example :
  let turn := Examples.turn Examples.plan "I could not retrieve everything."
                "How is my portfolio?" in
  toolTrace (AgentService.response turn)
  = [ {| tool := "nonExistentTool"; ok := false; ms := 7;
         error := Some "Unknown or disabled tool: nonExistentTool" |};
      {| tool := "getPortfolioSnapshot"; ok := true; ms := 14;
         error := None |};
      {| tool := "getPerformance"; ok := false; ms := 14;
         error := Some "Database connection failed" |};
      {| tool := "getMarketPrices"; ok := false; ms := 7;
         error := Some "Unknown or disabled tool: getMarketPrices" |} ]
  /\ map (@AgentService.tu_name unit) (AgentService.executed turn)
     = ["getPortfolioSnapshot"; "getPerformance"].
Proof.
  cbv zeta.
  destruct (chat_rows_when_results_serialise nat unit Examples.clock
              Examples.todayIs Examples.prompt
              (Examples.provider Examples.plan
                 "I could not retrieve everything.")
              Examples.showResult Examples.showError Examples.showInteger
              Examples.config Examples.registry
              (Examples.ask "How is my portfolio?") Examples.user 0%nat 1%nat
              Examples.plan)
    as [rows [w2 [_ [E [_ [N [_ [X _]]]]]]]].
  - exact registry_serialisable.
  - reflexivity.
  - reflexivity.
  - discriminate.
  - split; vm_compute; reflexivity.
Defined.


(** ** The verifier's penalty in the response *)

Section AdvicePenalty.

Import Verifier AgentService.

Variable toFixed2 : Q -> string.

Lemma adviceLoop_match (patterns : list Regex.regex) (text : string)
  (acc : VerificationResult) :
  existsb (fun pattern => Regex.test pattern text) patterns = true ->
  adviceLoop patterns text acc
  = {| v_warnings := v_warnings acc ++ [ADVICE_WARNING];
       confidenceAdjustment := (confidenceAdjustment acc + (2 # 10))%Q |}.
Proof.
  induction patterns as [| p ps IH]; cbn; [discriminate |].
  destruct (Regex.test p text); cbn; auto.
Qed.

Lemma checkAllocationSum_nonneg (rows : list AllocationRow) :
  (0 <= confidenceAdjustment (checkAllocationSum toFixed2 rows))%Q.
Proof.
  unfold checkAllocationSum. destruct rows; [cbn; lra |].
  destruct (negb _); cbn; lra.
Qed.

Lemma checkValuationLabel_nonneg (text : string) :
  (0 <= confidenceAdjustment (checkValuationLabel text))%Q.
Proof.
  unfold checkValuationLabel. destruct (negb _); cbn; lra.
Qed.

(** A matching answer: the verifier warns of advice language and its
    penalty is at least 0.2. *)
Lemma verify_advice (text : string) (toolResults : JsMap.t ToolResult) :
  matchesAdvice text = true ->
  In ADVICE_WARNING (v_warnings (verifyAgentResponse toFixed2 text toolResults))
  /\ (2 # 10
      <= confidenceAdjustment (verifyAgentResponse toFixed2 text toolResults))%Q.
Proof.
  intro M. unfold verifyAgentResponse, checkAdviceBoundary.
  rewrite (adviceLoop_match _ _ _ M).
  pose proof (checkValuationLabel_nonneg text) as V.
  destruct (JsMap.get "getPortfolioSnapshot" toolResults) as [r |];
    cbn [option_map].
  - destruct (Cast.allocationBySymbol r) as [rows |];
      [pose proof (checkAllocationSum_nonneg rows) as A |];
      destruct (Cast.isPriceDataMissing r) as [[|] |];
      cbn [accumulate v_warnings confidenceAdjustment];
      (split; [rewrite ?in_app_iff; cbn [In]; tauto | lra]).
  - cbn [accumulate v_warnings confidenceAdjustment].
    split; [rewrite ?in_app_iff; cbn [In]; tauto | lra].
Qed.

Lemma ADVICE_WARNING_names_advice :
  JsString.includes "advice" ADVICE_WARNING = true.
Proof. reflexivity. Qed.

Lemma baseConfidence_positive (Input : Type) (st : TurnState Input) :
  (1 # 10 <= baseConfidence Input st)%Q.
Proof. unfold baseConfidence. apply computeConfidence_positive. Qed.

(** On the tool path a matching answer is warned of and loses confidence:
    the final confidence is [max(0, base - penalties)], below the base. *)
Lemma toolResponse_advice_penalty (Input : Type) (text : string)
  (st : TurnState Input) :
  matchesAdvice text = true ->
  let r := toolResponse Input toFixed2 text st in
  (exists warning, In warning (warnings r)
                   /\ JsString.includes "advice" warning = true)
  /\ confidence r
     = Math_max0
         (baseConfidence Input st
          - confidenceAdjustment
              (verifyAgentResponse toFixed2 text (st_toolResults st)))
  /\ (confidence r < baseConfidence Input st)%Q.
Proof.
  intros M r.
  destruct (verify_advice text (st_toolResults st) M) as [I L].
  pose proof (baseConfidence_positive Input st) as B.
  split; [exists ADVICE_WARNING; split;
          [exact I | exact ADVICE_WARNING_names_advice] |].
  split; [reflexivity |].
  subst r. cbn [confidence toolResponse]. unfold Math_max0.
  destruct (Qle_bool 0 _); lra.
Qed.

(** On the direct path the verifier's warnings are kept and its penalty is
    dropped: the confidence is the base score of a turn without tools. *)
Lemma directResponse_confidence (text : string) :
  confidence (directResponse toFixed2 text)
  = computeConfidence false false 0 0 true
  /\ warnings (directResponse toFixed2 text)
     = v_warnings (verifyAgentResponse toFixed2 text JsMap.empty).
Proof. split; reflexivity. Qed.

End AdvicePenalty.

(** C4, at the direct answer of the verifier's unit test. LLM call #1 asks
    for no tool and answers "You should buy more AAPL because it has
    guaranteed returns."; the answer matches the advice-boundary patterns
    and the response carries the advice warning, but its confidence is the
    base score 1.0 of the direct path, not a smaller one. *)
Theorem direct_answer_with_advice_keeps_base_confidence :
  let turn :=
    Examples.turn [AgentService.TextBlock Examples.ADVICE_ANSWER]
      EmptyString "What should I do?" in
  let r := AgentService.response turn in
  answer r = Examples.ADVICE_ANSWER
  /\ Verifier.matchesAdvice (answer r) = true
  /\ toolTrace r = []
  /\ existsb (JsString.includes "advice") (warnings r) = true
  /\ confidence r = Verifier.computeConfidence false false 0 0 true
  /\ (confidence r == 1)%Q.
Proof.
  cbv zeta. repeat split; vm_compute; reflexivity.
Qed.

(* ===================================================================== *)
(** * Part III: further properties of the code                             *)
(* ===================================================================== *)

(** ** The tool registry *)

Section RegistryFacts.

Variable Executor : Type.
Implicit Types (tools : ToolRegistry Executor) (tool : RegisteredTool Executor).

(** X1. Looking a name up after a registration: the tool just registered
    answers for its own name (its executor when it is enabled, nothing
    when it is disabled, whatever was registered under that name before),
    and every other name is answered as before. *)
Theorem register_then_lookup tool tools (nm : string) :
  getExecutor nm (register tool tools)
  = (if String.eqb (name (definition tool)) nm
     then if enabled tool then Some (executor tool) else None
     else getExecutor nm tools)
  /\ isEnabled nm (register tool tools)
     = (if String.eqb (name (definition tool)) nm then enabled tool
        else isEnabled nm tools).
Proof.
  unfold getExecutor, isEnabled, register.
  destruct (String.eqb (name (definition tool)) nm) eqn:E.
  - apply String.eqb_eq in E. subst nm. rewrite get_set_same.
    destruct (enabled tool); auto.
  - apply String.eqb_neq in E. rewrite (get_set_other _ _ _ _ E). auto.
Qed.

Lemma In_set (V : Type) (k k' : string) (v v' : V) (m : JsMap.t V) :
  In (k', v') (JsMap.set k v m) -> (k', v') = (k, v) \/ In (k', v') m.
Proof.
  induction m as [| [k0 v0] m IH]; cbn.
  - intros [H | []]. left. congruence.
  - destruct (String.eqb k k0) eqn:E; cbn.
    + apply String.eqb_eq in E. subst k0.
      intros [H | H]; [left; congruence | right; right; exact H].
    + intros [H | H]; [right; left; exact H |].
      destruct (IH H); auto.
Qed.

Lemma Built_filed tools : Registry.Built tools -> Registry.filed tools.
Proof.
  induction 1 as [| tool tools B [N F]]; split.
  - constructor.
  - intros k tool [].
  - apply NoDup_keys_set, N.
  - intros k t I. apply In_set in I. destruct I as [I | I]; [| eauto].
    injection I as -> ->. reflexivity.
Qed.

Lemma filed_tail (k : string) tool tools :
  Registry.filed ((k, tool) :: tools) -> Registry.filed tools.
Proof.
  intros [N F]. inversion N; subst. split; [assumption |].
  intros k' t I. apply F. right. exact I.
Qed.

Lemma getToolNames_keys tools :
  Registry.filed tools ->
  getToolNames tools
  = JsMap.keys (filter (fun e => enabled (snd e)) tools).
Proof.
  unfold getToolNames, JsMap.values, JsMap.keys.
  induction tools as [| [k t] tools IH]; intro F; [reflexivity |].
  cbn [map filter snd]. pose proof (filed_tail _ _ _ F) as F'.
  destruct (enabled t) eqn:E; cbn [map fst]; rewrite (IH F'); [| reflexivity].
  f_equal. symmetry. apply (proj2 F). left. reflexivity.
Qed.

Lemma NoDup_keys_filter (V : Type) (f : string * V -> bool) (m : JsMap.t V) :
  NoDup (JsMap.keys m) -> NoDup (JsMap.keys (filter f m)).
Proof.
  unfold JsMap.keys. induction m as [| e m IH]; cbn; intro N; [constructor |].
  inversion N as [| ? ? NI N']; subst.
  destruct (f e); cbn; [| auto]. constructor; [| auto].
  intro I. apply NI. apply in_map_iff in I. destruct I as [x [E I]].
  apply filter_In in I. apply in_map_iff. exists x. tauto.
Qed.

(** X2. In a registry built by registrations, the names offered to the
    LLM are exactly the names that dispatch to an executor, each offered
    once; and they are the names of the offered definitions. *)
Theorem offered_tools_are_the_dispatchable_ones tools :
  Registry.Built tools ->
  (forall nm, In nm (getToolNames tools) <-> getExecutor nm tools <> None)
  /\ (forall nm, isEnabled nm tools = true <-> getExecutor nm tools <> None)
  /\ NoDup (getToolNames tools)
  /\ getToolNames tools = map name (getDefinitions tools).
Proof.
  intro B. pose proof (Built_filed tools B) as F. destruct F as [N F].
  assert (Enabled : forall nm,
            isEnabled nm tools = true <-> getExecutor nm tools <> None).
  { intro nm. unfold isEnabled, getExecutor.
    destruct (JsMap.get nm tools) as [t |]; [| split; congruence].
    destruct (enabled t); cbn; split; congruence. }
  split; [| split; [exact Enabled | split]].
  - intro nm. rewrite <- Enabled, (getToolNames_keys tools (conj N F)).
    unfold isEnabled, JsMap.keys. rewrite in_map_iff. split.
    + intros [[k t] [E I]]. cbn in E. subst k.
      apply filter_In in I. destruct I as [I En].
      rewrite (In_get _ _ _ N I). exact En.
    + destruct (JsMap.get nm tools) as [t |] eqn:G; [| discriminate].
      intro En. exists (nm, t). split; [reflexivity |].
      apply filter_In. split; [apply get_In, G | exact En].
  - rewrite (getToolNames_keys tools (conj N F)).
    apply NoDup_keys_filter, N.
  - unfold getToolNames, getDefinitions. rewrite map_map. reflexivity.
Qed.

(** X3. The registry the constructor of the orchestrator builds offers
    the snapshot, performance and simulation tools, and the market-price
    tool exactly when external market data is enabled; with the flag off
    a request for [getMarketPrices] finds no executor. *)
Theorem constructed_registry_tools (describe schema : string -> string)
  (snapshot performance simulate marketPrices : Executor)
  (config : AgentConfig) :
  let tools := Registry.constructed describe schema snapshot performance
                 simulate marketPrices config in
  Registry.Built tools
  /\ getToolNames tools
     = ["getPortfolioSnapshot"; "getPerformance"; "simulateAllocationChange"]
       ++ (if enableExternalMarketData config then ["getMarketPrices"] else [])
  /\ getExecutor "getPortfolioSnapshot" tools = Some snapshot
  /\ getExecutor "getPerformance" tools = Some performance
  /\ getExecutor "simulateAllocationChange" tools = Some simulate
  /\ getExecutor "getMarketPrices" tools
     = (if enableExternalMarketData config then Some marketPrices else None).
Proof.
  cbv zeta. split; [repeat constructor |].
  unfold Registry.constructed, getToolNames, getExecutor, register.
  cbn. destruct (enableExternalMarketData config); cbn; auto 6.
Qed.

End RegistryFacts.

(** The registry of the example world is built by three registrations. *)
Lemma offered_tools_example :
  Registry.Built Examples.registry
  /\ NoDup (getToolNames Examples.registry)
  /\ getToolNames Examples.registry
     = map name (getDefinitions Examples.registry).
Proof.
  assert (B : Registry.Built Examples.registry) by repeat constructor.
  split; [exact B |].
  exact (proj2 (proj2 (offered_tools_are_the_dispatchable_ones
                         _ Examples.registry B))).
Defined.

(** ** The verifier *)

Section VerifierFacts.

Import Verifier VerifierReadings.

Variable toFixed2 : Q -> string.

Local Abbreviation checkAllocationSum := (checkAllocationSum toFixed2).
Local Abbreviation verifyAgentResponse := (verifyAgentResponse toFixed2).

Lemma adviceLoop_no_match (patterns : list Regex.regex) (text : string)
  (acc : VerificationResult) :
  existsb (fun pattern => Regex.test pattern text) patterns = false ->
  adviceLoop patterns text acc = acc.
Proof.
  induction patterns as [| p ps IH]; cbn; [reflexivity |].
  destruct (Regex.test p text); cbn; [discriminate | exact IH].
Qed.

Lemma checkAdviceBoundary_cases (text : string) :
  checkAdviceBoundary text
  = if matchesAdvice text
    then {| v_warnings := [ADVICE_WARNING];
            confidenceAdjustment := (0 + (2 # 10))%Q |}
    else clean.
Proof.
  unfold checkAdviceBoundary, matchesAdvice.
  destruct (existsb _ FORBIDDEN_ADVICE_PATTERNS) eqn:E.
  - rewrite (adviceLoop_match _ _ _ E). reflexivity.
  - rewrite (adviceLoop_no_match _ _ _ E). reflexivity.
Qed.

Lemma checkAllocationSum_shape (rows : list AllocationRow) :
  checkAllocationSum rows = clean
  \/ exists warning,
       JsString.startsWith "Allocation" warning = true
       /\ checkAllocationSum rows
          = {| v_warnings := [warning];
               confidenceAdjustment := (0 + (1 # 10))%Q |}.
Proof.
  unfold Verifier.checkAllocationSum. destruct rows as [| row rows]; [auto |].
  destruct (negb _); [right | auto].
  eexists. split; [| reflexivity]. reflexivity.
Qed.

Lemma checkValuationLabel_cases (text : string) :
  checkValuationLabel text
  = if mentionsCostBasis text then clean
    else {| v_warnings := [VALUATION_WARNING];
            confidenceAdjustment := (0 + (1 # 10))%Q |}.
Proof.
  unfold checkValuationLabel. fold (mentionsCostBasis text).
  destruct (mentionsCostBasis text); reflexivity.
Qed.

Ltac verifier_cases text toolResults :=
  unfold Verifier.verifyAgentResponse, priceDataMissing;
  rewrite checkAdviceBoundary_cases, checkValuationLabel_cases;
  destruct (matchesAdvice text), (mentionsCostBasis text);
  destruct (JsMap.get "getPortfolioSnapshot" toolResults) as [r |];
  cbn [option_map];
  try (destruct (Cast.allocationBySymbol r) as [rows |];
       [destruct (checkAllocationSum_shape rows) as [-> | [warning [A ->]]] |];
       destruct (Cast.isPriceDataMissing r) as [[|] |]);
  cbn [accumulate v_warnings confidenceAdjustment clean app].

Lemma verifyAgentResponse_bounds (text : string)
  (toolResults : JsMap.t ToolResult) :
  let v := verifyAgentResponse text toolResults in
  (0 <= confidenceAdjustment v)%Q
  /\ (v_warnings v = [] <-> (confidenceAdjustment v == 0)%Q).
Proof.
  cbv zeta. verifier_cases text toolResults;
    (split; [lra |]);
    (split; [first [discriminate | reflexivity | intros _; lra]
            | first [reflexivity | intro H; exfalso; lra]]).
Qed.

(** X4. The verifier's penalty: it lies between 0 and 0.4, there are at
    most three warnings, and the penalty is 0 exactly when there is no
    warning. *)
Theorem verifier_penalty_bounds (text : string)
  (toolResults : JsMap.t ToolResult) :
  let v := verifyAgentResponse text toolResults in
  (0 <= confidenceAdjustment v)%Q
  /\ (confidenceAdjustment v <= 4 # 10)%Q
  /\ (List.length (v_warnings v) <= 3)%nat
  /\ (v_warnings v = [] <-> (confidenceAdjustment v == 0)%Q).
Proof.
  cbv zeta. verifier_cases text toolResults;
    (split; [lra |]); (split; [lra |]); (split; [cbn; lia |]);
    (split; [first [discriminate | reflexivity | intros _; lra]
            | first [reflexivity | intro H; exfalso; lra]]).
Qed.

Lemma advice_is_not_allocation :
  JsString.startsWith "Allocation" ADVICE_WARNING = false
  /\ JsString.startsWith "Allocation" VALUATION_WARNING = false
  /\ ADVICE_WARNING <> VALUATION_WARNING.
Proof. split; [reflexivity | split; [reflexivity | discriminate]]. Qed.

(** X5. What each fixed warning of the verifier means: the advice warning
    is raised exactly when the answer matches a forbidden pattern; the
    valuation warning exactly when the snapshot among the tool results
    reports missing price data and the lower-cased answer contains none
    of the valuation keywords. *)
Theorem verifier_warning_causes (text : string)
  (toolResults : JsMap.t ToolResult) :
  let v := verifyAgentResponse text toolResults in
  (In ADVICE_WARNING (v_warnings v) <-> matchesAdvice text = true)
  /\ (In VALUATION_WARNING (v_warnings v)
      <-> priceDataMissing toolResults = true
          /\ mentionsCostBasis text = false).
Proof.
  destruct advice_is_not_allocation as [NA [NV NE]].
  cbv zeta. verifier_cases text toolResults; cbn [In];
    (split; split; intro H;
     repeat match goal with
            | H : _ \/ _ |- _ => destruct H
            | H : _ /\ _ |- _ => destruct H
            | H : False |- _ => destruct H
            end;
     subst; try congruence; auto 10).
Qed.

End VerifierFacts.

(** An answer that writes "market" with the Kelvin sign, over a snapshot
    without prices: the lower-cased answer holds the keyword, and no
    valuation warning is raised. *)
Lemma verifier_kelvin_example :
  VerifierReadings.mentionsCostBasis Examples.kelvinAnswer = true
  /\ ~ In Verifier.VALUATION_WARNING
         (Verifier.v_warnings
            (Verifier.verifyAgentResponse Examples.showInteger
               Examples.kelvinAnswer
               [("getPortfolioSnapshot",
                 SnapshotResult
                   (GetPortfolioSnapshotTool.mapToSnapshot "2026-02-01"
                      Scenarios.unpricedDetails "USD"))])).
Proof.
  split; [vm_compute; reflexivity |].
  intro H.
  apply (proj2 (verifier_warning_causes Examples.showInteger
                  Examples.kelvinAnswer _)) in H.
  destruct H as [_ H]. vm_compute in H. discriminate.
Defined.

(** ** The advice patterns *)

Section AdvicePatterns.

Import Regex JsString.

Lemma eat_app (text s rest post : string) :
  eat text s = Some rest -> eat text (s ++ post) = Some (rest ++ post)%string.
Proof.
  revert s. induction text as [| c text IH]; intros s; cbn.
  - intros [= ->]. reflexivity.
  - destruct s as [| d s]; cbn; [discriminate |].
    destruct (Ascii.eqb (lower_ascii c) (lower_ascii d)); [apply IH | discriminate].
Qed.

Lemma matchAt_app (r : regex) (post : string) :
  forall (s : string) (k k' : string -> bool),
    (forall x, k x = true -> k' (x ++ post)%string = true) ->
    matchAt r s k = true -> matchAt r (s ++ post) k' = true.
Proof.
  induction r as [text | a IHa b IHb | a IHa b IHb | a IHa];
    intros s k k' K; cbn.
  - destruct (eat text s) as [rest |] eqn:E; [| discriminate].
    rewrite (eat_app _ _ _ post E). apply K.
  - apply IHa. intros x. apply IHb, K.
  - rewrite !orb_true_iff. intros [H | H]; [left | right]; eauto.
  - rewrite !orb_true_iff. intros [H | H]; [left | right]; eauto.
Qed.

Lemma test_app_r (r : regex) (s post : string) :
  test r s = true -> test r (s ++ post) = true.
Proof.
  induction s as [| c s IH]; cbn.
  - rewrite orb_false_r. intro M.
    apply (matchAt_app r post EmptyString (fun _ => true) (fun _ => true)) in M;
      [| reflexivity].
    cbn in M. destruct post; cbn; rewrite M; reflexivity.
  - rewrite !orb_true_iff. intros [M | M]; [left | right; auto].
    apply (matchAt_app r post (String c s) (fun _ => true) (fun _ => true));
      auto.
Qed.

Lemma test_app_l (r : regex) (pre s : string) :
  test r s = true -> test r (pre ++ s) = true.
Proof.
  intro M. induction pre as [| c pre IH]; cbn; [exact M |].
  rewrite IH. apply orb_true_r.
Qed.

Lemma foldAscii_cons_inv (c : ascii) (s s' : string) :
  foldAscii (String c s) = foldAscii s' ->
  exists d t, s' = String d t /\ lower_ascii c = lower_ascii d
              /\ foldAscii s = foldAscii t.
Proof.
  destruct s' as [| d t]; cbn; [discriminate |].
  intros [= A B]. eauto.
Qed.

Lemma eat_fold (text : string) :
  forall s s', foldAscii s = foldAscii s' ->
    match eat text s, eat text s' with
    | Some rest, Some rest' => foldAscii rest = foldAscii rest'
    | None, None => True
    | _, _ => False
    end.
Proof.
  induction text as [| c text IH]; intros s s' E; cbn; [exact E |].
  destruct s as [| d s].
  - destruct s'; [exact I | discriminate].
  - apply foldAscii_cons_inv in E. destruct E as [d' [t [-> [L E]]]].
    rewrite L. destruct (Ascii.eqb (lower_ascii c) (lower_ascii d'));
      [apply IH, E | exact I].
Qed.

Lemma matchAt_fold (r : regex) :
  forall (s s' : string) (k k' : string -> bool),
    foldAscii s = foldAscii s' ->
    (forall x x', foldAscii x = foldAscii x' -> k x = k' x') ->
    matchAt r s k = matchAt r s' k'.
Proof.
  induction r as [text | a IHa b IHb | a IHa b IHb | a IHa];
    intros s s' k k' E K; cbn.
  - pose proof (eat_fold text s s' E) as F.
    destruct (eat text s), (eat text s'); try contradiction; auto.
  - apply IHa; [exact E |]. intros x x' X. apply IHb; auto.
  - f_equal; auto.
  - f_equal; auto.
Qed.

Lemma test_fold (r : regex) (s : string) :
  forall s', foldAscii s = foldAscii s' -> test r s = test r s'.
Proof.
  induction s as [| c s IH]; intros s' E.
  - destruct s'; [reflexivity | discriminate].
  - pose proof E as E'.
    apply foldAscii_cons_inv in E'. destruct E' as [d [t [-> [L E']]]].
    cbn [test]. f_equal; [| apply IH, E'].
    apply matchAt_fold; auto.
Qed.

(** X6. The advice check cannot be evaded by wrapping or by letter case:
    an answer that contains a matching text matches, whatever is written
    before and after it; and two answers that differ only in the case of
    ASCII letters are judged alike. *)
Theorem advice_check_ignores_context_and_case :
  (forall pre s post,
      Verifier.matchesAdvice s = true ->
      Verifier.matchesAdvice (pre ++ s ++ post) = true)
  /\ (forall s s',
         foldAscii s = foldAscii s' ->
         Verifier.matchesAdvice s = Verifier.matchesAdvice s').
Proof.
  unfold Verifier.matchesAdvice. split.
  - intros pre s post M. apply existsb_exists in M.
    destruct M as [r [I M]]. apply existsb_exists. exists r.
    split; [exact I |]. apply test_app_l, test_app_r, M.
  - intros s s' E.
    induction Verifier.FORBIDDEN_ADVICE_PATTERNS as [| r rs IH];
      cbn [existsb]; [reflexivity |].
    rewrite IH, (test_fold r s s' E). reflexivity.
Qed.

End AdvicePatterns.

(** An answer that shouts its advice inside a longer sentence. *)
Lemma advice_check_example :
  Verifier.matchesAdvice "Honestly, YOU SHOULD BUY more of it." = true.
Proof.
  rewrite <- (proj2 advice_check_ignores_context_and_case
                "Honestly, you should buy more of it."
                "Honestly, YOU SHOULD BUY more of it." eq_refl).
  apply (proj1 advice_check_ignores_context_and_case
           "Honestly, " "you should buy" " more of it.").
  reflexivity.
Defined.

(** ** The orchestrator: every path of one turn *)

Lemma includes_inside (pre sub post : string) :
  JsString.includes sub (pre ++ sub ++ post) = true.
Proof.
  unfold JsString.includes.
  assert (P : JsString.startsWith sub (sub ++ post) = true).
  { clear. induction sub as [| a sub IH]; cbn; [reflexivity |].
    rewrite Ascii.eqb_refl. exact IH. }
  induction pre as [| c pre IH]; cbn [append JsString.indexOf].
  - destruct (sub ++ post)%string; cbn [JsString.indexOf]; rewrite P; reflexivity.
  - destruct (JsString.startsWith sub (String c (pre ++ sub ++ post)));
      [reflexivity |].
    destruct (JsString.indexOf sub (pre ++ sub ++ post));
      [reflexivity | discriminate].
Qed.

Lemma Math_max0_bounds (base adj : Q) :
  (base <= 1)%Q -> (0 <= adj)%Q ->
  (0 <= Math_max0 (base - adj))%Q
  /\ (Math_max0 (base - adj) <= 1)%Q
  /\ ((0 <= base)%Q -> (Math_max0 (base - adj) <= base)%Q).
Proof.
  intros B A. unfold Math_max0.
  destruct (Qle_bool 0 (base - adj)) eqn:E.
  - apply Qle_bool_iff in E. split; [lra | split; [lra | intro; lra]].
  - split; [lra | split; [lra | intro; lra]].
Qed.

Section ChatPaths.

Import AgentService.

Variable W : Type.
Variable Input : Type.
Variable Date_now : W -> Z * W.
Variable today : W -> IsoDate.
Variable buildSystemPrompt : string -> string -> string -> string.
Variable messages_create :
  LlmRequest Input -> W -> Outcome (list (ContentBlock Input)) * W.
Variable stringify_result : ToolResult -> Outcome string.
Variable stringify_error : string -> string.
Variable toFixed2 : Q -> string.
Variable agentConfig : AgentConfig.
Variable toolRegistry : ToolRegistry (Executor W Input).

Local Abbreviation runTool :=
  (runTool W Input Date_now stringify_result stringify_error toolRegistry).
Local Abbreviation runTools :=
  (runTools W Input Date_now stringify_result stringify_error toolRegistry).
Local Abbreviation chat :=
  (chat W Input Date_now today buildSystemPrompt messages_create
     stringify_result stringify_error toFixed2 agentConfig toolRegistry).
Local Abbreviation llmRequest := (llmRequest W Input agentConfig toolRegistry).
Local Abbreviation systemPromptOf := (systemPromptOf W today buildSystemPrompt).
Local Abbreviation toolResponse := (toolResponse Input toFixed2).
Local Abbreviation baseConfidence := (baseConfidence Input).

Lemma get_set_present (V : Type) (k nm : string) (v : V) (m : JsMap.t V) :
  JsMap.get nm (JsMap.set k v m) <> None
  <-> JsMap.get nm m <> None \/ nm = k.
Proof.
  destruct (String.eqb k nm) eqn:E.
  - apply String.eqb_eq in E. subst nm. rewrite get_set_same.
    split; [auto | discriminate].
  - apply String.eqb_neq in E. rewrite (get_set_other _ _ _ _ E).
    split; [auto | intros [H | H]; [exact H | congruence]].
Qed.

Local Abbreviation serialisable :=
  (serialisable W Input stringify_result toolRegistry).
Local Abbreviation Answered := (Answered Input).

Lemma count_app (f : ToolTraceRow -> bool) (xs ys : list ToolTraceRow) :
  count f (xs ++ ys) = (count f xs + count f ys)%Z.
Proof. unfold count. rewrite filter_app, length_app. lia. Qed.

(** One iteration in full: the rows, the result block, the counters and
    the result map. *)
Lemma runTool_effect (toolContext : ToolContext) (toolUse : ToolUseBlock Input)
  (st : TurnState Input) (w : W) :
  exists rows block,
    st_toolTrace (fst (runTool toolContext (st, w) toolUse))
    = st_toolTrace st ++ rows
    /\ st_toolResultBlocks (fst (runTool toolContext (st, w) toolUse))
       = st_toolResultBlocks st ++ [block]
    /\ Answered [toolUse] rows [block]
    /\ (serialisable -> exists row, rows = [row])
    /\ st_toolsSucceeded (fst (runTool toolContext (st, w) toolUse))
       = (st_toolsSucceeded st + count ok rows)%Z
    /\ st_toolsFailed (fst (runTool toolContext (st, w) toolUse))
       = (st_toolsFailed st + count failed rows)%Z
    /\ (forall nm,
           JsMap.get nm
             (st_toolResults (fst (runTool toolContext (st, w) toolUse)))
           <> None
           <-> JsMap.get nm (st_toolResults st) <> None
               \/ exists row, In row rows /\ ok row = true /\ tool row = nm).
Proof.
  unfold AgentService.runTool.
  destruct (Date_now w) as [t0 w0].
  destruct (getExecutor (tu_name toolUse) toolRegistry) as [exec |] eqn:G.
  - destruct (exec (tu_input toolUse) toolContext w0) as [[result | e] w1]
      eqn:X.
    + unfold recordSuccess. destruct (Date_now w1) as [t1 w2].
      destruct (stringify_result result) as [text | e] eqn:J.
      * eexists [_]. eexists. cbn [fst st_toolTrace st_toolResultBlocks
          st_toolsSucceeded st_toolsFailed st_toolResults invoked].
        split; [reflexivity |]. split; [reflexivity |].
        split; [apply AnsweredOnce; try reflexivity; constructor |].
        split; [intros _; eexists; reflexivity |].
        split; [unfold count, failed; cbn; lia |].
        split; [unfold count, failed; cbn; lia |].
        intro nm. rewrite get_set_present. cbn [In ok tool]. split.
        -- intros [H | H]; [left; exact H |].
           right. eexists. split; [left; reflexivity |]. cbn. auto.
        -- intros [H | [row [[<- | []] [_ H]]]]; [left; exact H |].
           right. cbn in H. auto.
      * unfold recordFailure. cbn [st_toolTrace st_toolResults
          st_toolsSucceeded st_toolsFailed st_toolResultBlocks st_executed
          invoked].
        destruct (Date_now w2) as [t2 w3].
        eexists [_; _]. eexists. cbn [fst st_toolTrace st_toolResultBlocks
          st_toolsSucceeded st_toolsFailed st_toolResults].
        split; [rewrite <- app_assoc; reflexivity |].
        split; [reflexivity |].
        split; [apply AnsweredTwice; try reflexivity; constructor |].
        split.
        { intro Ser. destruct (Ser _ _ _ _ _ _ _ G X) as [text T].
          congruence. }
        split; [unfold count, failed; cbn; lia |].
        split; [unfold count, failed; cbn; lia |].
        intro nm. rewrite get_set_present. cbn [In ok tool]. split.
        -- intros [H | H]; [left; exact H |].
           right. eexists. split; [left; reflexivity |]. cbn. auto.
        -- intros [H | [row [[<- | [<- | []]] [O H]]]];
             [left; exact H | right; cbn in H; auto | discriminate O].
    + unfold recordFailure. destruct (Date_now w1) as [t1 w2].
      eexists [_]. eexists. cbn [fst st_toolTrace st_toolResultBlocks
        st_toolsSucceeded st_toolsFailed st_toolResults invoked].
      split; [reflexivity |]. split; [reflexivity |].
      split; [apply AnsweredOnce; try reflexivity; constructor |].
      split; [intros _; eexists; reflexivity |].
      split; [unfold count, failed; cbn; lia |].
      split; [unfold count, failed; cbn; lia |].
      intro nm. cbn [In]. split; [auto |].
      intros [H | [row [[<- | []] [O _]]]]; [exact H | discriminate O].
  - unfold recordUnknown. destruct (Date_now w0) as [t1 w1].
    eexists [_]. eexists. cbn [fst st_toolTrace st_toolResultBlocks
      st_toolsSucceeded st_toolsFailed st_toolResults].
    split; [reflexivity |]. split; [reflexivity |].
    split; [apply AnsweredOnce; try reflexivity; constructor |].
    split; [intros _; eexists; reflexivity |].
    split; [unfold count, failed; cbn; lia |].
    split; [unfold count, failed; cbn; lia |].
    intro nm. cbn [In]. split; [auto |].
    intros [H | [row [[<- | []] [O _]]]]; [exact H | discriminate O].
Qed.

Lemma Answered_cons (toolUse : ToolUseBlock Input)
  (first : list ToolTraceRow) (block : ToolResultBlockParam)
  (rest : list (ToolUseBlock Input)) (rows : list ToolTraceRow)
  (blocks : list ToolResultBlockParam) :
  Answered [toolUse] first [block] ->
  Answered rest rows blocks ->
  Answered (toolUse :: rest) (first ++ rows) (block :: blocks).
Proof.
  intros A B. inversion A as [| ? ? ? ? ? ? ? ? ? T | ? ? ? ? ? ? ? ? ? ? ? ? ? T];
    subst; inversion T; subst; cbn [app].
  - apply AnsweredOnce; assumption.
  - apply AnsweredTwice; assumption.
Qed.

(** The requests have one block each; with one row each, a block is
    marked as an error exactly when its row failed. *)
Lemma Answered_blocks (requests : list (ToolUseBlock Input))
  (rows : list ToolTraceRow) (blocks : list ToolResultBlockParam) :
  Answered requests rows blocks ->
  map tool_use_id blocks = map tu_id requests
  /\ (List.length requests <= List.length rows <= 2 * List.length requests)%nat
  /\ (List.length rows = List.length requests ->
      map is_error blocks = map failed rows
      /\ map tool rows = map tu_name requests).
Proof.
  induction 1 as [| toolUse row block rest rows blocks N I E A [IH1 [IH2 IH3]]
                  | toolUse first second block rest rows blocks
                      N1 N2 O1 O2 I E A [IH1 [IH2 IH3]]];
    cbn [map List.length].
  - repeat split; lia.
  - split; [congruence |]. split; [lia |].
    intro L. destruct IH3 as [F T]; [lia |].
    unfold failed at 1. rewrite E, N, F, T. split; reflexivity.
  - split; [congruence |]. split; [lia |]. intro L. lia.
Qed.

(** The whole loop in full. *)
Lemma runTools_effect (toolContext : ToolContext)
  (requests : list (ToolUseBlock Input)) :
  forall (st : TurnState Input) (w : W),
  exists rows blocks,
    st_toolTrace (fst (runTools toolContext requests st w))
    = st_toolTrace st ++ rows
    /\ st_toolResultBlocks (fst (runTools toolContext requests st w))
       = st_toolResultBlocks st ++ blocks
    /\ Answered requests rows blocks
    /\ (serialisable -> List.length rows = List.length requests)
    /\ st_toolsSucceeded (fst (runTools toolContext requests st w))
       = (st_toolsSucceeded st + count ok rows)%Z
    /\ st_toolsFailed (fst (runTools toolContext requests st w))
       = (st_toolsFailed st + count failed rows)%Z
    /\ (forall nm,
           JsMap.get nm
             (st_toolResults (fst (runTools toolContext requests st w)))
           <> None
           <-> JsMap.get nm (st_toolResults st) <> None
               \/ exists row, In row rows /\ ok row = true /\ tool row = nm).
Proof.
  induction requests as [| toolUse rest IH]; intros st w.
  - exists [], []. cbn. rewrite !app_nil_r.
    split; [reflexivity |]. split; [reflexivity |].
    split; [constructor |]. split; [reflexivity |].
    split; [unfold count; cbn; lia |]. split; [unfold count; cbn; lia |].
    intro nm. split; [auto | intros [H | [row [[] _]]]; exact H].
  - rewrite runTools_cons.
    destruct (runTool_effect toolContext toolUse st w)
      as [first [block [T [B [A [One [S [F R]]]]]]]].
    destruct (IH (fst (runTool toolContext (st, w) toolUse))
                 (snd (runTool toolContext (st, w) toolUse)))
      as [rows [blocks [T' [B' [A' [One' [S' [F' R']]]]]]]].
    exists (first ++ rows), (block :: blocks).
    rewrite T', B', S', F', T, B, S, F, <- !app_assoc.
    rewrite !count_app.
    split; [reflexivity |]. split; [reflexivity |].
    split; [apply Answered_cons; assumption |].
    split.
    { intro Ser. destruct (One Ser) as [row ->].
      cbn [app List.length]. rewrite (One' Ser). reflexivity. }
    split; [lia |]. split; [lia |].
    intro nm. rewrite R', R. split.
    + intros [[H | [row [H [O X]]]] | [row [H [O X]]]]; auto.
      * right. exists row. rewrite in_app_iff. auto.
      * right. exists row. rewrite in_app_iff. auto.
    + intros [H | [row [H [O X]]]]; auto.
      apply in_app_iff in H. destruct H as [H | H].
      * left. right. exists row. auto.
      * right. exists row. auto.
Qed.

Lemma computeConfidence_le_1 (e m : bool) (s f : Z) (h : bool) :
  (Verifier.computeConfidence e m s f h <= 1)%Q.
Proof.
  pose proof (computeConfidence_values e m s f h) as H. cbn in H.
  destruct H as [<- | [<- | [<- | [<- | []]]]]; discriminate.
Qed.

Lemma computeConfidence_failed (e m : bool) (s f : Z) (h : bool) :
  (0 < f)%Z ->
  (Verifier.computeConfidence e m s f h <= 4 # 10)%Q
  /\ (s = 0%Z -> Verifier.computeConfidence e m s f h = 1 # 10).
Proof.
  intro F. unfold Verifier.computeConfidence.
  apply Z.ltb_lt in F. rewrite F. cbn [andb].
  destruct (s =? 0)%Z eqn:S0.
  - split; [discriminate | reflexivity].
  - split; [destruct (negb h); discriminate |].
    intro X. apply Z.eqb_neq in S0. contradiction.
Qed.

Lemma computeConfidence_high (e m : bool) (s f : Z) (h : bool) :
  (7 # 10 < Verifier.computeConfidence e m s f h)%Q ->
  h = true /\ (f <= 0)%Z /\ m = false /\ e = false.
Proof.
  unfold Verifier.computeConfidence.
  destruct (0 <? f)%Z eqn:F; cbn [andb].
  - destruct (s =? 0)%Z; [discriminate |]. destruct (negb h); discriminate.
  - apply Z.ltb_ge in F. destruct h; cbn [negb]; [| discriminate].
    destruct m, e; cbn [orb]; try discriminate. auto.
Qed.

Lemma count_nonneg (f : ToolTraceRow -> bool) (rows : list ToolTraceRow) :
  (0 <= count f rows)%Z.
Proof. unfold count. lia. Qed.

Lemma count_some (f : ToolTraceRow -> bool) (rows : list ToolTraceRow) :
  existsb f rows = true <-> (0 < count f rows)%Z.
Proof.
  unfold count. induction rows as [| row rows IH]; cbn.
  - split; [discriminate | lia].
  - destruct (f row); cbn; [split; [lia | reflexivity] | exact IH].
Qed.

Lemma count_none (rows : list ToolTraceRow) :
  forallb failed rows = true <-> count ok rows = 0%Z.
Proof.
  unfold count, failed. induction rows as [| row rows IH]; cbn.
  - split; reflexivity.
  - destruct (ok row); cbn; [split; [discriminate | lia] | exact IH].
Qed.

Lemma count_all (rows : list ToolTraceRow) :
  forallb ok rows = true <-> (count failed rows <= 0)%Z.
Proof.
  unfold count, failed. induction rows as [| row rows IH]; cbn.
  - split; [lia | reflexivity].
  - destruct (ok row); cbn; [exact IH | split; [discriminate | lia]].
Qed.

(** Case analysis on the outcome of the LLM call the goal waits for. *)
Ltac case_call :=
  match goal with
  | |- context [messages_create ?rq ?x] =>
      destruct (messages_create rq x) as [[?c | ?e] ?w']
  end.

(** The four ways a turn ends. *)
Lemma chat_paths (request : AgentChatRequest) (userContext : UserContext)
  (w : W) :
  (exists msg, response (chat request userContext w) = buildErrorResponse msg [])
  \/ (exists text,
        response (chat request userContext w) = directResponse toFixed2 text)
  \/ exists requests w1,
       requests <> []
       /\ ((exists msg,
              response (chat request userContext w)
              = buildErrorResponse msg
                  (st_toolTrace
                     (fst (runTools (toolContextOf userContext) requests
                             (initialTurn Input) w1))))
           \/ exists text,
                response (chat request userContext w)
                = toolResponse text
                    (fst (runTools (toolContextOf userContext) requests
                            (initialTurn Input) w1))).
Proof.
  unfold AgentService.chat.
  destruct (negb (JsString.truthy (anthropicApiKey agentConfig)));
    [left; eexists; reflexivity |].
  case_call; [| left; eexists; reflexivity].
  destruct (toolUses Input c) as [| toolUse rest] eqn:U;
    [right; left; eexists; reflexivity |].
  right. right. exists (toolUse :: rest), w'. split; [discriminate |].
  destruct (AgentService.runTools _ _ _ _ _ _ _ _ _ _) as [st w2].
  case_call; [right | left]; eexists; reflexivity.
Qed.

Lemma baseConfidence_le_1 (st : TurnState Input) : (baseConfidence st <= 1)%Q.
Proof. unfold AgentService.baseConfidence. apply computeConfidence_le_1. Qed.

(** X7. Whatever the request, the provider and the tools do, the
    confidence of the response of [chat] lies between 0 and 1. *)
Theorem chat_confidence_in_unit_interval (request : AgentChatRequest)
  (userContext : UserContext) (w : W) :
  (0 <= confidence (response (chat request userContext w)))%Q
  /\ (confidence (response (chat request userContext w)) <= 1)%Q.
Proof.
  destruct (chat_paths request userContext w)
    as [[msg ->] | [[text ->] | [requests [w1 [_ [[msg ->] | [text ->]]]]]]].
  - cbn. split; discriminate.
  - cbn [confidence directResponse].
    pose proof (computeConfidence_positive false false 0 0 true).
    pose proof (computeConfidence_le_1 false false 0 0 true). split; lra.
  - cbn. split; discriminate.
  - cbn [confidence AgentService.toolResponse].
    set (st := fst _).
    destruct (verifyAgentResponse_bounds toFixed2 text (st_toolResults st))
      as [A _].
    destruct (Math_max0_bounds _ _ (baseConfidence_le_1 st) A) as [L [U _]].
    split; assumption.
Qed.

(** X8. The turns that end before any tool: without an API key [chat]
    answers with the fixed notice and leaves the world untouched; when
    LLM call #1 throws it answers with the error response whose text
    carries the message of the error. Both have confidence 0.1, no
    warnings, an empty trace, and no executor has run. *)
Theorem chat_answers_without_llm (request : AgentChatRequest)
  (userContext : UserContext) (w : W) :
  (JsString.truthy (anthropicApiKey agentConfig) = false ->
   response (chat request userContext w)
   = buildErrorResponse NOT_CONFIGURED []
   /\ executed (chat request userContext w) = []
   /\ world (chat request userContext w) = w)
  /\ (forall e w1,
         JsString.truthy (anthropicApiKey agentConfig) = true ->
         messages_create
           (llmRequest (systemPromptOf userContext w)
              (call1Messages Input request)) w
         = (Threw e, w1) ->
         response (chat request userContext w)
         = buildErrorResponse (failureAnswer e) []
         /\ JsString.includes (error_text e)
              (answer (response (chat request userContext w))) = true
         /\ (confidence (response (chat request userContext w)) == 1 # 10)%Q
         /\ warnings (response (chat request userContext w)) = []
         /\ executed (chat request userContext w) = []
         /\ world (chat request userContext w) = w1).
Proof.
  unfold AgentService.chat. split.
  - intros ->. cbn. auto.
  - intros e w1 -> C. cbn [negb]. rewrite C.
    cbn [response executed world answer confidence warnings buildErrorResponse].
    repeat split. unfold failureAnswer. apply includes_inside.
Qed.

Lemma count_split (rows : list ToolTraceRow) :
  (count ok rows + count failed rows)%Z = Z.of_nat (List.length rows).
Proof.
  unfold count, failed.
  assert (H : (List.length (filter ok rows)
               + List.length (filter (fun row => negb (ok row)) rows)
               = List.length rows)%nat).
  { induction rows as [| row rows IH]; [reflexivity |].
    cbn [filter]. destruct (ok row); cbn [negb List.length]; lia. }
  lia.
Qed.

(** X9. The tool results sent to LLM call #2: one block per request and in
    the order of the requests, each carrying the id of its request. A
    request has one trace row, and its block is marked as an error exactly
    when the row failed; or, when the result of its tool could not be
    serialised, a successful row followed by a failed one and a block
    marked as an error. The two counters count the succeeded and the
    failed rows, so they add up to the number of rows, which lies between
    the number of requests and twice that number and is the number of
    requests when every result can be serialised. The result map holds
    exactly the names of the tools with a successful row. *)
Theorem tool_results_answer_each_request (toolContext : ToolContext)
  (requests : list (ToolUseBlock Input)) (w : W) :
  let st := fst (runTools toolContext requests (initialTurn Input) w) in
  Answered requests (st_toolTrace st) (st_toolResultBlocks st)
  /\ map tool_use_id (st_toolResultBlocks st) = map tu_id requests
  /\ st_toolsSucceeded st = count ok (st_toolTrace st)
  /\ st_toolsFailed st = count failed (st_toolTrace st)
  /\ (st_toolsSucceeded st + st_toolsFailed st)%Z
     = Z.of_nat (List.length (st_toolTrace st))
  /\ (List.length requests <= List.length (st_toolTrace st)
      <= 2 * List.length requests)%nat
  /\ (serialisable ->
      List.length (st_toolTrace st) = List.length requests
      /\ map is_error (st_toolResultBlocks st) = map failed (st_toolTrace st)
      /\ map tool (st_toolTrace st) = map tu_name requests)
  /\ (forall nm,
         JsMap.get nm (st_toolResults st) <> None
         <-> exists row, In row (st_toolTrace st)
                         /\ ok row = true /\ tool row = nm).
Proof.
  cbv zeta.
  destruct (runTools_effect toolContext requests (initialTurn Input) w)
    as [rows [blocks [T [B [A [One [S [F R]]]]]]]].
  rewrite T, B, S, F. cbn [initialTurn st_toolTrace st_toolResultBlocks
    st_toolsSucceeded st_toolsFailed app Z.add].
  destruct (Answered_blocks _ _ _ A) as [I [L Same]].
  split; [exact A |]. split; [exact I |].
  split; [reflexivity |]. split; [reflexivity |].
  split; [apply count_split |]. split; [exact L |].
  split.
  - intro Ser. specialize (One Ser). split; [exact One |]. apply Same, One.
  - intro nm. rewrite R. cbn.
    split; [intros [H | H]; [congruence | exact H] | auto].
Qed.

(** X10. Failed tools cap the confidence of a turn that ran tools: with a
    failed row in the trace it is at most 0.4, and when every row failed
    it is at most 0.1. *)
Theorem failed_tools_cap_confidence (request : AgentChatRequest)
  (userContext : UserContext) (w : W) :
  toolTrace (response (chat request userContext w)) <> [] ->
  (existsb failed (toolTrace (response (chat request userContext w))) = true ->
   (confidence (response (chat request userContext w)) <= 4 # 10)%Q)
  /\ (forallb failed (toolTrace (response (chat request userContext w))) = true ->
      (confidence (response (chat request userContext w)) <= 1 # 10)%Q).
Proof.
  destruct (chat_paths request userContext w)
    as [[msg ->] | [[text ->] | [requests [w1 [_ [[msg ->] | [text ->]]]]]]].
  - intro H. contradiction H. reflexivity.
  - intro H. contradiction H. reflexivity.
  - intros _. cbn. split; intros _; discriminate.
  - destruct (runTools_effect (toolContextOf userContext) requests
                (initialTurn Input) w1)
      as [rows [blocks [T [_ [_ [_ [S [F _]]]]]]]].
    cbn [toolTrace confidence AgentService.toolResponse].
    set (st := fst _) in *.
    cbn [initialTurn st_toolTrace st_toolsSucceeded st_toolsFailed app Z.add]
      in T, S, F.
    rewrite T. intro NE.
    destruct (verifyAgentResponse_bounds toFixed2 text (st_toolResults st))
      as [A _].
    destruct (Math_max0_bounds _ _ (baseConfidence_le_1 st) A) as [_ [_ U]].
    pose proof (baseConfidence_positive Input st) as P.
    assert (U' := U ltac:(lra)). clear U.
    assert (Cap : (0 < st_toolsFailed st)%Z ->
                  (baseConfidence st <= 4 # 10)%Q
                  /\ (st_toolsSucceeded st = 0%Z ->
                      baseConfidence st = 1 # 10)).
    { intro Pos. unfold AgentService.baseConfidence.
      apply computeConfidence_failed, Pos. }
    split; intro H.
    + apply count_some in H. rewrite <- F in H.
      destruct (Cap H) as [C _]. lra.
    + assert (X : existsb failed rows = true).
      { destruct rows as [| row rows']; [contradiction NE; reflexivity |].
        cbn in H |- *. apply andb_true_iff in H. destruct H as [-> _].
        reflexivity. }
      apply count_some in X. rewrite <- F in X.
      apply count_none in H. rewrite <- S in H.
      destruct (Cap X) as [_ C]. specialize (C H).
      rewrite C in U' |- *. exact U'.
Qed.

(** X11. High confidence has to be earned: a turn that ran tools and
    reports a confidence above 0.7 has no failed row and has a successful
    [getPortfolioSnapshot] row; and at confidence 1 it carries no
    warning. *)
Theorem high_confidence_needs_clean_snapshot (request : AgentChatRequest)
  (userContext : UserContext) (w : W) :
  toolTrace (response (chat request userContext w)) <> [] ->
  (7 # 10 < confidence (response (chat request userContext w)))%Q ->
  forallb ok (toolTrace (response (chat request userContext w))) = true
  /\ (exists row,
         In row (toolTrace (response (chat request userContext w)))
         /\ ok row = true /\ tool row = "getPortfolioSnapshot")
  /\ ((confidence (response (chat request userContext w)) == 1)%Q ->
      warnings (response (chat request userContext w)) = []).
Proof.
  destruct (chat_paths request userContext w)
    as [[msg ->] | [[text ->] | [requests [w1 [_ [[msg ->] | [text ->]]]]]]].
  - intro H. contradiction H. reflexivity.
  - intro H. contradiction H. reflexivity.
  - intros _. cbn. discriminate.
  - destruct (runTools_effect (toolContextOf userContext) requests
                (initialTurn Input) w1)
      as [rows [blocks [T [_ [_ [_ [S [F R]]]]]]]].
    cbn [toolTrace confidence warnings AgentService.toolResponse].
    set (st := fst _) in *.
    cbn [initialTurn st_toolTrace st_toolsSucceeded st_toolsFailed
         st_toolResults app Z.add] in T, S, F, R.
    rewrite T. intros _ High.
    destruct (verifyAgentResponse_bounds toFixed2 text (st_toolResults st))
      as [A Z0].
    destruct (Math_max0_bounds _ _ (baseConfidence_le_1 st) A) as [_ [_ U]].
    pose proof (baseConfidence_positive Input st) as P.
    pose proof (baseConfidence_le_1 st) as L1.
    assert (U' := U ltac:(lra)). clear U.
    assert (B : (7 # 10 < baseConfidence st)%Q) by lra.
    unfold AgentService.baseConfidence in B.
    apply computeConfidence_high in B. destruct B as [Hold [NoFail _]].
    split; [| split].
    + apply count_all. rewrite <- F. exact NoFail.
    + assert (G : JsMap.get "getPortfolioSnapshot" (st_toolResults st)
                  <> None).
      { destruct (JsMap.get "getPortfolioSnapshot" (st_toolResults st));
          [discriminate | discriminate Hold]. }
      apply R in G. destruct G as [G | G]; [contradiction G; reflexivity |].
      exact G.
    + intro One. apply Z0.
      assert (E : (Math_max0
                     (baseConfidence st
                      - Verifier.confidenceAdjustment
                          (Verifier.verifyAgentResponse toFixed2 text
                             (st_toolResults st))) == 1)%Q) by exact One.
      unfold Math_max0 in E.
      destruct (Qle_bool 0 _); lra.
Qed.

End ChatPaths.

(** Two requests, the first for a tool whose result cannot be serialised:
    two blocks, the first marked as an error; three rows; the first tool
    is counted as succeeded and as failed. *)
Lemma tool_results_example :
  let st :=
    fst (AgentService.runTools nat unit Examples.clock Examples.showResult
           Examples.showError Scenarios.bigintRegistry Examples.toolContext
           (AgentService.toolUses unit Scenarios.bigintPlan)
           (AgentService.initialTurn unit) 1%nat) in
  map AgentService.tool_use_id (AgentService.st_toolResultBlocks st)
  = ["tool_1"; "tool_2"]
  /\ map AgentService.is_error (AgentService.st_toolResultBlocks st)
     = [true; false]
  /\ map ok (AgentService.st_toolTrace st) = [true; false; true]
  /\ AgentService.st_toolsSucceeded st = 2%Z
  /\ AgentService.st_toolsFailed st = 1%Z.
Proof.
  cbv zeta.
  destruct (tool_results_answer_each_request nat unit Examples.clock
              Examples.showResult Examples.showError Scenarios.bigintRegistry
              Examples.toolContext
              (AgentService.toolUses unit Scenarios.bigintPlan) 1%nat)
    as [_ [I [S [F _]]]].
  cbv zeta in I, S, F.
  split; [rewrite I; reflexivity |].
  split; [vm_compute; reflexivity |].
  split; [vm_compute; reflexivity |].
  split; [rewrite S; vm_compute; reflexivity |].
  rewrite F. vm_compute. reflexivity.
Defined.

(** The provider is down: the answer carries its message. *)
Lemma chat_provider_failure_example :
  JsString.includes "API rate limit exceeded"
    (answer (AgentService.response Scenarios.failedTurn)) = true.
Proof.
  exact (proj1 (proj2
           (proj2 (chat_answers_without_llm nat unit Examples.clock
                     Examples.todayIs Examples.prompt
                     Scenarios.failingProvider Examples.showResult
                     Examples.showError Examples.showInteger Examples.config
                     Examples.registry (Examples.ask "How is my portfolio?")
                     Examples.user 0%nat)
              (ErrorObject "API rate limit exceeded") 1%nat
              eq_refl eq_refl))).
Defined.

(** Both requested tools fail: the confidence is at most 0.1. *)
Lemma failed_tools_example :
  (confidence
     (AgentService.response
        (Examples.turn Scenarios.failingPlan "I could not read your data."
           "How did I do?")) <= 1 # 10)%Q.
Proof.
  refine (proj2 (failed_tools_cap_confidence nat unit Examples.clock
                   Examples.todayIs Examples.prompt
                   (Examples.provider Scenarios.failingPlan
                      "I could not read your data.")
                   Examples.showResult Examples.showError
                   Examples.showInteger Examples.config Examples.registry
                   (Examples.ask "How did I do?") Examples.user 0%nat _) _).
  - vm_compute. discriminate.
  - vm_compute. reflexivity.
Defined.

(** The snapshot of the mock portfolio, answered without advice: the
    confidence is 1 and the one row succeeded. *)
Lemma high_confidence_example :
  forallb ok
    (toolTrace
       (AgentService.response
          (Examples.turn Scenarios.snapshotPlan
             "Your portfolio holds three positions." "What do I hold?")))
  = true.
Proof.
  refine (proj1 (high_confidence_needs_clean_snapshot nat unit Examples.clock
                   Examples.todayIs Examples.prompt
                   (Examples.provider Scenarios.snapshotPlan
                      "Your portfolio holds three positions.")
                   Examples.showResult Examples.showError
                   Examples.showInteger Examples.config Examples.registry
                   (Examples.ask "What do I hold?") Examples.user 0%nat _ _)).
  - vm_compute. discriminate.
  - vm_compute. reflexivity.
Defined.

(** ** The snapshot under the verifier, and its asset classes *)

Section SnapshotChecked.

Import GetPortfolioSnapshotTool Verifier VerifierReadings.

Variable toFixed2 : Q -> string.

Local Abbreviation checkAllocationSum := (checkAllocationSum toFixed2).
Local Abbreviation verifyAgentResponse := (verifyAgentResponse toFixed2).

Lemma mapToSnapshot_percents now details baseCurrency :
  let r := mapToSnapshot now details baseCurrency in
  (Spec.sum (map percent (allocationBySymbol r))
   == Spec.sum (map (Spec.percentOf (amount (totalValue r)))
                  (map Spec.valueOf
                     (filter retained (details_holdings details)))))%Q.
Proof.
  cbv zeta. rewrite mapToSnapshot_rows, !map_map.
  apply (sum_pointwise
           (fun pos => percent (symbolRow baseCurrency _ (toHoldingRow baseCurrency pos)))
           (fun pos => Spec.percentOf _ (Spec.valueOf pos))).
  induction (filter retained (details_holdings details)) as [| pos ps IH];
    constructor; [| exact IH].
  rewrite symbolRow_percent, holdingValue_valueOf. reflexivity.
Qed.

(** The distance of the sum of the percents from 100, for a positive
    total of non-negative values. *)
Lemma mapToSnapshot_sum_bound now details baseCurrency :
  let r := mapToSnapshot now details baseCurrency in
  (0 < amount (totalValue r))%Q ->
  Forall (fun pos => (0 <= Spec.valueOf pos)%Q)
    (filter retained (details_holdings details)) ->
  (Qabs (Spec.sum (map percent (allocationBySymbol r)) - 100)
   <= Spec.sumTolerance (List.length (holdings r)))%Q.
Proof.
  cbv zeta. intros T N.
  pose proof (mapToSnapshot_percents now details baseCurrency) as S1.
  pose proof (mapToSnapshot_total now details baseCurrency) as Total.
  cbv zeta in S1.
  set (r := mapToSnapshot now details baseCurrency) in *.
  set (kept := filter retained (details_holdings details)) in *.
  pose proof (percent_sum_tolerance (amount (totalValue r))
                (map Spec.valueOf kept) T) as B.
  assert (Len : List.length (holdings r) = List.length (map Spec.valueOf kept)).
  { subst r kept. rewrite mapToSnapshot_holdings, !length_map. reflexivity. }
  rewrite Len.
  eapply Qle_trans; [| apply B].
  - apply Qle_lteq. right. apply Qabs_wd.
    apply Qplus_comp; [exact S1 | reflexivity].
  - apply Forall_map. exact N.
  - symmetry. exact Total.
Qed.

(** The sum that [checkAllocationSum] computes. *)
Lemma checkAllocationSum_clean (rows : list AllocationRow) :
  (Qabs (Spec.sum (map percent rows) - 100) <= 1)%Q ->
  checkAllocationSum rows = clean.
Proof.
  intro B. unfold Verifier.checkAllocationSum.
  destruct rows as [| row rows]; [reflexivity |].
  set (all := row :: rows) in *.
  pose proof (fold_left_plus_sum percent all 0) as E.
  assert (L : Qle_bool
                (Qabs (Big.minus
                         (fold_left (fun acc row0 => Big.plus acc (percent row0))
                            all 0) 100))
                ALLOCATION_SUM_TOLERANCE = true).
  { apply Qle_bool_iff. unfold Big.minus, ALLOCATION_SUM_TOLERANCE.
    apply Qabs_Qle_condition in B. apply Qabs_Qle_condition.
    destruct B as [B1 B2]. split; lra. }
  rewrite L. reflexivity.
Qed.

Lemma checkAllocationSum_flagged (rows : list AllocationRow) :
  rows <> [] ->
  (1 < Qabs (Spec.sum (map percent rows) - 100))%Q ->
  exists warning,
    checkAllocationSum rows
    = {| v_warnings := [warning];
         confidenceAdjustment := (0 + (1 # 10))%Q |}.
Proof.
  intros NE B. unfold Verifier.checkAllocationSum.
  destruct rows as [| row rows]; [contradiction NE; reflexivity |].
  set (all := row :: rows) in *.
  pose proof (fold_left_plus_sum percent all 0) as E.
  destruct (Qle_bool _ ALLOCATION_SUM_TOLERANCE) eqn:L.
  - exfalso. apply Qle_bool_iff in L.
    unfold Big.minus, ALLOCATION_SUM_TOLERANCE in L.
    apply Qabs_Qle_condition in L. destruct L as [L1 L2].
    assert (X : (Qabs (Spec.sum (map percent all) - 100) <= 1)%Q).
    { apply Qabs_Qle_condition. split; lra. }
    lra.
  - eexists. reflexivity.
Qed.

(** X12. The snapshot tool and the verifier fit together: a snapshot with
    a positive total, no holding of a negative value and at most 199
    holdings passes the allocation-sum check, so with it among the tool
    results the verifier can only raise the advice warning or the
    valuation warning. (A holding of a negative value can make the
    percents so large that the double arithmetic of their rounding is
    off by more than 1.) *)
Theorem snapshot_passes_allocation_check (now : IsoDate)
  (details : PortfolioDetails) (baseCurrency : string) :
  let r := mapToSnapshot now details baseCurrency in
  (0 < amount (totalValue r))%Q ->
  Forall (fun pos => (0 <= Spec.valueOf pos)%Q)
    (filter retained (details_holdings details)) ->
  (List.length (holdings r) <= 199)%nat ->
  checkAllocationSum (allocationBySymbol r) = clean
  /\ forall text toolResults warning,
       JsMap.get "getPortfolioSnapshot" toolResults = Some (SnapshotResult r) ->
       In warning (v_warnings (verifyAgentResponse text toolResults)) ->
       warning = ADVICE_WARNING \/ warning = VALUATION_WARNING.
Proof.
  cbv zeta. intros T N Small.
  assert (C : checkAllocationSum
                (allocationBySymbol (mapToSnapshot now details baseCurrency))
              = clean).
  { apply checkAllocationSum_clean.
    eapply Qle_trans; [apply mapToSnapshot_sum_bound; [exact T | exact N] |].
    apply sumTolerance_199, Small. }
  split; [exact C |].
  intros text toolResults warning G.
  unfold Verifier.verifyAgentResponse. rewrite G.
  cbn [option_map Cast.allocationBySymbol Cast.isPriceDataMissing].
  rewrite C, checkAdviceBoundary_cases, checkValuationLabel_cases.
  destruct (matchesAdvice text), (mentionsCostBasis text),
    (isPriceDataMissing (mapToSnapshot now details baseCurrency));
    cbn [accumulate v_warnings clean app In]; intuition congruence.
Qed.

Lemma sum_all_zero (xs : list Q) :
  Forall (fun x => (x == 0)%Q) xs -> (Spec.sum xs == 0)%Q.
Proof.
  induction 1 as [| x xs E _ IH]; [reflexivity |].
  rewrite sum_cons, E, IH. reflexivity.
Qed.

(** X13. A snapshot that has holdings but no positive total value (none
    of them has a value or a cost basis) reports 0 percent for every
    holding, and the verifier flags it: the allocation-sum check warns of
    a calculation error and takes 0.1 off the confidence. *)
Theorem zero_total_snapshot_is_flagged (now : IsoDate)
  (details : PortfolioDetails) (baseCurrency : string) :
  let r := mapToSnapshot now details baseCurrency in
  holdings r <> [] ->
  (amount (totalValue r) <= 0)%Q ->
  Forall (fun row => (percent row == 0)%Q) (allocationBySymbol r)
  /\ exists warning,
       checkAllocationSum (allocationBySymbol r)
       = {| v_warnings := [warning];
            confidenceAdjustment := (0 + (1 # 10))%Q |}.
Proof.
  cbv zeta. intros NE T.
  assert (Z0 : Forall (fun row => (percent row == 0)%Q)
                 (allocationBySymbol (mapToSnapshot now details baseCurrency))).
  { rewrite mapToSnapshot_rows. apply Forall_map, Forall_forall.
    intros pos _. rewrite symbolRow_percent. unfold Spec.percentOf.
    apply Qle_bool_iff in T. rewrite T. reflexivity. }
  split; [exact Z0 |].
  apply checkAllocationSum_flagged.
  - rewrite mapToSnapshot_rows. rewrite mapToSnapshot_holdings in NE.
    destruct (filter retained (details_holdings details));
      [contradiction NE; reflexivity | discriminate].
  - assert (S0 : (Spec.sum
                    (map percent
                       (allocationBySymbol
                          (mapToSnapshot now details baseCurrency))) == 0)%Q).
    { apply sum_all_zero, Forall_map, Z0. }
    rewrite S0. reflexivity.
Qed.

End SnapshotChecked.

(** The mock portfolio passes the check. *)
Lemma snapshot_passes_example :
  Verifier.checkAllocationSum Examples.showInteger
    (allocationBySymbol
       (GetPortfolioSnapshotTool.mapToSnapshot "2026-02-01"
          Examples.MOCK_PORTFOLIO_DETAILS "USD"))
  = VerifierReadings.clean.
Proof.
  refine (proj1 (snapshot_passes_allocation_check Examples.showInteger
                   "2026-02-01" Examples.MOCK_PORTFOLIO_DETAILS "USD" _ _ _)).
  - vm_compute. reflexivity.
  - repeat constructor; vm_compute; discriminate.
  - vm_compute. lia.
Defined.

(** A holding worth 1000000000000003 next to one with the negative cost
    basis -1000000000000000: the total is 3, the percents are rounded as
    doubles of the size of 3e16, their sum is 102.4, and the snapshot
    does not pass the check. *)
Lemma snapshot_with_negative_value_example :
  let r := GetPortfolioSnapshotTool.mapToSnapshot "2026-02-01"
             Scenarios.shortDetails "USD" in
  (amount (totalValue r) == 3)%Q
  /\ (Spec.sum (map percent (allocationBySymbol r)) == 1024 # 10)%Q
  /\ Verifier.checkAllocationSum Examples.showInteger (allocationBySymbol r)
     <> VerifierReadings.clean.
Proof.
  cbv zeta. split; [vm_compute; reflexivity |].
  split; [vm_compute; reflexivity |].
  vm_compute. discriminate.
Qed.

(** One holding of which only the quantity is known. *)
Lemma zero_total_example :
  Forall (fun row => (percent row == 0)%Q)
    (allocationBySymbol
       (GetPortfolioSnapshotTool.mapToSnapshot "2026-02-01"
          Scenarios.unpricedDetails "USD")).
Proof.
  refine (proj1 (zero_total_snapshot_is_flagged Examples.showInteger
                   "2026-02-01" Scenarios.unpricedDetails "USD" _ _)).
  - vm_compute. discriminate.
  - vm_compute. discriminate.
Defined.

(** ** The asset classes of the snapshot *)

Section AssetClasses.

Import GetPortfolioSnapshotTool.

Lemma sum_values_set (k : string) (v : Q) (m : JsMap.t Q) :
  (Spec.sum (JsMap.values (JsMap.set k v m))
   == Spec.sum (JsMap.values m) - or0 (JsMap.get k m) + v)%Q.
Proof.
  unfold JsMap.values. induction m as [| [k' v'] m IH].
  - cbn [JsMap.set JsMap.get map snd or0]. rewrite sum_cons.
    change (Spec.sum []) with 0%Q. lra.
  - cbn [JsMap.set JsMap.get]. destruct (String.eqb k k').
    + cbn [map snd or0]. rewrite !sum_cons. lra.
    + cbn [map snd]. rewrite !sum_cons, IH. lra.
Qed.

Lemma assetClassStep_keys (m : JsMap.t Q) (h : HoldingRow) (k : string) :
  In k (JsMap.keys (assetClassStep m h))
  <-> In k (JsMap.keys m) \/ k = assetClassOf h.
Proof.
  unfold assetClassStep. fold (assetClassOf h). rewrite keys_set.
  destruct (existsb (String.eqb (assetClassOf h)) (JsMap.keys m)) eqn:E.
  - split; [auto | intros [H | ->]; [exact H |]].
    apply existsb_exists in E. destruct E as [x [I E]].
    apply String.eqb_eq in E. subst x. exact I.
  - rewrite in_app_iff. cbn [In]. split; [intros [H | [H | []]] | intros [H | H]];
      auto.
Qed.

Lemma assetClass_fold (hs : list HoldingRow) :
  forall m : JsMap.t Q,
    NoDup (JsMap.keys m) ->
    NoDup (JsMap.keys (fold_left assetClassStep hs m))
    /\ (Spec.sum (JsMap.values (fold_left assetClassStep hs m))
        == Spec.sum (JsMap.values m) + Spec.sum (map holdingValue hs))%Q
    /\ forall k, In k (JsMap.keys (fold_left assetClassStep hs m))
                 <-> In k (JsMap.keys m) \/ In k (map assetClassOf hs).
Proof.
  induction hs as [| h hs IH]; intros m N.
  - cbn [fold_left map]. change (Spec.sum []) with 0%Q.
    split; [exact N | split; [lra |]]. intro k. cbn [In]. tauto.
  - cbn [fold_left map].
    assert (N' : NoDup (JsMap.keys (assetClassStep m h)))
      by (apply NoDup_keys_set, N).
    destruct (IH _ N') as [ND [S K]]. split; [exact ND |]. split.
    + rewrite S, sum_cons. unfold assetClassStep at 1.
      rewrite sum_values_set. unfold Big.plus. lra.
    + intro k. rewrite K, assetClassStep_keys. cbn [In].
      assert (E : assetClassOf h = k <-> k = assetClassOf h)
        by (split; congruence).
      rewrite E. tauto.
Qed.

Lemma mapToSnapshot_classes now details baseCurrency :
  let r := mapToSnapshot now details baseCurrency in
  allocationByAssetClass r
  = map (assetClassRow baseCurrency (amount (totalValue r)))
      (fold_left assetClassStep (holdings r) JsMap.empty)
  /\ amount (totalValue r) = computeTotalValue (holdings r).
Proof.
  unfold mapToSnapshot. rewrite map_callback_fold. split; reflexivity.
Qed.

(** X14. The asset classes of a snapshot partition it: every class is
    listed once, the classes listed are exactly those of the holdings
    (UNKNOWN for a holding without one), and their amounts add up to the
    total value. *)
Theorem asset_classes_partition_total (now : IsoDate)
  (details : PortfolioDetails) (baseCurrency : string) :
  let r := mapToSnapshot now details baseCurrency in
  NoDup (map key (allocationByAssetClass r))
  /\ (forall cls, In cls (map key (allocationByAssetClass r))
                  <-> In cls (map assetClassOf (holdings r)))
  /\ (Spec.sum (map (fun row => amount (value row)) (allocationByAssetClass r))
      == amount (totalValue r))%Q.
Proof.
  cbv zeta.
  destruct (mapToSnapshot_classes now details baseCurrency) as [-> ->].
  set (hs := holdings (mapToSnapshot now details baseCurrency)).
  destruct (assetClass_fold hs JsMap.empty (NoDup_nil _)) as [ND [S K]].
  assert (Keys : forall total (m : JsMap.t Q),
             map key (map (assetClassRow baseCurrency total) m) = JsMap.keys m).
  { intros total m. rewrite map_map. unfold JsMap.keys.
    apply map_ext. intros [k v]. reflexivity. }
  assert (Amounts : forall total (m : JsMap.t Q),
             map (fun row => amount (value row))
               (map (assetClassRow baseCurrency total) m) = JsMap.values m).
  { intros total m. rewrite map_map. unfold JsMap.values.
    apply map_ext. intros [k v]. reflexivity. }
  rewrite Keys, Amounts. split; [exact ND |]. split.
  - intro cls. rewrite K. cbn [JsMap.keys JsMap.empty map In]. tauto.
  - rewrite S. unfold computeTotalValue. rewrite fold_left_plus_sum.
    change (Spec.sum (JsMap.values JsMap.empty)) with 0%Q. reflexivity.
Qed.

End AssetClasses.

(** ** The simulation: totals, order and valuation *)

Section SimulationMore.

Import SimulateAllocationChangeTool.

Variable show_number : Q -> string.
Variable toFixed2 : Q -> string.

Local Abbreviation applyChange := (applyChange show_number toFixed2).
Local Abbreviation applyChanges := (applyChanges show_number toFixed2).
Local Abbreviation simulate := (simulate show_number toFixed2).

Lemma Forall_set (P : Q -> Prop) (k : string) (v : Q) (m : JsMap.t Q) :
  Forall (fun e : string * Q => P (snd e)) m -> P v ->
  Forall (fun e : string * Q => P (snd e)) (JsMap.set k v m).
Proof.
  intros F Pv. induction F as [| [k' v'] m H F IH]; cbn [JsMap.set].
  - constructor; [exact Pv | constructor].
  - destruct (String.eqb k k'); constructor; auto.
Qed.

Lemma or0_get_nonneg (k : string) (m : JsMap.t Q) :
  Forall (fun e : string * Q => (0 <= snd e)%Q) m ->
  (0 <= or0 (JsMap.get k m))%Q.
Proof.
  intro F. destruct (JsMap.get k m) as [v |] eqn:G; cbn [or0]; [| lra].
  apply get_In in G. rewrite Forall_forall in F. exact (F _ G).
Qed.

Lemma buildValueMap_nonneg (positions : list PortfolioPosition) :
  (forall pos, In pos positions -> retained pos = true ->
               (0 <= trackedValue pos)%Q) ->
  Forall (fun e : string * Q => (0 <= snd e)%Q) (buildValueMap positions).
Proof.
  unfold buildValueMap.
  assert (G : forall (m : JsMap.t Q),
             Forall (fun e : string * Q => (0 <= snd e)%Q) m ->
             (forall pos, In pos positions -> retained pos = true ->
                          (0 <= trackedValue pos)%Q) ->
             Forall (fun e : string * Q => (0 <= snd e)%Q)
               (fold_left
                  (fun m pos =>
                     if retained pos
                     then JsMap.set (pos_symbol pos) (trackedValue pos) m
                     else m) positions m)).
  { induction positions as [| pos ps IH]; intros m F H; [exact F |].
    cbn [fold_left]. apply IH; [| intros; apply H; [right |]; assumption].
    destruct (retained pos) eqn:R; [| exact F].
    apply Forall_set; [exact F | apply H; [left; reflexivity | exact R]]. }
  intro H. apply G; [constructor | exact H].
Qed.

Lemma balanced_applyChange (st : LoopState) (change : AllocationChange) :
  (0 <= amount (ch_amount change))%Q ->
  balanced st -> balanced (applyChange st change).
Proof.
  intros A [T F]. unfold SimulateAllocationChangeTool.applyChange.
  pose proof (or0_get_nonneg (ch_symbol change) (valueMap st) F) as C.
  unfold currentValueOf.
  destruct (String.eqb (ch_type change) "buy").
  - split; cbn [newTotal valueMap].
    + rewrite sum_values_set. unfold Big.plus. lra.
    + apply Forall_set; [exact F | unfold Big.plus; lra].
  - destruct (String.eqb (ch_type change) "sell"); [| split; assumption].
    destruct (Big.lt _ 0) eqn:L.
    + split; cbn [newTotal valueMap].
      * rewrite sum_values_set. unfold Big.minus. lra.
      * apply Forall_set; [exact F | lra].
    + split; cbn [newTotal valueMap].
      * rewrite sum_values_set. unfold Big.minus. lra.
      * apply Forall_set; [exact F |].
        unfold Big.lt in L. apply negb_false_iff, Qle_bool_iff in L. exact L.
Qed.

Lemma balanced_applyChanges (changes : list AllocationChange) :
  forall st,
    (forall change, In change changes -> (0 <= amount (ch_amount change))%Q) ->
    balanced st -> balanced (applyChanges st changes).
Proof.
  unfold SimulateAllocationChangeTool.applyChanges.
  induction changes as [| change rest IH]; intros st A B; [exact B |].
  cbn [fold_left]. apply IH; [intros; apply A; right; assumption |].
  apply balanced_applyChange; [apply A; left; reflexivity | exact B].
Qed.

Lemma insertDesc_perm (x : AllocationRow) (rows : list AllocationRow) :
  Permutation (insertDesc x rows) (x :: rows).
Proof.
  induction rows as [| y rest IH]; cbn [insertDesc]; [reflexivity |].
  destruct (Qle_bool (percent y) (percent x)); [reflexivity |].
  rewrite IH. apply perm_swap.
Qed.

Lemma sortDesc_perm (rows : list AllocationRow) :
  Permutation (sortDesc rows) rows.
Proof.
  unfold sortDesc. induction rows as [| x rows IH]; cbn [fold_right];
    [reflexivity |].
  rewrite insertDesc_perm. constructor. exact IH.
Qed.

Lemma sum_perm (xs ys : list Q) :
  Permutation xs ys -> (Spec.sum xs == Spec.sum ys)%Q.
Proof.
  induction 1 as [| x xs ys _ IH | x y xs | xs ys zs _ IH1 _ IH2].
  - reflexivity.
  - rewrite !sum_cons, IH. reflexivity.
  - rewrite !sum_cons. lra.
  - rewrite IH1. exact IH2.
Qed.

Lemma allocationRows_amounts (baseCurrency : string) (total : Q)
  (m : JsMap.t Q) :
  Forall (fun e : string * Q => (0 <= snd e)%Q) m ->
  (Spec.sum (amounts (allocationRows baseCurrency total m))
   == Spec.sum (JsMap.values m))%Q.
Proof.
  unfold amounts, allocationRows, JsMap.values.
  induction 1 as [| [k v] m H F IH]; [reflexivity |].
  cbn [flat_map map snd]. rewrite map_app, sum_cons.
  cbn [snd] in H. destruct (Big.gt v 0) eqn:G.
  - cbn [map app value amount]. rewrite sum_cons, IH. reflexivity.
  - cbn [map app]. rewrite IH.
    unfold Big.gt in G. apply negb_false_iff, Qle_bool_iff in G. lra.
Qed.

Lemma initialState_balanced (positions : list PortfolioPosition) :
  (forall pos, In pos positions -> retained pos = true ->
               (0 <= trackedValue pos)%Q) ->
  balanced (initialState positions).
Proof.
  intro H. split; cbn [initialState newTotal valueMap].
  - apply sumValues_sum.
  - apply buildValueMap_nonneg, H.
Qed.

(** X15. With no negative tracked value and no negative change amount,
    the totals of a simulation are the sums of what it tracks: the new
    total value is the sum of the amounts of the listed allocation rows,
    and it is not negative. *)
Theorem simulated_total_is_sum_of_listed_values (now : IsoDate)
  (baseCurrency : string) (positions : list PortfolioPosition)
  (changes : list AllocationChange) :
  (forall pos, In pos positions -> retained pos = true ->
               (0 <= trackedValue pos)%Q) ->
  (forall change, In change changes -> (0 <= amount (ch_amount change))%Q) ->
  let r := simulate now baseCurrency positions changes in
  (amount (newTotalValue r) == Spec.sum (amounts (newAllocationBySymbol r)))%Q
  /\ (0 <= amount (newTotalValue r))%Q.
Proof.
  intros P C r.
  destruct (balanced_applyChanges changes (initialState positions) C
              (initialState_balanced positions P)) as [T F].
  assert (S : (amount (newTotalValue r)
               == Spec.sum (amounts (newAllocationBySymbol r)))%Q).
  { subst r. cbn [SimulateAllocationChangeTool.simulate newTotalValue
                    newAllocationBySymbol amount].
    unfold amounts.
    rewrite (sum_perm _ _ (Permutation_map _ (sortDesc_perm _))).
    fold (amounts (allocationRows baseCurrency
                     (newTotal (applyChanges (initialState positions) changes))
                     (valueMap (applyChanges (initialState positions) changes)))).
    rewrite (allocationRows_amounts _ _ _ F). exact T. }
  split; [exact S |].
  subst r. cbn [SimulateAllocationChangeTool.simulate newTotalValue amount].
  rewrite T. clear - F. unfold JsMap.values.
  induction F as [| [k v] m H F IH]; [cbn; lra |].
  cbn [map snd]. rewrite sum_cons. cbn [snd] in H. lra.
Qed.

Lemma insertDesc_sorted (x : AllocationRow) (rows : list AllocationRow) :
  StronglySorted descending rows ->
  StronglySorted descending (insertDesc x rows).
Proof.
  induction 1 as [| y rest S IH F]; cbn [insertDesc].
  - constructor; constructor.
  - destruct (Qle_bool (percent y) (percent x)) eqn:L.
    + apply Qle_bool_iff in L. constructor; [constructor; assumption |].
      constructor; [exact L |].
      rewrite Forall_forall in F |- *. intros z I.
      pose proof (F z I) as Z. unfold descending in *. lra.
    + constructor; [exact IH |].
      apply (Permutation_Forall (Permutation_sym (insertDesc_perm x rest))).
      constructor; [| exact F]. unfold descending.
      destruct (Qlt_le_dec (percent x) (percent y)) as [Lt | Le]; [lra |].
      apply Qle_bool_iff in Le. congruence.
Qed.

Lemma allocationRows_keys (baseCurrency : string) (total : Q) (m : JsMap.t Q) :
  NoDup (JsMap.keys m) ->
  NoDup (map key (allocationRows baseCurrency total m))
  /\ forall k, In k (map key (allocationRows baseCurrency total m)) ->
               In k (JsMap.keys m).
Proof.
  unfold allocationRows, JsMap.keys.
  induction m as [| [k v] m IH]; intro N; cbn [flat_map map fst].
  - split; [constructor | intros k []].
  - inversion N as [| ? ? NI N']; subst. destruct (IH N') as [ND Sub].
    destruct (Big.gt v 0); cbn [app map key].
    + split.
      * constructor; [intro I; apply NI, Sub, I | exact ND].
      * intros k' [<- | I]; [left; reflexivity | right; apply Sub, I].
    + split; [exact ND | intros k' I; right; apply Sub, I].
Qed.

(** X16. The simulated allocation is listed in descending order of
    percent, and no symbol is listed twice. *)
Theorem simulated_allocation_is_sorted (now : IsoDate)
  (baseCurrency : string) (positions : list PortfolioPosition)
  (changes : list AllocationChange) :
  let r := simulate now baseCurrency positions changes in
  StronglySorted descending (newAllocationBySymbol r)
  /\ NoDup (map key (newAllocationBySymbol r)).
Proof.
  cbv zeta. cbn [SimulateAllocationChangeTool.simulate newAllocationBySymbol].
  split.
  - unfold sortDesc.
    induction (allocationRows baseCurrency _ _) as [| x rows IH];
      cbn [fold_right]; [constructor | apply insertDesc_sorted, IH].
  - apply (Permutation_NoDup
             (Permutation_map key (Permutation_sym (sortDesc_perm _)))).
    apply allocationRows_keys, NoDup_applyChanges, NoDup_buildValueMap.
Qed.

Variable W : Type.
Variable getDetails :
  option string -> string -> W -> Outcome PortfolioDetails * W.
Variable today : W -> IsoDate.

Local Abbreviation execute :=
  (execute show_number toFixed2 W getDetails today).

(** X17. In every result that the simulation returns, [valuationMethod]
    is [cost_basis] exactly when some position of the portfolio, retained
    or not, has a null or zero market price; [asOf] is null exactly then,
    and is the current date otherwise. *)
Theorem simulation_valuation_method (changes : list AllocationChange)
  (context : ToolContext) (w w' : W) (r : SimulateAllocationResult) :
  execute changes context w = (Returned r, w') ->
  exists details,
    getDetails (impersonationId context) (userId context) w
    = (Returned details, w')
    /\ (sr_valuationMethod r = cost_basis <->
        exists pos, In pos (details_holdings details)
                    /\ Spec.nullOrZero (pos_marketPrice pos))
    /\ (sr_asOf r = None <-> sr_valuationMethod r = cost_basis)
    /\ (sr_valuationMethod r = cost_basis \/ sr_asOf r = Some (today w')).
Proof.
  unfold SimulateAllocationChangeTool.execute.
  destruct (getDetails (impersonationId context) (userId context) w)
    as [[details | e] w1]; [| discriminate].
  intros [= <- <-]. exists details. split; [reflexivity |].
  cbn [SimulateAllocationChangeTool.simulate sr_valuationMethod sr_asOf].
  destruct (existsb (fun pos => zero_or_null (pos_marketPrice pos))
              (details_holdings details)) eqn:E.
  - cbn. repeat split; auto; try discriminate.
    intros _. apply existsb_exists in E. destruct E as [pos [I M]].
    exists pos. split; [exact I | apply zero_or_null_true, M].
  - cbn. repeat split; auto; try discriminate.
    intros [pos [I M]]. exfalso. apply zero_or_null_true in M.
    assert (X : existsb (fun pos => zero_or_null (pos_marketPrice pos))
                  (details_holdings details) = true)
      by (apply existsb_exists; exists pos; auto).
    congruence.
Qed.

End SimulationMore.

(** Buying VTI and overselling AAPL in the mock portfolio: the new total
    is the sum of the two rows that are left. *)
Lemma simulated_total_example :
  let r := SimulateAllocationChangeTool.simulate
             Examples.showInteger Examples.showInteger "2026-02-01" "USD"
             (details_holdings Examples.MOCK_PORTFOLIO_DETAILS)
             [Examples.buyVTI; Examples.oversellAAPL] in
  (amount (newTotalValue r) == Spec.sum (amounts (newAllocationBySymbol r)))%Q.
Proof.
  refine (proj1 (simulated_total_is_sum_of_listed_values
                   Examples.showInteger Examples.showInteger "2026-02-01"
                   "USD" (details_holdings Examples.MOCK_PORTFOLIO_DETAILS)
                   [Examples.buyVTI; Examples.oversellAAPL] _ _)).
  - intros pos I _. cbn in I.
    destruct I as [<- | [<- | [<- | []]]]; vm_compute; discriminate.
  - intros change I. cbn in I.
    destruct I as [<- | [<- | []]]; vm_compute; discriminate.
Defined.

(** Every holding of the mock portfolio is priced: the simulation is
    valued at market and dated. *)
Lemma simulation_valuation_example :
  let r := SimulateAllocationChangeTool.simulate
             Examples.showInteger Examples.showInteger "2026-02-01" "USD"
             (details_holdings Examples.MOCK_PORTFOLIO_DETAILS)
             [Examples.buyVTI] in
  (sr_asOf r = None <-> sr_valuationMethod r = cost_basis)
  /\ (sr_valuationMethod r = cost_basis \/ sr_asOf r = Some "2026-02-01").
Proof.
  cbv zeta.
  destruct (simulation_valuation_method Examples.showInteger
              Examples.showInteger nat Examples.mockDetails Examples.todayIs
              [Examples.buyVTI] Examples.toolContext 0%nat 1%nat
              (SimulateAllocationChangeTool.simulate
                 Examples.showInteger Examples.showInteger "2026-02-01" "USD"
                 (details_holdings Examples.MOCK_PORTFOLIO_DETAILS)
                 [Examples.buyVTI]) eq_refl)
    as [details [_ [_ [A D]]]].
  split; [exact A | exact D].
Defined.

(** ** The performance tool *)

Section SampleIsSelection.

Import GetPerformanceTool.

Variable A : Type.
Variable same : A -> A -> bool.

(** An object is itself. *)
Hypothesis same_refl : forall x, same x x = true.

Lemma Subsequence_refl (xs : list A) : Subsequence xs xs.
Proof. induction xs as [| x xs IH]; [apply SubNil | apply SubKeep, IH]. Qed.

Lemma Subsequence_app (xs ys xs' ys' : list A) :
  Subsequence xs ys -> Subsequence xs' ys' ->
  Subsequence (xs ++ xs') (ys ++ ys').
Proof.
  induction 1 as [| x xs ys _ IH | x xs ys _ IH]; cbn [app]; intro T.
  - exact T.
  - apply SubSkip, IH, T.
  - apply SubKeep, IH, T.
Qed.

Lemma filter_stride_sub (step i : nat) (chart : list A) :
  Subsequence (filter_stride A step i chart) chart.
Proof.
  revert i. induction chart as [| x rest IH]; intro i; cbn [filter_stride].
  - constructor.
  - destruct (i mod step =? 0)%nat; [apply SubKeep | apply SubSkip]; apply IH.
Qed.

Lemma filter_stride_snoc (step i : nat) (init : list A) (z : A) :
  filter_stride A step i (init ++ [z])
  = filter_stride A step i init
    ++ (if ((i + List.length init) mod step =? 0)%nat then [z] else []).
Proof.
  revert i. induction init as [| x rest IH]; intro i; cbn [app filter_stride List.length].
  - rewrite Nat.add_0_r. destruct (i mod step =? 0)%nat; reflexivity.
  - rewrite IH. replace (S i + List.length rest)%nat
      with (i + S (List.length rest))%nat by lia.
    destruct (i mod step =? 0)%nat; reflexivity.
Qed.

Lemma last_item_snoc (xs : list A) (z : A) :
  last_item A (xs ++ [z]) = Some z.
Proof.
  unfold last_item. destruct xs as [| x xs]; [reflexivity |].
  cbn [app]. f_equal. apply last_last.
Qed.

Lemma sampleChart_sub (chart : list A) (maxPoints : nat) :
  Subsequence (sampleChart same chart maxPoints) chart.
Proof.
  unfold sampleChart.
  destruct (List.length chart <=? maxPoints)%nat; [apply Subsequence_refl |].
  generalize (ceil_div (List.length chart) maxPoints). intro step.
  induction chart as [| z init _] using rev_ind; [apply SubNil |].
  rewrite last_item_snoc, filter_stride_snoc.
  destruct ((0 + List.length init) mod step =? 0)%nat.
  - rewrite last_item_snoc. cbn [differ]. rewrite same_refl, andb_false_r.
    apply Subsequence_app; [apply filter_stride_sub | apply Subsequence_refl].
  - rewrite app_nil_r. destruct (_ && _).
    + apply Subsequence_app; [apply filter_stride_sub | apply Subsequence_refl].
    + rewrite <- (app_nil_r (filter_stride A step 0 init)).
      apply Subsequence_app; [apply filter_stride_sub |].
      apply SubSkip, SubNil.
Qed.

Lemma sampleChart_first (x : A) (rest : list A) (maxPoints : nat) :
  exists tail, sampleChart same (x :: rest) maxPoints = x :: tail.
Proof.
  unfold sampleChart.
  destruct (List.length (x :: rest) <=? maxPoints)%nat; [eauto |].
  cbn [filter_stride]. rewrite Nat.Div0.mod_0_l. cbn [Nat.eqb].
  destruct (_ && _); [| eauto].
  destruct (last_item A (x :: rest)); cbn [app]; eauto.
Qed.

Lemma sampleChart_last (chart : list A) (maxPoints : nat) (z : A) :
  last_item A chart = Some z ->
  exists y, last_item A (sampleChart same chart maxPoints) = Some y
            /\ same y z = true.
Proof.
  intro L. unfold sampleChart.
  destruct (List.length chart <=? maxPoints)%nat; [eauto |].
  rewrite L.
  destruct (0 <? List.length chart)%nat eqn:P; cbn [andb].
  - destruct (last_item A (filter_stride A _ 0 chart)) as [y |] eqn:S;
      cbn [differ].
    + destruct (same y z) eqn:E; cbn [negb].
      * exists y. auto.
      * exists z. rewrite last_item_snoc. auto.
    + exists z. rewrite last_item_snoc. auto.
  - destruct chart; [discriminate L | discriminate P].
Qed.

End SampleIsSelection.

Section PerformanceFacts.

Import GetPerformanceTool.

Variable W : Type.
Variable getPerformance :
  string -> option string -> string -> W
  -> Outcome PortfolioPerformanceResponse * W.
Variable today : W -> IsoDate.

Local Abbreviation execute := (execute W getPerformance today).

Lemma same_item_refl (x : HistoricalDataItem) : same_item x x = true.
Proof. apply Nat.eqb_refl. Qed.

(** X18. The time series of the performance tool is a selection of the
    provider's chart in the chart's order, of at most 21 points: a chart
    of at most 20 points is passed on whole, and a longer one keeps its
    first and its last point. *)
Theorem performance_series_is_selection (dateRange : option string)
  (context : ToolContext) (w w' : W) (result : PortfolioPerformanceResponse) :
  getPerformance (match dateRange with Some r => r | None => "max" end)
    (impersonationId context) (userId context) w
  = (Returned result, w') ->
  let chart := match perf_chart result with Some c => c | None => [] end in
  exists sample r,
    execute dateRange context w = (Returned r, w')
    /\ pr_timeSeries r = map (toPoint (baseCurrency context)) sample
    /\ Subsequence sample chart
    /\ (List.length sample <= 21)%nat
    /\ ((List.length chart <= 20)%nat -> sample = chart)
    /\ (forall x rest, chart = x :: rest -> exists tail, sample = x :: tail)
    /\ (forall z, last_item _ chart = Some z ->
          exists y, last_item _ sample = Some y /\ hd_ref y = hd_ref z).
Proof.
  intros G chart. unfold GetPerformanceTool.execute. rewrite G.
  fold chart.
  exists (sampleChart same_item chart MAX_CHART_POINTS).
  eexists. split; [reflexivity |]. cbn [pr_timeSeries].
  split; [reflexivity |].
  split; [apply sampleChart_sub, same_item_refl |].
  split; [apply (sampleChart_length _ same_item chart MAX_CHART_POINTS);
          unfold MAX_CHART_POINTS; lia |].
  split; [intro L; apply sampleChart_short; exact L |].
  split.
  - intros x rest ->. apply sampleChart_first.
  - intros z L.
    destruct (sampleChart_last _ same_item same_item_refl chart
                MAX_CHART_POINTS z L)
      as [y [Y S]].
    exists y. split; [exact Y | apply Nat.eqb_eq, S].
Qed.

(** X19. How the performance tool answers its provider. When the
    provider throws an [Error], or another object, the tool returns the
    degraded result (no date, no points, no return, valued at cost basis)
    whose reason ends with the message of the error, with the [message]
    property of the object, or with [undefined] when the object has none.
    When the provider throws [null] or [undefined] the tool itself fails,
    with the [TypeError] of reading [message]. When the provider returns,
    the result is dated today, valued at cost basis exactly when the
    provider reported errors, and carries a reason exactly then. A
    returned result is undated exactly when the provider threw. *)
Theorem performance_degrades_with_provider (dateRange : option string)
  (context : ToolContext) (w : W) :
  let call := getPerformance
                (match dateRange with Some r => r | None => "max" end)
                (impersonationId context) (userId context) w in
  let now := today (snd call) in
  let degraded := fun text : string =>
    {| pr_accountId := "default";
       pr_timeframe := {| tf_start := ""; tf_end := now |};
       pr_valuationMethod := cost_basis;
       pr_asOf := None;
       pr_totalReturnPercent := None;
       pr_timeSeries := [];
       pr_reasonIfUnavailable :=
         Some ("Performance data is not available: " ++ text)%string |} in
  snd (execute dateRange context w) = snd call
  /\ (forall e, fst call = Threw e ->
      fst (execute dateRange context w)
      = match e with
        | ErrorObject m => Returned (degraded m)
        | OtherValue _ (Some m) => Returned (degraded m)
        | OtherValue _ None => Returned (degraded "undefined")
        | ThrownNull =>
            Threw (ErrorObject
                     "Cannot read properties of null (reading 'message')")
        | ThrownUndefined =>
            Threw (ErrorObject
                     "Cannot read properties of undefined (reading 'message')")
        end)
  /\ (forall result, fst call = Returned result ->
      exists r,
        fst (execute dateRange context w) = Returned r
        /\ pr_asOf r = Some now
        /\ tf_end (pr_timeframe r) = now
        /\ pr_totalReturnPercent r = perf_netPerformancePercentage result
        /\ pr_valuationMethod r
           = (if perf_hasErrors result then cost_basis else market)
        /\ (pr_reasonIfUnavailable r = None
            <-> perf_hasErrors result = false))
  /\ (forall r, fst (execute dateRange context w) = Returned r ->
      (pr_asOf r = None <-> exists e, fst call = Threw e)
      /\ (pr_valuationMethod r = cost_basis
          <-> (exists e, fst call = Threw e)
              \/ exists result, fst call = Returned result
                                /\ perf_hasErrors result = true)).
Proof.
  cbv zeta. unfold GetPerformanceTool.execute.
  destruct (getPerformance _ (impersonationId context) (userId context) w)
    as [[result | e] w'].
  - cbn [fst snd]. split; [reflexivity |].
    split; [intros e [=] |].
    split.
    + intros result' [= <-]. eexists. split; [reflexivity |].
      cbn [pr_asOf pr_timeframe tf_end pr_totalReturnPercent
           pr_valuationMethod pr_reasonIfUnavailable].
      repeat (split; [reflexivity |]).
      destruct (perf_hasErrors result); split; congruence.
    + intros r [= <-].
      cbn [pr_asOf pr_valuationMethod].
      split; [split; [discriminate | intros [e H]; discriminate] |].
      destruct (perf_hasErrors result) eqn:E.
      * split; [intros _; right; eauto | reflexivity].
      * split; [discriminate |].
        intros [[e H] | [result' [[= <-] H]]]; [discriminate | congruence].
  - cbn [fst snd].
    assert (S : snd (match message_of e with
                     | inl typeError => (Threw typeError, w')
                     | inr msg =>
                         (Returned
                            {| pr_accountId := "default";
                               pr_timeframe :=
                                 {| tf_start := ""; tf_end := today w' |};
                               pr_valuationMethod := cost_basis;
                               pr_asOf := None;
                               pr_totalReturnPercent := None;
                               pr_timeSeries := [];
                               pr_reasonIfUnavailable :=
                                 Some ("Performance data is not available: "
                                       ++ msg)%string |}, w')
                     end) = w')
      by (destruct (message_of e); reflexivity).
    split; [exact S |].
    split; [intros e' [= <-]; destruct e as [m | | | shown [m |]]; reflexivity |].
    split; [intros result [=] |].
    intros r R.
    destruct e as [m | | | shown [m |]]; cbn in R; try discriminate;
      injection R as <-; cbn [pr_asOf pr_valuationMethod];
      (split; split; eauto).
Qed.

End PerformanceFacts.

(** A chart of 40 points: the series is a selection of at most 21. *)
Lemma performance_series_example :
  exists sample r,
    GetPerformanceTool.execute nat (Scenarios.performanceOf 40)
      Examples.todayIs (Some "1y") Examples.toolContext 0%nat
    = (Returned r, 1%nat)
    /\ pr_timeSeries r = map (GetPerformanceTool.toPoint "USD") sample
    /\ Subsequence sample (Examples.chartOf 40)
    /\ (List.length sample <= 21)%nat.
Proof.
  destruct (performance_series_is_selection nat (Scenarios.performanceOf 40)
              Examples.todayIs (Some "1y") Examples.toolContext 0%nat 1%nat
              _ eq_refl) as [sample [r [R [E [S [L _]]]]]].
  exists sample, r. split; [exact R |]. split; [exact E |].
  split; [exact S | exact L].
Defined.

(** ** The event stream of the proxy, read incrementally *)

Section StreamFacts.

Import JsString AgentProxy.

Variable J : Type.
Variable JSON_parse : string -> option J.

Local Abbreviation readLoop := (readLoop J JSON_parse).
Local Abbreviation proxyStreamToAgentEvents :=
  (proxyStreamToAgentEvents J JSON_parse).

Lemma readLoop_more (reads more : list Chunk) :
  forall buffer, exists later,
    readLoop (reads ++ more) buffer = readLoop reads buffer ++ later.
Proof.
  induction reads as [| c rest IH]; intro buffer; cbn [app AgentProxy.readLoop].
  - eexists. reflexivity.
  - destruct (aborted c); [exists []; reflexivity |].
    destruct (drain J JSON_parse (buffer ++ chunk_text c)) as [events buffer'].
    destruct (IH buffer') as [later E]. exists later.
    rewrite E, app_assoc. reflexivity.
Qed.

Lemma readLoop_aborted (pre post : list Chunk) (c : Chunk) :
  aborted c = true ->
  forall buffer, readLoop (pre ++ c :: post) buffer = readLoop pre buffer ++ [].
Proof.
  intro A. induction pre as [| d rest IH]; intro buffer;
    cbn [app AgentProxy.readLoop].
  - rewrite A. reflexivity.
  - destruct (aborted d); [reflexivity |].
    destruct (drain J JSON_parse (buffer ++ chunk_text d)) as [events buffer'].
    rewrite IH, !app_nil_r. reflexivity.
Qed.

(** X20. The event stream is incremental and framed by blank lines: what
    has been yielded after some reads is a prefix of what is yielded
    after more reads; nothing that arrives from an aborted read on is
    yielded; and as long as no blank line has arrived nothing is yielded,
    so a last event that is not followed by a blank line is lost. *)
Theorem event_stream_is_incremental (baseUrl : string) :
  (forall reads more, exists later,
      proxyStreamToAgentEvents baseUrl (Body (reads ++ more))
      = proxyStreamToAgentEvents baseUrl (Body reads) ++ later)
  /\ (forall pre c post,
         aborted c = true ->
         proxyStreamToAgentEvents baseUrl (Body (pre ++ c :: post))
         = proxyStreamToAgentEvents baseUrl (Body pre))
  /\ (forall reads,
         truthy baseUrl = true ->
         indexOf LFLF (arrived reads) = None ->
         proxyStreamToAgentEvents baseUrl (Body reads) = []).
Proof.
  unfold AgentProxy.proxyStreamToAgentEvents. split; [| split].
  - intros reads more. destruct (negb (truthy baseUrl)).
    + exists []. reflexivity.
    + apply readLoop_more.
  - intros pre c post A. destruct (negb (truthy baseUrl)); [reflexivity |].
    rewrite (readLoop_aborted pre post c A), app_nil_r. reflexivity.
  - intros reads -> N. cbn [negb].
    rewrite (readLoop_frames J JSON_parse reads EmptyString eq_refl).
    unfold decodedEvents. cbn [append].
    rewrite frames_indexOf, N. reflexivity.
Qed.

End StreamFacts.

(** A complete JSON data line that no blank line follows is not yielded. *)
Lemma event_stream_example :
  AgentProxy.proxyStreamToAgentEvents string Examples.parseBraced
    "http://agent:3334"
    (AgentProxy.Body
       [ {| AgentProxy.chunk_text := ("data: {done}" ++ JsString.LF)%string;
            AgentProxy.aborted := false |} ])
  = [].
Proof.
  apply (proj2 (proj2 (event_stream_is_incremental string Examples.parseBraced
                         "http://agent:3334"))).
  - reflexivity.
  - vm_compute. reflexivity.
Defined.

(** ** The bearer token, from the client to the agent *)

Section BearerFacts.

Import JsString.

Lemma startsWith_Bearer (t : string) :
  startsWith "Bearer " ("Bearer " ++ t) = true.
Proof. reflexivity. Qed.

(** X21. The bearer scheme is put in front of a token exactly once on its
    way to the agent: the controller's token is empty or opens with the
    scheme, the Authorization header of the proxy always opens with it,
    normalising a second time changes nothing, the gateway normalises as
    the proxy does, and it verifies the same raw token whether or not the
    client sent the scheme. *)
Theorem bearer_scheme_is_added_once (tokenHeader : string)
  (headers : string -> option AgentProxyUnary.HeaderValue) (t : string) :
  (AgentProxyUnary.getBearerToken tokenHeader headers = EmptyString
   \/ startsWith "Bearer " (AgentProxyUnary.getBearerToken tokenHeader headers)
      = true)
  /\ startsWith "Bearer " (AgentProxy.authorization t) = true
  /\ AgentProxy.authorization (AgentProxy.authorization t)
     = AgentProxy.authorization t
  /\ AgentWebSocket.bearerOf t = AgentProxy.authorization t
  /\ AgentWebSocket.rawToken (AgentWebSocket.bearerOf t)
     = AgentWebSocket.rawToken t
  /\ AgentWebSocket.rawToken ("Bearer " ++ AgentWebSocket.rawToken t)
     = AgentWebSocket.rawToken t.
Proof.
  assert (A : startsWith "Bearer " (AgentProxy.authorization t) = true).
  { unfold AgentProxy.authorization.
    destruct (startsWith "Bearer " t) eqn:P; [exact P | reflexivity]. }
  split; [| split; [exact A | split; [| split; [reflexivity | split]]]].
  - unfold AgentProxyUnary.getBearerToken.
    destruct (headers tokenHeader) as [[text |] |];
      [| auto | destruct (headers "authorization") as [[text |] |]; [| auto ..]];
      (destruct (startsWith "Bearer " text) eqn:P; right;
       [exact P | reflexivity]).
  - unfold AgentProxy.authorization at 1. rewrite A. reflexivity.
  - unfold AgentWebSocket.bearerOf, AgentWebSocket.rawToken.
    destruct (startsWith "Bearer " t) eqn:P; [rewrite P; reflexivity |].
    reflexivity.
  - unfold AgentWebSocket.rawToken at 1. rewrite startsWith_Bearer. reflexivity.
Qed.

End BearerFacts.

(** ** The unary proxy behind the controller *)

Section ControllerFacts.

Import JsString AgentProxyUnary.

Lemma white_space_table : map Spec.utf8 Spec.WHITE_SPACE_CODE_POINTS = WHITE_SPACE.
Proof. reflexivity. Qed.

Lemma is_space_In (w : string) : is_space w = true <-> In w WHITE_SPACE.
Proof.
  unfold is_space. rewrite existsb_exists. split.
  - intros [x [I E]]. apply String.eqb_eq in E. subst. exact I.
  - intro I. exists w. split; [exact I | apply String.eqb_refl].
Qed.

Lemma trimStart_white (w : string) :
  In w WHITE_SPACE -> forall s, trimStart (w ++ s) = trimStart s.
Proof.
  intros I s. cbn in I.
  repeat (destruct I as [<- | I]; [reflexivity |]). contradiction.
Qed.

Lemma white_nonempty (w : string) : In w WHITE_SPACE -> (0 < String.length w)%nat.
Proof.
  intro I. cbn in I.
  repeat (destruct I as [<- | I]; [cbn; lia |]). contradiction.
Qed.

Lemma trimStart_cases (s : string) :
  (exists w s', In w WHITE_SPACE /\ s = (w ++ s')%string
                /\ trimStart s = trimStart s')
  \/ trimStart s = s.
Proof.
  destruct s as [| a s1]; [right; reflexivity |].
  cbn [trimStart].
  destruct (is_space (String a "")) eqn:A.
  { left. exists (String a ""), s1. rewrite is_space_In in A. auto. }
  destruct s1 as [| b s2]; [right; reflexivity |].
  destruct (is_space (String a (String b ""))) eqn:B.
  { left. exists (String a (String b "")), s2. rewrite is_space_In in B. auto. }
  destruct s2 as [| c s3]; [right; reflexivity |].
  destruct (is_space (String a (String b (String c "")))) eqn:C.
  { left. exists (String a (String b (String c ""))), s3.
    rewrite is_space_In in C. auto. }
  right. reflexivity.
Qed.

Lemma length_append (a b : string) :
  String.length (a ++ b) = (String.length a + String.length b)%nat.
Proof. induction a; cbn; auto. Qed.

Lemma trimStart_idem (s : string) : trimStart (trimStart s) = trimStart s.
Proof.
  remember (String.length s) as n eqn:L.
  revert s L. induction n as [n IH] using lt_wf_ind. intros s L.
  destruct (trimStart_cases s) as [[w [s' [I [-> E]]]] | E].
  - rewrite E. apply (IH (String.length s')); [| reflexivity].
    subst n. rewrite length_append. pose proof (white_nonempty w I). lia.
  - rewrite E. exact E.
Qed.

Lemma trimStart_Blank (s : string) :
  trimStart s = EmptyString <-> Spec.Blank s.
Proof.
  split.
  - remember (String.length s) as n eqn:L.
    revert s L. induction n as [n IH] using lt_wf_ind. intros s L T.
    destruct (trimStart_cases s) as [[w [s' [I [-> E]]]] | E].
    + rewrite <- white_space_table in I. apply in_map_iff in I.
      destruct I as [cp [<- I]]. constructor; [exact I |].
      apply (IH (String.length s')); [| reflexivity | congruence].
      subst n. rewrite length_append.
      assert (In (Spec.utf8 cp) WHITE_SPACE)
        by (rewrite <- white_space_table; apply in_map; exact I).
      pose proof (white_nonempty _ H). lia.
    + rewrite T in E. subst s. constructor.
  - induction 1 as [| cp s I B IH]; [reflexivity |].
    rewrite trimStart_white; [exact IH |].
    rewrite <- white_space_table. apply in_map, I.
Qed.

Lemma trim_Blank (s : string) : trim s = EmptyString <-> Spec.Blank s.
Proof.
  rewrite <- trimStart_Blank. unfold trim.
  destruct (trimStart s) as [| c t] eqn:T; [split; reflexivity |].
  split; [| discriminate].
  cbn [trimEnd]. unfold blank. rewrite <- T, trimStart_idem, T. discriminate.
Qed.

Lemma stripTrailingSlash_slash (s : string) :
  stripTrailingSlash (s ++ "/") = s.
Proof.
  induction s as [| c s IH]; [reflexivity |].
  cbn [append stripTrailingSlash]. rewrite IH.
  destruct (s ++ "/")%string eqn:E; [destruct s; discriminate | reflexivity].
Qed.

Variable W : Type.
Variable Data : Type.
Variable Body : Type.
Variable stringify : Body -> string.
Variable fetch : Request -> W -> Outcome (Response Data) * W.
Variable tokenHeader : string.

Local Abbreviation respond :=
  (respond W Data Body stringify fetch tokenHeader).
Local Abbreviation requestOf := (requestOf Body stringify).

(** X22. The controller's gate: the agent counts as disabled exactly when
    its URL is unset or made of white space only (any of the white space
    and line terminator code points of ECMAScript, U+00A0 and U+FEFF
    among them), and then the controller answers 503 with
    its own notice and makes no request. Otherwise it makes one request,
    to the trimmed URL with one trailing slash removed followed by the
    path, and answers with the status and the payload of the upstream
    response, or fails as [fetch] fails. *)
Theorem controller_answers_503_or_forwards (configured : option string)
  (method : Method) (path : string)
  (headers : string -> option HeaderValue) (userId : string)
  (body : option Body) (w : W) :
  (isEnabled configured = false
   <-> configured = None
       \/ exists url, configured = Some url /\ Spec.Blank url)
  /\ (isEnabled configured = false ->
      respond configured method path headers userId body w
      = (Returned (503%Z, ErrorBody DISABLED), w))
  /\ (isEnabled configured = true ->
      respond configured method path headers userId body w
      = match fetch (requestOf (getAgentBaseUrl configured) method path
                       userId (getBearerToken tokenHeader headers) body) w with
        | (Returned response, w') =>
            (Returned (rs_status response, payloadOf Data response), w')
        | (Threw e, w') => (Threw e, w')
        end)
  /\ (forall base,
         rq_url (requestOf (base ++ "/") method path userId
                   (getBearerToken tokenHeader headers) body)
         = (base ++ path)%string).
Proof.
  assert (E : isEnabled configured = truthy (getAgentBaseUrl configured)).
  { unfold isEnabled. destruct (getAgentBaseUrl configured); reflexivity. }
  split; [| split; [| split]].
  - rewrite E. unfold getAgentBaseUrl. destruct configured as [url |].
    + assert (T : truthy (trim url) = false <-> trim url = EmptyString)
        by (destruct (trim url); split; congruence || reflexivity || discriminate).
      rewrite T, trim_Blank. split.
      * intro B. right. exists url. auto.
      * intros [H | [url' [[= <-] B]]]; [discriminate | exact B].
    + split; auto.
  - intro D. unfold AgentProxyUnary.respond. rewrite D. reflexivity.
  - intro D. unfold AgentProxyUnary.respond, proxyToAgent.
    rewrite D. rewrite E in D. rewrite D. reflexivity.
  - intro base. cbn [AgentProxyUnary.requestOf rq_url].
    rewrite stripTrailingSlash_slash. reflexivity.
Qed.

End ControllerFacts.

(** A URL made of a no-break space, a space and a byte order mark: the
    controller answers 503 and asks nobody. *)
Lemma controller_disabled_example :
  AgentProxyUnary.getAgentBaseUrl (Some Examples.blankUrl) = EmptyString
  /\ AgentProxyUnary.chat nat string string (fun b => b)
       (fun _ w => (Threw (ErrorObject "connection refused"), S w))
       "authorization" (Some Examples.blankUrl) (fun _ => None) "user-1"
       (Some "{}") 0%nat
     = (Returned (503%Z, AgentProxyUnary.ErrorBody AgentProxyUnary.DISABLED),
        0%nat).
Proof.
  split; [reflexivity |].
  apply (proj1 (proj2 (controller_answers_503_or_forwards nat string string
                         (fun b => b)
                         (fun _ w => (Threw (ErrorObject "connection refused"),
                                      S w))
                         "authorization" (Some Examples.blankUrl)
                         AgentProxyUnary.POST
                         "/api/chat" (fun _ => None) "user-1" (Some "{}")
                         0%nat))).
  reflexivity.
Defined.

(** ** The gateway's handler of client messages *)

Section GatewayFacts.

Import GatewayMessages.

Variable JSON_parse : string -> option Json.

Local Abbreviation onMessage := (onMessage JSON_parse).

Lemma isText_cancel_chat (value : option Json) :
  isText "cancel" value = true -> isText "chat" value = false.
Proof.
  destruct value as [[| | | s | |] |]; cbn; try discriminate.
  intro C. apply String.eqb_eq in C. subst s. reflexivity.
Qed.

(** X23. What the gateway does with a client message: on a socket that is
    not open, nothing; a stream to the agent is started exactly for a
    parsed message of type chat with a truthy message and an array as
    history while the agent is enabled, and it carries that history and
    that message; the request in flight is aborted exactly for a parsed
    message of type cancel; and every other message gets at most one
    reply. *)
Theorem gateway_starts_stream_only_for_chat (enabled : bool) (raw : string) :
  onMessage false enabled raw = Nothing
  /\ (forall history message,
         onMessage true enabled raw = StartStream history message
         <-> enabled = true
             /\ exists msg,
                  JSON_parse raw = Some msg
                  /\ wellFormedChat msg = true
                  /\ history = property "conversationHistory" msg
                  /\ message = property "message" msg)
  /\ (onMessage true enabled raw = AbortInFlight
      <-> exists msg, JSON_parse raw = Some msg
                      /\ isText "cancel" (property "type" msg) = true)
  /\ (forall isOpen, (replies (onMessage isOpen enabled raw) <= 1)%nat).
Proof.
  split; [reflexivity |].
  assert (Step : forall msg,
             JSON_parse raw = Some msg ->
             onMessage true enabled raw
             = match msg with
               | JNull => Rejected
               | _ =>
                   if isText "cancel" (property "type" msg) then AbortInFlight
                   else if negb (wellFormedChat msg) then Reply EXPECTED
                   else if negb enabled
                        then Reply "Agent service is not configured."
                        else StartStream (property "conversationHistory" msg)
                               (property "message" msg)
               end).
  { intros msg P. unfold GatewayMessages.onMessage, wellFormedChat.
    rewrite P. cbn [negb].
    destruct msg; try reflexivity;
      rewrite !negb_andb; reflexivity. }
  split; [| split].
  - intros history message. split.
    + destruct (JSON_parse raw) as [msg |] eqn:P;
        [| unfold GatewayMessages.onMessage; rewrite P; discriminate].
      rewrite (Step msg eq_refl).
      assert (G : (if isText "cancel" (property "type" msg) then AbortInFlight
                   else if negb (wellFormedChat msg) then Reply EXPECTED
                   else if negb enabled
                        then Reply "Agent service is not configured."
                        else StartStream (property "conversationHistory" msg)
                               (property "message" msg))
                  = StartStream history message ->
                  enabled = true
                  /\ exists msg0,
                       Some msg = Some msg0
                       /\ wellFormedChat msg0 = true
                       /\ history = property "conversationHistory" msg0
                       /\ message = property "message" msg0).
      { destruct (isText "cancel" (property "type" msg)); [discriminate |].
        destruct (wellFormedChat msg) eqn:WF; [| discriminate].
        destruct enabled; [| discriminate]. cbn [negb].
        intros [= <- <-]. split; [reflexivity |]. exists msg. auto. }
      destruct msg; try exact G. discriminate.
    + intros [-> [msg [P [WF [-> ->]]]]]. rewrite (Step msg P).
      assert (C : isText "cancel" (property "type" msg) = false).
      { destruct (isText "cancel" (property "type" msg)) eqn:C; [| reflexivity].
        apply isText_cancel_chat in C. unfold wellFormedChat in WF.
        rewrite C in WF. discriminate. }
      rewrite C, WF. destruct msg; try reflexivity. discriminate.
  - split.
    + destruct (JSON_parse raw) as [msg |] eqn:P;
        [| unfold GatewayMessages.onMessage; rewrite P; discriminate].
      rewrite (Step msg eq_refl). intro H. exists msg. split; [reflexivity |].
      destruct (isText "cancel" (property "type" msg)); [reflexivity |].
      destruct (negb (wellFormedChat msg)), (negb enabled), msg; discriminate.
    + intros [msg [P C]]. rewrite (Step msg P), C.
      destruct msg; try reflexivity. discriminate.
  - intros [|]; [| cbn; lia].
    destruct (JSON_parse raw) as [msg |] eqn:P;
      [| unfold GatewayMessages.onMessage; rewrite P; cbn; lia].
    rewrite (Step msg eq_refl).
    destruct (isText "cancel" (property "type" msg)),
      (negb (wellFormedChat msg)), (negb enabled), msg; cbn; lia.
Qed.

End GatewayFacts.

(** ** The agent page: the queue of outgoing messages *)

Section PageFacts.

Import AgentPage.

Variable Details : Type.
Variable transport : nat -> Transport.

Local Abbreviation State := (State Details).
Local Abbreviation Action := (Action Details).
Local Abbreviation step := (step Details transport).
Local Abbreviation run := (run Details transport).
Local Abbreviation sound := (sound Details transport).
Local Abbreviation settled := (settled Details).
Local Abbreviation flushQueue := (flushQueue Details transport).
Local Abbreviation dispatchMessage := (dispatchMessage Details transport).
Local Abbreviation release := (release Details).
Local Abbreviation logged := (logged Details).
Local Abbreviation finalize := (finalize Details transport).
Local Abbreviation unsubscribe := (unsubscribe Details transport).
Local Abbreviation finishStreamRequest :=
  (finishStreamRequest Details transport).

Lemma slice_last_length (A : Type) (n : nat) (xs : list A) :
  (List.length (slice_last n xs) <= n)%nat.
Proof. unfold slice_last. rewrite length_skipn. lia. Qed.

Lemma dispatchedIds_app (xs ys : list (Effect)) :
  dispatchedIds (xs ++ ys) = dispatchedIds xs ++ dispatchedIds ys.
Proof.
  induction xs as [| [id h m | id] xs IH]; cbn; [reflexivity | |];
    rewrite IH; reflexivity.
Qed.

Lemma dispatchedMessages_app (xs ys : list (Effect)) :
  dispatchedMessages (xs ++ ys)
  = dispatchedMessages xs ++ dispatchedMessages ys.
Proof.
  induction xs as [| [id h m | id] xs IH]; cbn; [reflexivity | |];
    rewrite IH; reflexivity.
Qed.

(** An idle page holds no subscription. *)
Lemma idle_unsubscribed (st : State) :
  sound st -> isSending st = false -> activeRequestSubscription st = None.
Proof.
  intros [A [B [U _]]] I.
  destruct (activeRequestSubscription st) as [id |] eqn:E; [| reflexivity].
  destruct (U id eq_refl) as [Act [NZ Http]].
  exfalso. assert (X : isSending st = true) by (apply A; congruence).
  congruence.
Qed.

Lemma dispatchMessage_sound (message : string) (st : State) :
  sound st -> isSending st = false ->
  sound (dispatchMessage message st)
  /\ isSending (dispatchMessage message st) = true.
Proof.
  intros S I. pose proof (idle_unsubscribed st S I) as N.
  destruct S as [A [B [U [C D]]]].
  unfold AgentPage.sound, AgentPage.dispatchMessage.
  cbn [isSending activeRequestId requestCounter messages effects
       activeRequestSubscription appendMessage].
  split; [| reflexivity]. split; [split; [discriminate | reflexivity] |].
  split; [lia |]. split.
  - intros id. rewrite N.
    destruct (transport (S (requestCounter st))) eqn:T; try discriminate.
    intros [= <-]. auto.
  - split; [apply slice_last_length |].
    rewrite dispatchedIds_app, D, seq_S. reflexivity.
Qed.

Lemma release_sound (st : State) : sound st -> sound (release st).
Proof.
  intros [A [B [U [C D]]]]. unfold AgentPage.sound, AgentPage.release.
  cbn [isSending activeRequestId requestCounter messages effects
       activeRequestSubscription].
  split; [split; [discriminate | intro H; contradiction H; reflexivity] |].
  split; [lia |]. split; [discriminate |]. split; [exact C | exact D].
Qed.

Lemma logged_sound (left : list Effect) (st : State) :
  dispatchedIds left = [] -> sound st -> sound (logged left st).
Proof.
  intros L [A [B [U [C D]]]]. unfold AgentPage.sound, AgentPage.logged.
  cbn [isSending activeRequestId requestCounter messages effects
       activeRequestSubscription].
  split; [exact A |]. split; [exact B |]. split; [exact U |].
  split; [exact C |]. rewrite dispatchedIds_app, L, app_nil_r. exact D.
Qed.

Lemma flushQueue_settles (st : State) :
  sound st -> sound (flushQueue st) /\ settled (flushQueue st).
Proof.
  intro S. unfold AgentPage.flushQueue, AgentPage.settled.
  destruct (isSending st) eqn:I; cbn [orb]; [rewrite I; auto |].
  destruct (queuedMessages st) as [| next remaining] eqn:Q; cbn [List.length Nat.eqb].
  - rewrite Q. auto.
  - match goal with
    | |- context [AgentPage.dispatchMessage _ _ next ?s] =>
        destruct (dispatchMessage_sound next s) as [S' T]
    end.
    { destruct S as [A [B [U [C D]]]]. rewrite I in A.
      split; [exact A |]. split; [exact B |]. split; [exact U |].
      split; [exact C | exact D]. }
    { reflexivity. }
    split; [exact S' | left; exact T].
Qed.

Lemma finalize_sound (requestId : nat) (st : State) :
  sound st -> sound (finalize requestId st).
Proof.
  intro S. unfold AgentPage.finalize.
  destruct (activeRequestId st =? requestId)%nat; [| exact S].
  apply flushQueue_settles, release_sound, S.
Qed.

Lemma unsubscribe_sound (st : State) : sound st -> sound (unsubscribe st).
Proof.
  intro S. unfold AgentPage.unsubscribe.
  destruct (activeRequestSubscription st); [apply finalize_sound |]; exact S.
Qed.

Lemma finishStreamRequest_keeps (requestId : nat) (st : State) :
  transport requestId <> HttpTransport ->
  sound st -> settled st ->
  sound (finishStreamRequest requestId st)
  /\ settled (finishStreamRequest requestId st).
Proof.
  intros NH S T. unfold AgentPage.finishStreamRequest.
  destruct (activeRequestId st =? requestId)%nat eqn:E; [| auto].
  apply Nat.eqb_eq in E.
  apply flushQueue_settles.
  destruct S as [A [B [U [C D]]]]. unfold AgentPage.sound.
  cbn [isSending activeRequestId requestCounter messages effects
       activeRequestSubscription].
  split; [split; [discriminate | intro H; contradiction H; reflexivity] |].
  split; [lia |]. split; [| split; [exact C | exact D]].
  intros id Sub. destruct (U id Sub) as [Act [_ Http]].
  exfalso. apply NH. congruence.
Qed.

(** Every action keeps the bookkeeping consistent and the idle page's
    queue empty. *)
Lemma step_keeps (st : State) (a : Action) :
  sound st -> settled st -> sound (step st a) /\ settled (step st a).
Proof.
  intros S T. destruct a as [text | | | | requestId | content details | stored];
    cbn [AgentPage.step].
  - split; [exact S | exact T].
  - unfold sendMessage.
    destruct (negb (JsString.truthy (JsString.trim (draftMessage st))));
      [auto |].
    destruct (isSending st) eqn:I.
    + split; [exact S | left; exact I].
    + destruct (dispatchMessage_sound (JsString.trim (draftMessage st))
                  (clearDraft Details st) S I) as [S' T'].
      split; [exact S' | left; exact T'].
  - unfold interjectMessage.
    destruct (negb (JsString.truthy (JsString.trim (draftMessage st))));
      [auto |].
    cbn [isSending enqueueMessage clearDraft].
    apply flushQueue_settles.
    destruct (isSending st);
      [apply release_sound, unsubscribe_sound; exact S | exact S].
  - unfold cancelMessage. destruct (isSending st) eqn:I; cbn [negb]; [| auto].
    apply flushQueue_settles, release_sound, unsubscribe_sound, logged_sound;
      [reflexivity | exact S].
  - destruct (transport requestId) eqn:Tr.
    + apply finishStreamRequest_keeps; [congruence | exact S | exact T].
    + apply finishStreamRequest_keeps; [congruence | exact S | exact T].
    + unfold AgentPage.finalize.
      destruct (activeRequestId st =? requestId)%nat; [| auto].
      apply flushQueue_settles, release_sound, S.
  - split; [| exact T]. destruct S as [A [B [U [C D]]]].
    split; [exact A |]. split; [exact B |]. split; [exact U |].
    split; [| exact D]. apply slice_last_length.
  - split; [| exact T]. destruct S as [A [B [U [C D]]]].
    split; [exact A |]. split; [exact B |]. split; [exact U |].
    split; [| exact D]. apply slice_last_length.
Qed.

Lemma run_keeps (actions : list Action) (st : State) :
  sound st -> settled st ->
  sound (fold_left step actions st) /\ settled (fold_left step actions st).
Proof.
  revert st. induction actions as [| a rest IH]; intros st S T; [auto |].
  cbn [fold_left]. destruct (step_keeps st a S T) as [S' T']. apply IH; auto.
Qed.

Lemma initial_sound : sound (initial Details) /\ settled (initial Details).
Proof.
  split; [| right; reflexivity].
  split; [split; [discriminate | intro H; contradiction H; reflexivity] |].
  split; [reflexivity |]. split; [discriminate |].
  split; [cbn; lia | reflexivity].
Qed.

(** X24. Whatever the user does and whenever requests end, the fields of
    the page's request bookkeeping stay consistent: no message waits in
    the queue while [isSending] is false, [activeRequestId] is set
    exactly while [isSending] is true and is an id that has been handed
    out, a stored subscription is that of the active request and of a
    plain HTTP request, the request ids handed out are 1, 2, 3, ... in
    the order of the requests, and the history holds at most 50 messages.
    (The fields say nothing of the requests that are still under way:
    after a cancellation over plain HTTP the page can read as idle while
    the request that the teardown has dispatched is under way.) *)
Theorem page_keeps_queue_moving (actions : list Action) :
  let st := run actions in
  (isSending st = true \/ queuedMessages st = [])
  /\ (isSending st = true <-> activeRequestId st <> 0%nat)
  /\ (activeRequestId st <= requestCounter st)%nat
  /\ (forall requestId,
         activeRequestSubscription st = Some requestId ->
         activeRequestId st = requestId
         /\ requestId <> 0%nat
         /\ transport requestId = HttpTransport)
  /\ (List.length (messages st) <= 50)%nat
  /\ dispatchedIds (effects st) = seq 1 (requestCounter st).
Proof.
  cbv zeta. unfold AgentPage.run.
  destruct initial_sound as [S T].
  destruct (run_keeps actions _ S T) as [[A [B [U [C D]]]] T'].
  auto 10.
Qed.

Lemma dispatchMessage_fields (message : string) (st : State) :
  effects (dispatchMessage message st)
  = effects st
    ++ [Dispatched (S (requestCounter st)) (historyOf Details (messages st))
          message]
  /\ queuedMessages (dispatchMessage message st) = queuedMessages st
  /\ draftMessage (dispatchMessage message st) = draftMessage st.
Proof. repeat split. Qed.

Local Abbreviation traffic := (traffic Details).

Lemma flushQueue_order (st : State) : traffic (flushQueue st) = traffic st.
Proof.
  unfold traffic, AgentPage.flushQueue.
  destruct (isSending st); cbn [orb]; [auto |].
  destruct (queuedMessages st) as [| next remaining] eqn:Q;
    cbn [List.length Nat.eqb]; [rewrite Q; auto |].
  match goal with
  | |- context [AgentPage.dispatchMessage _ _ ?m ?s] =>
      destruct (dispatchMessage_fields m s) as [-> [-> ->]]
  end.
  cbn [effects queuedMessages draftMessage].
  rewrite dispatchedMessages_app, <- app_assoc. reflexivity.
Qed.

Lemma release_order (st : State) : traffic (release st) = traffic st.
Proof. reflexivity. Qed.

Lemma finalize_order (requestId : nat) (st : State) :
  traffic (finalize requestId st) = traffic st.
Proof.
  unfold AgentPage.finalize.
  destruct (activeRequestId st =? requestId)%nat; [| reflexivity].
  rewrite flushQueue_order. apply release_order.
Qed.

Lemma unsubscribe_order (st : State) : traffic (unsubscribe st) = traffic st.
Proof.
  unfold AgentPage.unsubscribe.
  destruct (activeRequestSubscription st); [apply finalize_order | reflexivity].
Qed.

Lemma finishStreamRequest_order (requestId : nat) (st : State) :
  traffic (finishStreamRequest requestId st) = traffic st.
Proof.
  unfold AgentPage.finishStreamRequest.
  destruct (activeRequestId st =? requestId)%nat; [| reflexivity].
  rewrite flushQueue_order. reflexivity.
Qed.

Lemma traffic_eq (st st' : State) (rest : list string) :
  traffic st' = traffic st ->
  dispatchedMessages (effects st') ++ queuedMessages st' ++ rest
  = dispatchedMessages (effects st) ++ queuedMessages st ++ rest
  /\ draftMessage st' = draftMessage st.
Proof.
  unfold traffic. intros [= E D]. rewrite !app_assoc, E. auto.
Qed.

(** One action that is not an interjection: what has left the page and
    what waits, together, grow by what the action submits. *)
Lemma step_order (st : State) (a : Action) (rest : list Action) :
  settled st -> isInterject Details a = false ->
  dispatchedMessages (effects (step st a)) ++ queuedMessages (step st a)
    ++ submitted Details (draftMessage (step st a)) rest
  = dispatchedMessages (effects st) ++ queuedMessages st
    ++ submitted Details (draftMessage st) (a :: rest).
Proof.
  intros T N.
  destruct a as [text | | | | requestId | content details | stored];
    cbn [AgentPage.step submitted]; try discriminate N; try reflexivity.
  - unfold sendMessage.
    destruct (JsString.truthy (JsString.trim (draftMessage st))) eqn:M;
      cbn [negb]; [| reflexivity].
    destruct (isSending st) eqn:I.
    + cbn [effects queuedMessages draftMessage clearDraft enqueueMessage].
      rewrite <- !app_assoc. reflexivity.
    + destruct T as [T | T]; [congruence |].
      destruct (dispatchMessage_fields (JsString.trim (draftMessage st))
                  (clearDraft Details st)) as [-> [-> ->]].
      cbn [effects queuedMessages draftMessage clearDraft].
      rewrite T, dispatchedMessages_app, <- !app_assoc. reflexivity.
  - unfold cancelMessage. destruct (isSending st); cbn [negb]; [| reflexivity].
    match goal with
    | |- context [AgentPage.flushQueue _ _ ?s] =>
        assert (E : traffic (flushQueue s) = traffic st)
    end.
    { rewrite flushQueue_order, release_order, unsubscribe_order.
      unfold traffic. cbn [AgentPage.logged effects queuedMessages draftMessage].
      rewrite dispatchedMessages_app, app_nil_r. reflexivity. }
    destruct (traffic_eq _ _
                (submitted Details (draftMessage st) rest) E) as [O D].
    rewrite D. exact O.
  - assert (E : traffic (match transport requestId with
                         | HttpTransport => finalize requestId st
                         | _ => finishStreamRequest requestId st
                         end) = traffic st).
    { destruct (transport requestId);
        [apply finishStreamRequest_order | apply finishStreamRequest_order
         | apply finalize_order]. }
    destruct (traffic_eq _ _
                (submitted Details (draftMessage st) rest) E) as [O D].
    rewrite D. exact O.
Qed.

Lemma run_order (actions : list Action) :
  forall st : State,
    sound st -> settled st ->
    existsb (isInterject Details) actions = false ->
    dispatchedMessages (effects (fold_left step actions st))
      ++ queuedMessages (fold_left step actions st)
    = dispatchedMessages (effects st) ++ queuedMessages st
      ++ submitted Details (draftMessage st) actions.
Proof.
  induction actions as [| a rest IH]; intros st S T N.
  - cbn [fold_left submitted]. rewrite app_nil_r. reflexivity.
  - cbn [existsb] in N. apply orb_false_iff in N. destruct N as [Na Nr].
    cbn [fold_left]. destruct (step_keeps st a S T) as [S' T'].
    rewrite (IH _ S' T' Nr). apply step_order; assumption.
Qed.

(** X25. Without interjections no message is lost, sent twice or
    reordered: at every moment the messages that have left the page,
    followed by those that wait in the queue, are the messages the user
    has submitted (the trimmed non-empty drafts), in the order of their
    submission, whenever requests end or are cancelled, and whatever the
    transport of each request. *)
Theorem page_sends_in_order (actions : list Action) :
  existsb (isInterject Details) actions = false ->
  dispatchedMessages (effects (run actions)) ++ queuedMessages (run actions)
  = submitted Details EmptyString actions.
Proof.
  intro N. destruct initial_sound as [S T].
  unfold AgentPage.run. rewrite (run_order actions _ S T N). reflexivity.
Qed.

End PageFacts.

(** Three messages are sent over plain HTTP while the first request is
    under way, and it is cancelled: the second and the third leave at
    once, in that order; a draft of no-break spaces is not a message. *)
Lemma page_sends_in_order_example :
  AgentPage.dispatchedMessages
    (AgentPage.effects
       (AgentPage.run unit (fun _ => AgentPage.HttpTransport)
          PageScenarios.cancelledOverHttp))
  ++ AgentPage.queuedMessages
       (AgentPage.run unit (fun _ => AgentPage.HttpTransport)
          PageScenarios.cancelledOverHttp)
  = ["How is my portfolio?"; "And my performance?"; "And my dividends?"].
Proof.
  exact (page_sends_in_order unit (fun _ => AgentPage.HttpTransport)
           PageScenarios.cancelledOverHttp eq_refl).
Defined.

(** A second message waits while the first request is under way over
    plain HTTP, and the user cancels: the teardown of the subscription
    dispatches the second message, and the reset that follows marks the
    page as idle. Request 2 has left and has neither ended nor been
    cancelled, while [isSending] is false and no request is active. *)
Lemma page_cancel_over_http :
  let st := AgentPage.run unit (fun _ => AgentPage.HttpTransport)
              PageScenarios.cancelledOnce in
  AgentPage.dispatchedIds (AgentPage.effects st) = [1; 2]%nat
  /\ AgentPage.dispatchedMessages (AgentPage.effects st)
     = ["How is my portfolio?"; "And my performance?"]
  /\ filter (fun e => match e with
                      | AgentPage.Cancelled _ => true
                      | _ => false
                      end) (AgentPage.effects st)
     = [AgentPage.Cancelled 1]
  /\ AgentPage.isSending st = false
  /\ AgentPage.activeRequestId st = 0%nat
  /\ AgentPage.activeRequestSubscription st = None
  /\ AgentPage.queuedMessages st = [].
Proof.
  cbv zeta.
  destruct (page_keeps_queue_moving unit (fun _ => AgentPage.HttpTransport)
              PageScenarios.cancelledOnce) as [_ [_ [_ [_ [_ D]]]]].
  cbv zeta in D.
  split; [rewrite D; reflexivity |].
  repeat split; vm_compute; reflexivity.
Defined.

(** ** The gateway's forwarding loop *)

Section ForwardFacts.

Import AgentWebSocket.

Variable E : Type.
Variable stringify : E -> string.

Local Abbreviation forwardEvents := (forwardEvents E stringify).

(** X26. The gateway forwards a prefix of the events, in their order,
    and stops for good at the first event at which it finds the socket
    closed: every event before it has been sent while the socket was
    open, and nothing after it is sent. *)
Theorem gateway_forwards_a_prefix (isOpen : nat -> bool)
  (events : list E) (i : nat) :
  exists k,
    (k <= List.length events)%nat
    /\ forwardEvents isOpen i events = map stringify (firstn k events)
    /\ (forall j, (j < k)%nat -> isOpen (i + j)%nat = true)
    /\ ((k < List.length events)%nat -> isOpen (i + k)%nat = false).
Proof.
  revert i. induction events as [| event rest IH]; intro i.
  - exists 0%nat. cbn. repeat split; try lia.
  - cbn [AgentWebSocket.forwardEvents].
    destruct (isOpen i) eqn:O; cbn [negb].
    + destruct (IH (S i)) as [k [L [F [Open Closed]]]].
      exists (S k). cbn [List.length firstn map]. rewrite F.
      split; [lia |]. split; [reflexivity |]. split.
      * intros [| j] H; [rewrite Nat.add_0_r; exact O |].
        replace (i + S j)%nat with (S i + j)%nat by lia. apply Open. lia.
      * intro H. replace (i + S k)%nat with (S i + k)%nat by lia.
        apply Closed. lia.
    + exists 0%nat. cbn [List.length firstn map]. rewrite Nat.add_0_r.
      split; [lia |]. split; [reflexivity |]. split; [intros j H; lia | auto].
Qed.

End ForwardFacts.

(** ** The data of the response *)

Section ResponseData.

Import AgentService.

Variable W : Type.
Variable Input : Type.
Variable Date_now : W -> Z * W.
Variable today : W -> IsoDate.
Variable buildSystemPrompt : string -> string -> string -> string.
Variable messages_create :
  LlmRequest Input -> W -> Outcome (list (ContentBlock Input)) * W.
Variable stringify_result : ToolResult -> Outcome string.
Variable stringify_error : string -> string.
Variable toFixed2 : Q -> string.
Variable agentConfig : AgentConfig.
Variable toolRegistry : ToolRegistry (Executor W Input).

Local Abbreviation chat :=
  (chat W Input Date_now today buildSystemPrompt messages_create
     stringify_result stringify_error toFixed2 agentConfig toolRegistry).

Lemma snapshotSucceeded_false (rows : list ToolTraceRow) :
  snapshotSucceeded rows = false ->
  ~ exists row, In row rows /\ ok row = true
                /\ tool row = "getPortfolioSnapshot".
Proof.
  intros N [row [I [O T]]].
  assert (X : snapshotSucceeded rows = true).
  { apply existsb_exists. exists row. split; [exact I |].
    rewrite O, T. reflexivity. }
  congruence.
Qed.

(** X27. The data of a response comes from the snapshot tool alone: in a
    turn without a successful [getPortfolioSnapshot] row the response
    carries the empty data (valuation at market, no date, no totals, no
    allocation), whatever the other tools have returned. *)
Theorem response_data_needs_snapshot (request : AgentChatRequest)
  (userContext : UserContext) (w : W) :
  snapshotSucceeded (toolTrace (response (chat request userContext w))) = false ->
  data (response (chat request userContext w)) = emptyData.
Proof.
  destruct (chat_paths W Input Date_now today buildSystemPrompt
              messages_create stringify_result stringify_error toFixed2
              agentConfig toolRegistry request userContext w)
    as [[msg ->] | [[text ->] | [requests [w1 [_ [[msg ->] | [text ->]]]]]]];
    try reflexivity.
  destruct (runTools_effect W Input Date_now stringify_result stringify_error
              toolRegistry (toolContextOf userContext) requests
              (initialTurn Input) w1)
    as [rows [blocks [T [_ [_ [_ [_ [_ R]]]]]]]].
  cbn [toolTrace data AgentService.toolResponse].
  set (st := fst _) in *.
  cbn [initialTurn st_toolTrace st_toolResults app] in T, R.
  rewrite T. intro N. apply snapshotSucceeded_false in N.
  destruct (JsMap.get "getPortfolioSnapshot" (st_toolResults st)) eqn:G;
    [| reflexivity].
  exfalso. apply N.
  assert (X : JsMap.get "getPortfolioSnapshot" (st_toolResults st) <> None)
    by congruence.
  apply R in X. destruct X as [X | X]; [contradiction X; reflexivity | exact X].
Qed.

End ResponseData.

(** Only the failing performance tool and an unknown tool were asked
    for: the response carries the empty data. *)
Lemma response_data_example :
  data
    (AgentService.response
       (Examples.turn Scenarios.failingPlan "I could not read your data."
          "How did I do?"))
  = emptyData.
Proof.
  exact (response_data_needs_snapshot nat unit Examples.clock
           Examples.todayIs Examples.prompt
           (Examples.provider Scenarios.failingPlan
              "I could not read your data.")
           Examples.showResult Examples.showError
           Examples.showInteger Examples.config Examples.registry
           (Examples.ask "How did I do?") Examples.user 0%nat eq_refl).
Defined.

(** ** The range of the allocation percents *)

Section PercentRange.

Import GetPortfolioSnapshotTool.

Lemma scaled_floor_range (x top : Q) (n : Z) :
  (0 <= x)%Q -> (x <= top)%Q -> Qfloor (top + (1 # 2)) = n ->
  (0 <= Qfloor (x + (1 # 2)) <= n)%Z.
Proof.
  intros L U <-. split.
  - change 0%Z with (Qfloor 0). apply Qfloor_resp_le. lra.
  - apply Qfloor_resp_le. lra.
Qed.

Lemma round2_range (p : Q) :
  (0 <= p)%Q -> (p <= 100)%Q -> (0 <= round2 p)%Q /\ (round2 p <= 100)%Q.
Proof.
  intros L U. unfold round2.
  pose proof (scaled_error p) as S. apply Qabs_Qle_condition in S.
  destruct S as [S1 S2].
  assert (A : (Qabs p == p)%Q) by (apply Qabs_pos, L).
  rewrite A in S1, S2.
  set (y := Double.nearest (Double.nearest p * 100)) in *.
  assert (Y0 : (0 <= y)%Q) by lra.
  assert (Y1 : (y + (1 # 2) < 10001)%Q) by lra.
  assert (K0 : (0 <= Math_round y)%Z).
  { unfold Math_round. change 0%Z with (Qfloor 0).
    apply Qfloor_resp_le. lra. }
  assert (K1 : (Math_round y <= 10000)%Z).
  { unfold Math_round. pose proof (Qfloor_le (y + (1 # 2))) as F.
    assert (X : (inject_Z (Qfloor (y + (1 # 2))) < inject_Z 10001)%Q).
    { change (inject_Z 10001) with 10001%Q. lra. }
    rewrite <- Zlt_Qlt in X. lia. }
  rewrite Zle_Qle in K0. rewrite Zle_Qle in K1.
  set (f := inject_Z (Math_round y)) in *.
  change (inject_Z 0) with 0%Q in K0.
  change (inject_Z 10000) with 10000%Q in K1.
  assert (E : (f / 100 == f * (1 # 100))%Q) by (unfold Qdiv; reflexivity).
  rewrite E. split; lra.
Qed.

Lemma round_dp_range (q : Q) :
  (0 <= q)%Q -> (q <= 1)%Q ->
  (0 <= Big.round_dp q)%Q /\ (Big.round_dp q <= 1)%Q.
Proof.
  intros L U. unfold Big.round_dp.
  assert (P : Qle_bool 0 q = true) by (apply Qle_bool_iff, L). rewrite P.
  change Big.scale with (100000000000000000000 # 1)%Q.
  destruct (scaled_floor_range (q * (100000000000000000000 # 1))
              (100000000000000000000 # 1) 100000000000000000000) as [A B];
    [lra | lra | reflexivity |].
  rewrite Zle_Qle in A. rewrite Zle_Qle in B.
  set (f := inject_Z (Qfloor (q * (100000000000000000000 # 1) + (1 # 2)))) in *.
  change (inject_Z 0) with 0%Q in A.
  change (inject_Z 100000000000000000000)
    with (100000000000000000000 # 1)%Q in B.
  assert (E : (f / (100000000000000000000 # 1)
               == f * (1 # 100000000000000000000))%Q)
    by (unfold Qdiv; reflexivity).
  rewrite E. split; lra.
Qed.

Lemma percentOf_range (total v : Q) :
  (0 <= v)%Q -> (v <= total)%Q ->
  (0 <= Spec.percentOf total v)%Q /\ (Spec.percentOf total v <= 100)%Q.
Proof.
  intros L U. unfold Spec.percentOf.
  destruct (Qle_bool total 0) eqn:T; [split; lra |].
  assert (P : (0 < total)%Q).
  { destruct (Qlt_le_dec 0 total) as [H | H]; [exact H |].
    apply Qle_bool_iff in H. congruence. }
  assert (Q0 : (0 <= v / total)%Q).
  { apply Qle_shift_div_l; [exact P | lra]. }
  assert (Q1 : (v / total <= 1)%Q).
  { apply Qle_shift_div_r; [exact P | lra]. }
  destruct (round_dp_range (v / total) Q0 Q1) as [A B].
  apply round2_range; lra.
Qed.

Lemma sum_bounds_member (xs : list Q) (x : Q) :
  Forall (fun y => (0 <= y)%Q) xs -> In x xs ->
  (0 <= Spec.sum xs)%Q /\ (x <= Spec.sum xs)%Q.
Proof.
  intro F. revert x. induction F as [| y ys P F IH]; intros x I; [destruct I |].
  rewrite sum_cons.
  assert (S0 : (0 <= Spec.sum ys)%Q).
  { clear - F. induction F as [| z zs P F IH]; [cbn; lra |].
    rewrite sum_cons. lra. }
  destruct I as [-> | I]; [split; lra |].
  destruct (IH x I) as [_ B]. split; lra.
Qed.

(** X28. When no retained holding has a negative value, every percent of
    [allocationBySymbol] lies between 0 and 100. *)
Theorem snapshot_percents_in_range (now : IsoDate)
  (details : PortfolioDetails) (baseCurrency : string) :
  (forall pos, In pos (details_holdings details) -> retained pos = true ->
               (0 <= Spec.valueOf pos)%Q) ->
  forall row,
    In row (allocationBySymbol (mapToSnapshot now details baseCurrency)) ->
    (0 <= percent row)%Q /\ (percent row <= 100)%Q.
Proof.
  intros NonNeg row I.
  rewrite mapToSnapshot_rows in I. apply in_map_iff in I.
  destruct I as [pos [<- I]].
  rewrite symbolRow_percent, holdingValue_valueOf.
  pose proof (mapToSnapshot_total now details baseCurrency) as Total.
  assert (F : Forall (fun y => (0 <= y)%Q)
                (map Spec.valueOf (filter retained (details_holdings details)))).
  { apply Forall_map, Forall_forall. intros p Ip.
    apply filter_In in Ip. destruct Ip as [Ip R]. apply NonNeg; assumption. }
  destruct (sum_bounds_member _ (Spec.valueOf pos) F (in_map _ _ _ I))
    as [_ B].
  apply percentOf_range.
  - apply filter_In in I. destruct I as [Ip R]. apply NonNeg; assumption.
  - rewrite Total. exact B.
Qed.

End PercentRange.

(** The three percents of the mock portfolio. *)
Lemma snapshot_percents_example :
  Forall (fun row => (0 <= percent row)%Q /\ (percent row <= 100)%Q)
    (allocationBySymbol
       (GetPortfolioSnapshotTool.mapToSnapshot "2026-02-01"
          Examples.MOCK_PORTFOLIO_DETAILS "USD")).
Proof.
  apply Forall_forall.
  apply (snapshot_percents_in_range "2026-02-01"
           Examples.MOCK_PORTFOLIO_DETAILS "USD").
  intros pos I _. cbn in I.
  destruct I as [<- | [<- | [<- | []]]]; vm_compute; discriminate.
Defined.

(** The provider is down with an [Error]: the degraded result names its
    message; the provider throws [null]: the tool fails. *)
Lemma performance_degraded_example :
  fst (GetPerformanceTool.execute nat
         (fun _ _ _ w => (Threw (ErrorObject "timeout"), S w))
         Examples.todayIs (Some "1y") Examples.toolContext 0%nat)
  = Returned
      {| pr_accountId := "default";
         pr_timeframe := {| tf_start := ""; tf_end := "2026-02-01" |};
         pr_valuationMethod := cost_basis;
         pr_asOf := None;
         pr_totalReturnPercent := None;
         pr_timeSeries := [];
         pr_reasonIfUnavailable :=
           Some "Performance data is not available: timeout" |}
  /\ fst (GetPerformanceTool.execute nat
            (fun _ _ _ w => (Threw ThrownNull, S w))
            Examples.todayIs (Some "1y") Examples.toolContext 0%nat)
     = Threw (ErrorObject
                "Cannot read properties of null (reading 'message')").
Proof.
  split.
  - apply (proj1 (proj2
             (performance_degrades_with_provider nat
                (fun _ _ _ w => (Threw (ErrorObject "timeout"), S w))
                Examples.todayIs (Some "1y") Examples.toolContext 0%nat))
             (ErrorObject "timeout") eq_refl).
  - apply (proj1 (proj2
             (performance_degrades_with_provider nat
                (fun _ _ _ w => (Threw ThrownNull, S w))
                Examples.todayIs (Some "1y") Examples.toolContext 0%nat))
             ThrownNull eq_refl).
Defined.

(** The socket is found closed at the third of four events: two are
    sent. *)
Lemma gateway_forwards_example :
  exists k,
    (k <= 4)%nat
    /\ AgentWebSocket.forwardEvents string (fun e => e)
         (fun n => (n <? 2)%nat) 0 ["a"; "b"; "c"; "d"]
       = map (fun e => e) (firstn k ["a"; "b"; "c"; "d"]).
Proof.
  destruct (gateway_forwards_a_prefix string (fun e => e)
              (fun n => (n <? 2)%nat) ["a"; "b"; "c"; "d"] 0%nat)
    as [k [L [F _]]].
  exists k. split; [exact L | exact F].
Defined.
